(** * ezyVet UI automation: resolve-or-create helpers, login retry and
      dropdown protocols, as scripts over an abstract browser.

    The TypeScript helpers drive a Playwright [page].  Here the page is an
    oracle: every Playwright call is a command [Cmd], the browser answers it
    (a value or a thrown error) and moves to a new world.  A script is a
    function from the world to a [Result]: its outcome, the final world, the
    events (commands with the answers they got) and the console lines, in the
    order the script produced them.  Theorems quantify over every browser;
    a small simulated application [Sim] gives concrete runs. *)

From Stdlib Require Import String Ascii List ZArith Bool Lia DecimalString.
Import ListNotations.
Open Scope string_scope.

(* ================================================================== *)
(** ** JavaScript values used by the helpers *)

(** The double quote character, for selectors and messages that contain it. *)
Definition dquote : string := String "034"%char EmptyString.

(** [quoted s] is s between double quotes. *)
Definition quoted (s : string) : string := dquote ++ s ++ dquote.

(** Template-literal rendering of a JS number that is a safe integer
    (between -2^53 and 2^53, both excluded): its decimal digits after the
    sign.  The numbers that JS prints otherwise, those of 1e21 and more,
    with an exponent, and those that are no integers, are outside this
    rendering. *)
Definition string_of_number (z : Z) : string :=
  NilZero.string_of_int (Z.to_int z).

(** [String.prototype.toLowerCase] on the ASCII letters. *)
Definition lower_ascii (c : ascii) : ascii :=
  let n := nat_of_ascii c in
  if andb (65 <=? n)%nat (n <=? 90)%nat then ascii_of_nat (n + 32) else c.

Fixpoint toLowerCase (s : string) : string :=
  match s with
  | EmptyString => EmptyString
  | String c r => String (lower_ascii c) (toLowerCase r)
  end.

(** [Array.prototype.join]. *)
Fixpoint join (sep : string) (l : list string) : string :=
  match l with
  | [] => ""
  | [x] => x
  | x :: r => x ++ sep ++ join sep r
  end.

(** A thrown JS error: its [name] and its [message]. *)
Record JsError := mkError { err_name : string; err_message : string }.

(** [new Error(msg)]. *)
Definition Error (msg : string) : JsError := mkError "Error" msg.

(** What a call or a script does: return a value or throw. *)
Inductive Outcome (A : Type) : Type :=
| Returns (a : A)
| Throws (e : JsError).
Arguments Returns {A} a.
Arguments Throws {A} e.

(** Truthiness of a [string | null] value: null and the empty string are
    falsy. *)
Definition truthy (v : option string) : bool :=
  match v with
  | Some s => negb (s =? "")
  | None => false
  end.

(** Template-literal rendering of a [string | null] value. *)
Definition template (v : option string) : string :=
  match v with
  | Some s => s
  | None => "null"
  end.

(** [v || d] on an optional string: the default replaces undefined and the
    empty string. *)
Definition or_default (v : option string) (d : string) : string :=
  match v with
  | Some s => if s =? "" then d else s
  | None => d
  end.

(* ================================================================== *)
(** ** Locators and commands *)

(** A text argument: a plain string or [new RegExp(source)] / a regex
    literal with flags. *)
Inductive TextPattern :=
| Str (s : string)
| RegExp (source : string) (flags : string).

(** Playwright locator expressions, rooted at the page. *)
Inductive Locator :=
| OnPage
| Css (parent : Locator) (selector : string)          (* .locator(sel) *)
| ByTestId (parent : Locator) (id : string)           (* .getByTestId(id) *)
| ByRole (parent : Locator) (role name : string)      (* .getByRole(role,{name}) *)
| ByText (parent : Locator) (t : TextPattern) (exact : bool)
| HasText (l : Locator) (t : TextPattern)             (* .filter({hasText}) *)
| First (l : Locator)
| Nth (l : Locator) (n : nat).

(** The Playwright calls the helpers make.  A timeout of [None] is the
    framework default. *)
Inductive Cmd :=
| Goto (url : string)
| Click (l : Locator) (force : bool)
| Fill (l : Locator) (value : string)
| Clear (l : Locator)
| Press (l : Locator) (key : string)
| PressSequentially (l : Locator) (text : string) (delay : Z)
| KeyboardType (text : string)
| KeyboardPress (key : string)
| WaitForTimeout (ms : Z)
| WaitForVisible (l : Locator) (timeout : Z)      (* waitFor({state:'visible'}) *)
| WaitForLoadState (state : string) (timeout : Z)
| WaitForURLWithout (fragment : string) (timeout : Z)
| ExpectVisible (l : Locator) (timeout : option Z)
| ExpectText (l : Locator) (t : TextPattern) (timeout : option Z)
| ExpectAttribute (l : Locator) (name : string) (t : TextPattern)
    (timeout : option Z)
| ExpectChecked (l : Locator)
| ExpectURL (url : string)
| IsVisible (l : Locator) (timeout : Z)
| TextContent (l : Locator) (timeout : Z)
| AllTextContents (l : Locator).

(** The type of the value a call resolves to. *)
Definition resp (c : Cmd) : Type :=
  match c with
  | IsVisible _ _ => bool
  | TextContent _ _ => option string
  | AllTextContents _ => list string
  | _ => unit
  end.

(** A browser: its worlds and how a world answers a command.  An answer
    [Throws e] covers every way the call can reject: a timeout, a failed
    expectation, a pattern that is no regular expression. *)
Record Browser := mkBrowser {
  World : Type;
  perform : forall c : Cmd, World -> Outcome (resp c) * World
}.

(** A command with the answer it got. *)
Inductive Event := Ev (c : Cmd) (r : Outcome (resp c)).

Definition ev_cmd (e : Event) : Cmd := let 'Ev c _ := e in c.

(** Whether the call of the event resolved. *)
Definition ev_ok (e : Event) : bool :=
  match e with
  | Ev _ (Returns _) => true
  | Ev _ (Throws _) => false
  end.

(* ================================================================== *)
(** ** Scripts *)

Section Scripts.

Context {B : Browser}.

(** The result of running a script from a world. *)
Record Result (A : Type) := mkResult {
  outcome : Outcome A;
  final : World B;
  events : list Event;
  logs : list string
}.
Arguments mkResult {A} _ _ _ _.
Arguments outcome {A} _.
Arguments final {A} _.
Arguments events {A} _.
Arguments logs {A} _.

Definition Script (A : Type) : Type := World B -> Result A.

Definition ret {A} (a : A) : Script A :=
  fun w => mkResult (Returns a) w [] [].

Definition throw {A} (e : JsError) : Script A :=
  fun w => mkResult (Throws e) w [] [].

Definition bind {A C} (m : Script A) (k : A -> Script C) : Script C :=
  fun w =>
    match m w with
    | mkResult (Returns a) w1 ev1 lg1 =>
        match k a w1 with
        | mkResult o w2 ev2 lg2 => mkResult o w2 (ev1 ++ ev2) (lg1 ++ lg2)
        end
    | mkResult (Throws e) w1 ev1 lg1 => mkResult (Throws e) w1 ev1 lg1
    end.

(** [try { m } catch (e) { h e }]. *)
Definition try_catch {A} (m : Script A) (h : JsError -> Script A) : Script A :=
  fun w =>
    match m w with
    | mkResult (Returns a) w1 ev1 lg1 => mkResult (Returns a) w1 ev1 lg1
    | mkResult (Throws e) w1 ev1 lg1 =>
        match h e w1 with
        | mkResult o w2 ev2 lg2 => mkResult o w2 (ev1 ++ ev2) (lg1 ++ lg2)
        end
    end.

(** [await] of one Playwright call. *)
Definition call (c : Cmd) : Script (resp c) :=
  fun w =>
    match perform B c w with
    | (r, w1) => mkResult r w1 [Ev c r] []
    end.

(** [console.log]. *)
Definition console_log (msg : string) : Script unit :=
  fun w => mkResult (Returns tt) w [] [msg].

End Scripts.

Arguments mkResult {B A} _ _ _ _.
Arguments outcome {B A} _.
Arguments final {B A} _.
Arguments events {B A} _.
Arguments logs {B A} _.

Declare Scope script_scope.
Delimit Scope script_scope with script.
Notation "x <- m ;; k" := (bind m (fun x => k))
  (at level 61, m at next level, right associativity) : script_scope.
Notation "m ;; k" := (bind m (fun _ => k))
  (at level 61, right associativity) : script_scope.
Open Scope script_scope.

(** The commands a run issued, in order. *)
Definition commands {B A} (r : @Result B A) : list Cmd :=
  map ev_cmd (events r).

(* ================================================================== *)
(** ** Control flow shared by the helpers *)

(** How a block of statements ends: it falls through to the next
    statement, or it executed [return]. *)
Inductive Completion := Normal | Return.

Section Helpers.

Context {B : Browser}.
#[local] Abbreviation Script := (@Script B).

(** [for (const x of l) { await body(x) }]. *)
Fixpoint forEach {T} (l : list T) (body : T -> Script unit) : Script unit :=
  match l with
  | [] => ret tt
  | x :: r => body x ;; forEach r body
  end.

(* ------------------------------------------------------------------ *)
(** *** helpers/search-helpers.ts *)

Definition sidebarSearchInput : Locator :=
  Css (Css OnPage "#leftpane") ("input[placeholder*=" ++ quoted "search" ++ " i]").

Definition searchInSidebar (searchString : string) : Script unit :=
  let searchInput := sidebarSearchInput in
  call (Clear searchInput) ;;
  call (Fill searchInput searchString) ;;
  call (Press searchInput "Enter").

Definition firstFilterItem : Locator := First (Css OnPage "#filterlist li").

Definition searchResultAppears (searchString : TextPattern) : Script unit :=
  call (ExpectText firstFilterItem searchString (Some 5000%Z)).

Definition selectSearchItem (searchString : string) : Script unit :=
  call (Click (ByText (Css OnPage "#filterlist") (RegExp searchString "") false)
          false).

Definition useSearchInput (locator : Locator) (searchString : string)
    (expectedString : option TextPattern) : Script unit :=
  call (PressSequentially locator searchString 50) ;;
  call (ExpectAttribute locator "title"
          (match expectedString with
           | Some e => e
           | None => Str searchString
           end)
          (Some 5000%Z)).

(* ------------------------------------------------------------------ *)
(** *** helpers/tab-helpers.ts *)

Inductive Tab :=
| Dashboard | Contacts | Patients | Clinical | Financial | Reporting
| Admin | Help.

Definition tab_text (t : Tab) : string :=
  match t with
  | Dashboard => "Dashboard"
  | Contacts => "Contacts"
  | Patients => "Patients"
  | Clinical => "Clinical"
  | Financial => "Financial"
  | Reporting => "Reporting"
  | Admin => "Admin"
  | Help => "Help"
  end.

Definition navigateToTab (tab : Tab) : Script unit :=
  call (Click
          (ByRole OnPage "tab"
             ("primary-tab-icon-" ++
              match tab with
              | Patients => "animals"
              | _ => toLowerCase (tab_text tab)
              end))
          false) ;;
  call (ExpectText (Css OnPage ".ezy\:bg-background-ui") (Str (tab_text tab))
          None).

Definition navigateToAnimalsTab : Script unit :=
  navigateToTab Patients ;;
  call (ExpectVisible
          (ByText (Css OnPage ".tabSliderHolder") (Str "New Patient") false)
          (Some 5000%Z)).

Definition navigateToContactsTab : Script unit :=
  navigateToTab Contacts ;;
  call (ExpectVisible
          (ByText (Css OnPage ".tabSliderHolder") (Str "New Contact") false)
          (Some 5000%Z)).

(* ------------------------------------------------------------------ *)
(** *** helpers/contact-helpers.ts *)

Inductive ContactType :=
| Customer | Supplier | Vet | Syndicate | StaffMember | Pharmacy.

Definition contact_type_text (t : ContactType) : string :=
  match t with
  | Customer => "Customer"
  | Supplier => "Supplier"
  | Vet => "Vet"
  | Syndicate => "Syndicate"
  | StaffMember => "Staff Member"
  | Pharmacy => "Pharmacy"
  end.

Record ContactName := mkContactName {
  firstName : string;
  lastName : string
}.

Definition checkbox (t : ContactType) : Locator :=
  ByRole OnPage "checkbox" (contact_type_text t).

Definition saveButton : Locator := ByTestId OnPage "Save".

(** The form fill of the create path of [createContact] (lines 74-100):
    the statements between the [try] block and the click on Save. *)
Definition contactFormFill (contactName : ContactName)
    (contactType : ContactType + list ContactType) : Script unit :=
  let contactTypeList :=
    match contactType with
    | inl t => [t]
    | inr l => l
    end in
  (* Customer is auto-checked, uncheck it to clear form *)
  call (Click (checkbox Customer) false) ;;
  forEach contactTypeList (fun type => call (Click (checkbox type) false)) ;;
  call (Fill (ByRole OnPage "textbox" "First Name") (firstName contactName)) ;;
  call (Fill (ByRole OnPage "textbox" "Last Name") (lastName contactName)) ;;
  call (Fill
          (Css OnPage
             ("[id=" ++ quoted "EmailPhone[1][emailphonedata_content]" ++ "]"))
          "test@test.com") ;;
  useSearchInput
    (ByTestId (Css OnPage ".inputSectionContent") "EmailPhoneType")
    "Email" None.

(** The create path of [createContact] (lines 74-116): the statements
    after the [try] block of the existence check. *)
Definition contactForm (contactName : ContactName)
    (contactType : ContactType + list ContactType) : Script unit :=
  contactFormFill contactName contactType ;;
  call (Click saveButton false) ;;
  call (ExpectVisible
          (ByText (Css OnPage ".sidebar")
             (RegExp (lastName contactName ++ ", " ++ firstName contactName) "")
             false)
          (Some 3000%Z)) ;;
  console_log
    ("✅ Contact " ++
     quoted (firstName contactName ++ " " ++ lastName contactName) ++
     " created successfully.").

(** [createContact]; the type argument is one contact type or an array.
    [Return] is the [return] inside the [try] block. *)
Definition createContact (contactName : ContactName)
    (contactType : ContactType + list ContactType) : Script unit :=
  navigateToContactsTab ;;
  call (ExpectVisible (First (Css (Css OnPage "#filterlist") "li"))
          (Some 10000%Z)) ;;
  searchInSidebar (firstName contactName ++ " " ++ lastName contactName) ;;
  found <-
    try_catch
      (searchResultAppears
         (RegExp ("-  " ++ lastName contactName ++ ", " ++ firstName contactName)
            "") ;;
       console_log
         ("✅ Contact " ++
          quoted (firstName contactName ++ " " ++ lastName contactName) ++
          " found.") ;;
       ret Return)
      (fun e =>
         console_log
           ("📝 Contact " ++
            quoted (firstName contactName ++ " " ++ lastName contactName) ++
            " not found. Creating...") ;;
         ret Normal) ;;
  match found with
  | Return => ret tt
  | Normal => contactForm contactName contactType
  end.

Definition createCustomer (customerName : ContactName) : Script unit :=
  createContact customerName (inl Customer).

End Helpers.

Section Patients.

Context {B : Browser}.
#[local] Abbreviation Script := (@Script B).

(* ------------------------------------------------------------------ *)
(** *** helpers/patient-helpers.ts *)

Definition animalNameInput : Locator :=
  Css OnPage ("input[name=" ++ quoted "animaldata_name" ++ "]").

Definition allFilterItems : Locator := Css OnPage "#filterlist li".

Definition errorToastLocator : Locator :=
  First (Css OnPage
           (".toast-error, [class*=" ++ quoted "toast" ++ "][class*=" ++
            quoted "error" ++ "]")).

Definition successToastLocator : Locator :=
  First (Css OnPage
           (".toast-success, [class*=" ++ quoted "toast" ++ "][class*=" ++
            quoted "success" ++ "]")).

(** Owner selection of [createAnimal] (lines 41-70): open the owner
    dropdown, search the owner in the sidebar input, click the item that
    carries the owner name, or else the first item. *)
Definition selectOwner (ownerName : string) : Script unit :=
  console_log ("📋 Searching for owner: " ++ ownerName) ;;
  call (Click
          (First (Css OnPage ("[id^=" ++ quoted "clientcontactDropdown" ++ "] .icon")))
          true) ;;
  call (WaitForTimeout 1500) ;;
  let searchInput := sidebarSearchInput in
  call (Fill searchInput ownerName) ;;
  call (Press searchInput "Enter") ;;
  call (WaitForTimeout 1000) ;;
  allItems <- call (AllTextContents allFilterItems) ;;
  console_log ("📋 Available contacts in filterlist: " ++ join ", " allItems) ;;
  let matchingItem := First (HasText allFilterItems (Str ownerName)) in
  isVisible <- try_catch (call (IsVisible matchingItem 2000)) (fun _ => ret false) ;;
  (if isVisible : bool then
     call (Click matchingItem true) ;;
     console_log "✅ Owner selected by name match"
   else
     console_log "⚠️  Exact name match not found, selecting first item in list" ;;
     call (Click (First allFilterItems) true)) ;;
  call (WaitForTimeout 2000) ;;
  console_log "✅ Owner selected".

(** The optional age and tags of the patient form; the same statements
    stand in [createAnimal] (lines 74-92) and in [createAnimalWithOwner]
    (lines 164-182). *)
Definition fillAge (age : option Z) : Script unit :=
  match age with
  | Some a =>
      call (Click (Css OnPage ("input[value=" ++ quoted "Not Set" ++ "]")) false) ;;
      call (KeyboardType (string_of_number a)) ;;
      call (ExpectChecked
              (Css OnPage ("input[name=" ++ quoted "animaldata_estimated" ++ "]:visible")))
  | None => ret tt
  end.

Definition fillTags (tags : option (list string)) : Script unit :=
  match tags with
  | Some ts =>
      call (Click
              (Css (ByText OnPage (Str "General") true)
                 "xpath=following-sibling::*[2]//ul[1]")
              false) ;;
      forEach ts (fun tag =>
        call (KeyboardType tag) ;;
        call (KeyboardPress "Enter"))
  | None => ret tt
  end.

(** The toast checks after Save; the same statements stand in
    [createAnimal] (lines 97-120) and in [createAnimalWithOwner]
    (lines 192-215).  [Return] is the [return] of the success branch. *)
Definition checkToasts (animalName : string) : Script Completion :=
  errorToast <-
    try_catch (call (TextContent errorToastLocator 2000)) (fun _ => ret None) ;;
  (if truthy errorToast then
     console_log ("❌ Error toast detected: " ++ template errorToast) ;;
     throw (Error ("Failed to create animal: " ++ template errorToast))
   else ret tt) ;;
  successToast <-
    try_catch (call (TextContent successToastLocator 2000)) (fun _ => ret None) ;;
  if truthy successToast then
    console_log ("✅ Success toast: " ++ template successToast) ;;
    console_log ("✅ Animal " ++ quoted animalName ++ " created successfully.") ;;
    ret Return
  else
    console_log "⚠️  No toast message detected" ;;
    ret Normal.

(** The create path of [createAnimal] (lines 39-129): the statements
    after the [try] block of the existence check. *)
Definition animalForm (animalName ownerName : string) (age : option Z)
    (tags : option (list string)) : Script unit :=
  call (Fill animalNameInput animalName) ;;
  selectOwner ownerName ;;
  useSearchInput (ByTestId OnPage "AnimalColour") "Bald" None ;;
  fillAge age ;;
  fillTags tags ;;
  call (Click saveButton false) ;;
  call (WaitForTimeout 3000) ;;
  toasts <- checkToasts animalName ;;
  match toasts with
  | Return => ret tt
  | Normal =>
      (* Only verify sidebar if we didn't get a success toast *)
      call (ExpectVisible
              (ByText (Css OnPage ".sidebar") (RegExp animalName "") false)
              (Some 5000%Z)) ;;
      console_log ("✅ Animal " ++ quoted animalName ++ " created successfully.")
  end.

Definition createAnimal (animalName ownerName : string) (age : option Z)
    (tags : option (list string)) : Script unit :=
  navigateToAnimalsTab ;;
  call (ExpectVisible (First (Css (Css OnPage "#filterlist") "li"))
          (Some 10000%Z)) ;;
  searchInSidebar animalName ;;
  found <-
    try_catch
      (searchResultAppears (RegExp (quoted animalName) "") ;;
       console_log ("✅ Animal " ++ quoted animalName ++ " found.") ;;
       ret Return)
      (fun e =>
         console_log ("📝 Animal " ++ quoted animalName ++ " not found. Creating...") ;;
         ret Normal) ;;
  match found with
  | Return => ret tt
  | Normal => animalForm animalName ownerName age tags
  end.

Definition createAnimalWithOwner (animalName ownerFirstName ownerLastName : string)
    (age : option Z) (tags : option (list string)) : Script unit :=
  console_log ("📝 Filling patient details for: " ++ animalName) ;;
  call (Fill animalNameInput animalName) ;;
  call (WaitForTimeout 1000) ;;
  useSearchInput (ByTestId OnPage "AnimalColour") "Bald" None ;;
  fillAge age ;;
  fillTags tags ;;
  call (WaitForTimeout 2000) ;;
  console_log "💾 Saving patient record..." ;;
  call (Click (Nth saveButton 1) false) ;;
  call (WaitForTimeout 3000) ;;
  toasts <- checkToasts animalName ;;
  match toasts with
  | Return => ret tt
  | Normal =>
      console_log ("✅ Animal " ++ quoted animalName ++ " created successfully.")
  end.

(* ------------------------------------------------------------------ *)
(** *** pages/EzyVetLoginPage.ts *)

Definition emailInput : Locator := Css OnPage "#input-email, #login-email".
Definition passwordInput : Locator := Css OnPage "#input-password, #login-password".
Definition loginButton : Locator := First (ByText OnPage (Str "Login") true).
Definition locationHeading : Locator :=
  ByText OnPage (Str "Please select a location") false.

Definition defaultLocation : string := "Master branch (Database)".

Definition goto : Script unit := call (Goto "/").

Definition selectLocation (location : option string) : Script unit :=
  shown <-
    try_catch
      (call (WaitForVisible locationHeading 10000) ;; ret Normal)
      (fun error =>
         (* No location selection needed - already logged in *)
         ret Return) ;;
  match shown with
  | Return => ret tt
  | Normal =>
      let locationName := or_default location defaultLocation in
      let locationElement := ByText OnPage (Str locationName) false in
      call (WaitForVisible locationElement 5000) ;;
      call (Click locationElement false) ;;
      try_catch (call (WaitForLoadState "networkidle" 5000)) (fun _ => ret tt)
  end.

Definition login (email password : string) (location : option string)
    : Script unit :=
  call (Fill emailInput email) ;;
  call (Fill passwordInput password) ;;
  call (Click loginButton false) ;;
  selectLocation location ;;
  call (WaitForURLWithout "/login.php" 30000).

Definition expectLoginSuccess : Script unit :=
  call (ExpectURL "/") ;;
  call (ExpectVisible (First (Css OnPage "text=/^[A-Z]{2}$/")) None).

(* ------------------------------------------------------------------ *)
(** *** helpers/ezyvet-auth-helpers.ts *)

Definition ezyVetLogin (email password : string) (department : option string)
    : Script unit :=
  goto ;;
  login email password department ;;
  expectLoginSuccess.

(** Console rendering of a caught error. *)
Definition show_error (e : JsError) : string :=
  err_name e ++ ": " ++ err_message e.

(** The [for] loop of [ezyVetLoginWithRetry]: [attempt] runs from its
    start value while [attempt <= maxRetries]; [n] bounds the iterations
    left.  The result carries [lastError] and whether the body returned. *)
Fixpoint loginAttempts (n : nat) (attempt maxRetries : Z)
    (lastError : option JsError) (email password : string)
    (department : option string) : Script (Completion * option JsError) :=
  match n with
  | O => ret (Normal, lastError)
  | S n' =>
      if (attempt <=? maxRetries)%Z then
        r <-
          try_catch
            (console_log
               ("Login attempt " ++ string_of_number attempt ++ "/" ++
                string_of_number maxRetries) ;;
             ezyVetLogin email password department ;;
             console_log "Login successful" ;;
             ret (Return, lastError))
            (fun error =>
               console_log
                 ("Login attempt " ++ string_of_number attempt ++ " failed: " ++
                  show_error error) ;;
               (if (attempt <? maxRetries)%Z then
                  console_log "Retrying login..." ;;
                  call (WaitForTimeout 2000)
                else ret tt) ;;
               ret (Normal, Some error)) ;;
        match fst r with
        | Return => ret r
        | Normal =>
            loginAttempts n' (attempt + 1)%Z maxRetries (snd r)
              email password department
        end
      else ret (Normal, lastError)
  end.

Definition ezyVetLoginWithRetry (email password : string)
    (department : option string) (maxRetries : Z) : Script unit :=
  r <- loginAttempts (Z.to_nat maxRetries) 1 maxRetries None
         email password department ;;
  match fst r with
  | Return => ret tt
  | Normal =>
      throw (Error
               ("Login failed after " ++ string_of_number maxRetries ++
                " attempts: " ++
                match snd r with
                | Some e => err_message e
                | None => "undefined"
                end))
  end.

(** The default of the [maxRetries] parameter. *)
Definition defaultMaxRetries : Z := 2.

(* ------------------------------------------------------------------ *)
(** *** tests/appointments/appointment-creation.spec.ts *)

Definition resourceField : Locator := ByTestId OnPage "Resource".

(** STEP 3 of the test (lines 62-82): the People/Resources Used field. *)
Definition selectResource : Script unit :=
  console_log "👤 Selecting People/Resources Used..." ;;
  call (WaitForTimeout 2000) ;;
  let parentDropdown :=
    Css resourceField
      ("xpath=ancestor::div[contains(@class, " ++ quoted "newDropDown" ++ ")]") in
  call (Click (Css parentDropdown ".icon-magnifying-glass") true) ;;
  call (WaitForTimeout 1500) ;;
  call (Fill resourceField "Dr ") ;;
  call (WaitForTimeout 1500) ;;
  call (Click
          (First (HasText (Css OnPage ".dropDownList.dropdown .dropDownListItem")
                    (RegExp "Dr" "i")))
          true) ;;
  call (WaitForTimeout 1000) ;;
  console_log "✅ People/Resources Used field filled".

(** The body of the test; [timestamp] is the value of [Date.now()]. *)
Definition appointmentCreationTest (timestamp : Z) : Script unit :=
  console_log "✅ Starting appointment creation test" ;;
  console_log "📝 Creating test client and patient..." ;;
  let clientName := mkContactName "Test" ("Owner" ++ string_of_number timestamp) in
  let animalName := "TestPet" ++ string_of_number timestamp in
  createCustomer clientName ;;
  call (WaitForTimeout 2000) ;;
  console_log ("📋 Clicking " ++ quoted "New Patient" ++ " button...") ;;
  call (Click (ByTestId OnPage "NewPatient") false) ;;
  call (WaitForTimeout 2000) ;;
  console_log "📝 Creating test patient in new tab..." ;;
  createAnimalWithOwner animalName (firstName clientName) (lastName clientName)
    None None ;;
  console_log "✅ Patient created successfully - verified by success toast" ;;
  console_log ("📅 Clicking " ++ quoted "New Appointment" ++ " button...") ;;
  call (Click (Nth (ByTestId OnPage "NewAppointment") 1) false) ;;
  call (WaitForTimeout 2000) ;;
  call (WaitForVisible (ByText OnPage (Str "Appointment Details") false) 5000) ;;
  console_log "✅ New appointment subtab opened" ;;
  selectResource ;;
  console_log "💾 Saving appointment..." ;;
  call (Click (Nth saveButton 2) false) ;;
  call (WaitForTimeout 2000) ;;
  console_log "✔️  Verifying appointment was created..." ;;
  errorToast <-
    try_catch
      (call (TextContent
               (First (Css OnPage
                         (".toast-error, [class*=" ++ quoted "toast" ++
                          "][class*=" ++ quoted "error" ++ "], [class*=" ++
                          quoted "Error" ++ "]")))
               3000))
      (fun _ => ret None) ;;
  (if truthy errorToast then
     console_log ("❌ ERROR! Appointment creation failed: " ++ template errorToast) ;;
     throw (Error ("Appointment creation failed: " ++ template errorToast))
   else ret tt) ;;
  successToast <-
    try_catch
      (call (TextContent
               (First (Css OnPage
                         (".toast-success, [class*=" ++ quoted "toast" ++
                          "][class*=" ++ quoted "success" ++ "], [class*=" ++
                          quoted "Success" ++ "]")))
               5000))
      (fun _ => ret None) ;;
  if truthy successToast then
    console_log ("✅✅ SUCCESS! Appointment created: " ++ template successToast)
  else
    console_log "⚠️  No success or error message found - appointment status unclear" ;;
    throw (Error
             "Unable to verify appointment creation - no success or error message displayed").

End Patients.

(* ================================================================== *)
(** ** Classifying commands *)

Definition TextPattern_eq_dec (a b : TextPattern) : {a = b} + {a <> b}.
Proof. decide equality; apply string_dec. Defined.

Definition Locator_eq_dec (a b : Locator) : {a = b} + {a <> b}.
Proof.
  decide equality;
    try apply string_dec; try apply TextPattern_eq_dec;
    try apply Bool.bool_dec; try apply Nat.eq_dec.
Defined.

Definition Locator_eqb (a b : Locator) : bool :=
  if Locator_eq_dec a b then true else false.

(** A click on a Save control, whatever its position among the Save
    controls of the page. *)
Definition is_save_click (c : Cmd) : bool :=
  match c with
  | Click l _ =>
      match l with
      | Nth l' _ => Locator_eqb l' saveButton
      | _ => Locator_eqb l saveButton
      end
  | _ => false
  end.

(** Typing into the form: a fill of any field but the sidebar search
    input, or keystrokes. *)
Definition is_form_fill (c : Cmd) : bool :=
  match c with
  | Fill l _ => negb (Locator_eqb l sidebarSearchInput)
  | PressSequentially _ _ _ => true
  | KeyboardType _ => true
  | KeyboardPress _ => true
  | _ => false
  end.

(** A click on one of the contact-type checkboxes. *)
Definition is_checkbox_click (c : Cmd) : bool :=
  match c with
  | Click (ByRole OnPage role _) _ => role =? "checkbox"
  | _ => false
  end.

(** The commands of a create path. *)
Definition creates (c : Cmd) : bool :=
  is_form_fill c || is_save_click c || is_checkbox_click c.

(** An existence probe of the filter list: [toHaveText] on its first item. *)
Definition is_result_probe (c : Cmd) : bool :=
  match c with
  | ExpectText l _ _ => Locator_eqb l firstFilterItem
  | _ => false
  end.

Definition is_text_content (c : Cmd) : bool :=
  match c with
  | TextContent _ _ => true
  | _ => false
  end.

Definition count_saves (l : list Cmd) : nat :=
  List.length (filter is_save_click l).

Definition is_field_input (c : Cmd) : bool :=
  match c with
  | Fill _ _ => true
  | PressSequentially _ _ _ => true
  | ExpectAttribute _ _ _ _ => true
  | _ => false
  end.

Definition ContactType_eq_dec (a b : ContactType) : {a = b} + {a <> b}.
Proof. decide equality. Defined.

Definition ContactType_eqb (a b : ContactType) : bool :=
  if ContactType_eq_dec a b then true else false.

(** The checkbox state after a click on the box of [t]. *)
Definition toggle (t : ContactType) (checked : ContactType -> bool)
    : ContactType -> bool :=
  fun u => if ContactType_eqb t u then negb (checked u) else checked u.

(** The contact types an argument of [createContact] asks for. *)
Definition requested (contactType : ContactType + list ContactType)
    : list ContactType :=
  match contactType with
  | inl t => [t]
  | inr l => l
  end.

(* ================================================================== *)
(** ** Regular expressions: the literal fragment

    [new RegExp(source, flags).test(text)] for sources made of literal
    characters, [.] and escaped syntax characters, with no flag or the
    flag [i].  [None] stands for a source outside this fragment.  Strings
    are sequences of one-unit characters. *)

Inductive Atom := Lit (c : ascii) | AnyChar.

Definition syntax_char (c : ascii) : bool :=
  existsb (Ascii.eqb c) (list_ascii_of_string "^$\.*+?()[]{}|").

Fixpoint compile (s : string) : option (list Atom) :=
  match s with
  | EmptyString => Some []
  | String "\" EmptyString => None
  | String "\" (String c r) =>
      if syntax_char c || Ascii.eqb c "/"
      then option_map (cons (Lit c)) (compile r)
      else None
  | String "." r => option_map (cons AnyChar) (compile r)
  | String c r =>
      if syntax_char c then None else option_map (cons (Lit c)) (compile r)
  end.

Definition line_terminator (c : ascii) : bool :=
  Ascii.eqb c "010" || Ascii.eqb c "013".

Definition atom_matches (ignoreCase : bool) (a : Atom) (c : ascii) : bool :=
  match a with
  | Lit x =>
      if ignoreCase then Ascii.eqb (lower_ascii x) (lower_ascii c)
      else Ascii.eqb x c
  | AnyChar => negb (line_terminator c)
  end.

(** The atoms match a prefix of the text. *)
Fixpoint match_here (ignoreCase : bool) (p : list Atom) (text : string) : bool :=
  match p, text with
  | [], _ => true
  | _ :: _, EmptyString => false
  | a :: p', String c r => atom_matches ignoreCase a c && match_here ignoreCase p' r
  end.

(** The atoms match somewhere in the text. *)
Fixpoint search (ignoreCase : bool) (p : list Atom) (text : string) : bool :=
  match_here ignoreCase p text ||
  match text with
  | EmptyString => false
  | String _ r => search ignoreCase p r
  end.

Definition regexp_test (source flags text : string) : option bool :=
  match compile source with
  | Some p =>
      if flags =? "" then Some (search false p text)
      else if flags =? "i" then Some (search true p text)
      else None
  | None => None
  end.

(** [text.includes(needle)]. *)
Fixpoint includes (needle text : string) : bool :=
  prefix needle text ||
  match text with
  | EmptyString => false
  | String _ r => includes needle r
  end.

(* ================================================================== *)
(** ** A simulated application

    A small browser with a server behind it: contacts and patients, a
    left pane that lists the records matching the search text, one open
    form, toasts, and a login with an optional location screen.  It
    answers the commands of the helpers and is used for concrete runs. *)

Module Sim.

Inductive Form := NoForm | ContactForm | PatientForm.
Inductive Listing := ContactList | PatientList.

(** What the server does with a save. *)
Inductive SaveMode := Accept | Reject (message : string) | Ignore.

Record Server := mkServer {
  contacts : list (ContactName * list ContactType);
  patients : list (string * string);       (* name, owner as listed *)
  save_mode : SaveMode;
  toasts_enabled : bool;
  location_screen : bool;
  failing_logins : nat                     (* login attempts still to fail *)
}.

Record Draft := mkDraft {
  form : Form;
  f_first : string;
  f_last : string;
  f_patient : string;
  f_owner : string;
  f_types : list ContactType
}.

Record State := mkState {
  server : Server;
  draft : Draft;
  logged_in : bool;
  heading_shown : bool;
  listing : Listing;
  query : string;
  toast_error : option string;
  toast_success : option string
}.

Definition TimeoutError (what : string) : JsError :=
  mkError "TimeoutError" ("Timeout exceeded waiting for " ++ what).

Definition contact_item (n : ContactName) : string :=
  "-  " ++ lastName n ++ ", " ++ firstName n.

Definition patient_item (p : string * string) : string :=
  quoted (fst p) ++ " " ++ snd p.

Definition contact_matches (q : string) (n : ContactName) : bool :=
  includes q (firstName n ++ " " ++ lastName n) ||
  includes q (lastName n ++ ", " ++ firstName n).

(** The items of [#filterlist]. *)
Definition pane (w : State) : list string :=
  match listing w with
  | ContactList =>
      map contact_item
        (filter (contact_matches (query w)) (map fst (contacts (server w))))
  | PatientList =>
      map patient_item
        (filter (fun p => includes (query w) (fst p)) (patients (server w)))
  end.

(** The texts of [.sidebar]: every record of the server. *)
Definition sidebar_items (w : State) : list string :=
  map contact_item (map fst (contacts (server w))) ++
  map patient_item (patients (server w)).

(** [hasText] / [getByText]: a string matches as a substring, whatever the
    case; a regular expression by [test]. *)
Definition has_text (t : TextPattern) (text : string) : option bool :=
  match t with
  | Str s => Some (includes (toLowerCase s) (toLowerCase text))
  | RegExp source flags => regexp_test source flags text
  end.

Definition expect_some (t : TextPattern) (items : list string) : Outcome unit :=
  match t with
  | RegExp source flags =>
      match regexp_test source flags "" with
      | None => Throws (mkError "SyntaxError" "Invalid regular expression")
      | Some _ =>
          if existsb (fun i => match has_text t i with Some b => b | None => false end)
               items
          then Returns tt
          else Throws (TimeoutError "a matching element")
      end
  | Str _ =>
      if existsb (fun i => match has_text t i with Some b => b | None => false end)
           items
      then Returns tt
      else Throws (TimeoutError "a matching element")
  end.

Definition set_draft (d : Draft) (w : State) : State :=
  mkState (server w) d (logged_in w) (heading_shown w) (listing w) (query w)
    (toast_error w) (toast_success w).

Definition set_query (q : string) (w : State) : State :=
  mkState (server w) (draft w) (logged_in w) (heading_shown w) (listing w) q
    (toast_error w) (toast_success w).

(** Opening a list: the pane shows it unfiltered, the form of the tab
    opens blank, toasts are gone. *)
Definition open_tab (l : Listing) (d : Draft) (w : State) : State :=
  mkState (server w) d (logged_in w) (heading_shown w) l "" None None.

Definition blank_contact : Draft := mkDraft ContactForm "" "" "" "" [Customer].
Definition blank_patient (owner : string) : Draft :=
  mkDraft PatientForm "" "" "" owner [].

Definition type_named (name : string) : option ContactType :=
  find (fun t => contact_type_text t =? name)
    [Customer; Supplier; Vet; Syndicate; StaffMember; Pharmacy].

Definition toggle_type (t : ContactType) (l : list ContactType)
    : list ContactType :=
  if existsb (ContactType_eqb t) l
  then filter (fun u => negb (ContactType_eqb t u)) l
  else l ++ [t].

Definition save (w : State) : Outcome unit * State :=
  match form (draft w) with
  | NoForm => (Throws (TimeoutError "Save"), w)
  | f =>
      let sv := server w in
      match save_mode sv with
      | Ignore => (Returns tt, w)
      | Reject msg =>
          (Returns tt,
           mkState sv (draft w) (logged_in w) (heading_shown w) (listing w)
             (query w) (Some msg) None)
      | Accept =>
          let d := draft w in
          let sv' :=
            match f with
            | PatientForm =>
                mkServer (contacts sv) (patients sv ++ [(f_patient d, f_owner d)])
                  (save_mode sv) (toasts_enabled sv) (location_screen sv)
                  (failing_logins sv)
            | _ =>
                mkServer
                  (contacts sv ++ [(mkContactName (f_first d) (f_last d), f_types d)])
                  (patients sv)
                  (save_mode sv) (toasts_enabled sv) (location_screen sv)
                  (failing_logins sv)
            end in
          (Returns tt,
           mkState sv' d (logged_in w) (heading_shown w) (listing w) (query w)
             None (if toasts_enabled sv then Some "Record saved" else None))
      end
  end.

Definition ownerDropdownIcon : Locator :=
  First (Css OnPage ("[id^=" ++ quoted "clientcontactDropdown" ++ "] .icon")).

Definition offered_location : string := "Master branch (Database)".

Definition press_login (w : State) : State :=
  let sv := server w in
  match failing_logins sv with
  | S n =>
      mkState
        (mkServer (contacts sv) (patients sv) (save_mode sv) (toasts_enabled sv)
           (location_screen sv) n)
        (draft w) false false (listing w) (query w) (toast_error w)
        (toast_success w)
  | O =>
      if location_screen sv
      then mkState sv (draft w) false true (listing w) (query w)
             (toast_error w) (toast_success w)
      else mkState sv (draft w) true false (listing w) (query w)
             (toast_error w) (toast_success w)
  end.

Definition last_contact_item (w : State) : string :=
  match rev (contacts (server w)) with
  | (n, _) :: _ => contact_item n
  | [] => ""
  end.

Definition click (l : Locator) (w : State) : Outcome unit * State :=
  match l with
  | ByRole OnPage role name =>
      if role =? "tab" then
        if name =? "primary-tab-icon-contacts"
        then (Returns tt, open_tab ContactList blank_contact w)
        else if name =? "primary-tab-icon-animals"
        then (Returns tt, open_tab PatientList (blank_patient "") w)
        else (Returns tt, w)
      else if role =? "checkbox" then
        match type_named name, form (draft w) with
        | Some t, ContactForm =>
            let d := draft w in
            (Returns tt,
             set_draft (mkDraft (form d) (f_first d) (f_last d) (f_patient d)
                          (f_owner d) (toggle_type t (f_types d))) w)
        | _, _ => (Throws (TimeoutError ("checkbox " ++ name)), w)
        end
      else (Returns tt, w)
  | Nth l' _ => if Locator_eqb l' saveButton then save w else (Returns tt, w)
  | First (HasText l' t) =>
      if Locator_eqb l' allFilterItems then
        match find (fun i => match has_text t i with Some b => b | None => false end)
                (pane w) with
        | Some item =>
            let d := draft w in
            (Returns tt,
             set_draft (mkDraft (form d) (f_first d) (f_last d) (f_patient d)
                          item (f_types d)) w)
        | None => (Throws (TimeoutError "the filtered item"), w)
        end
      else (Returns tt, w)
  | ByText OnPage (Str loc) false =>
      if heading_shown w &&
         includes (toLowerCase loc) (toLowerCase offered_location)
      then (Returns tt,
            mkState (server w) (draft w) true false (listing w) (query w)
              (toast_error w) (toast_success w))
      else (Throws (TimeoutError ("text " ++ loc)), w)
  | _ =>
      if Locator_eqb l saveButton then save w
      else if Locator_eqb l loginButton then (Returns tt, press_login w)
      else if Locator_eqb l ownerDropdownIcon
      then (Returns tt,
            mkState (server w) (draft w) (logged_in w) (heading_shown w)
              ContactList "" (toast_error w) (toast_success w))
      else if Locator_eqb l (First allFilterItems) then
        match pane w with
        | item :: _ =>
            let d := draft w in
            (Returns tt,
             set_draft (mkDraft (form d) (f_first d) (f_last d) (f_patient d)
                          item (f_types d)) w)
        | [] => (Throws (TimeoutError "the first item"), w)
        end
      else if Locator_eqb l (ByTestId OnPage "NewPatient")
      then (Returns tt,
            set_draft (blank_patient (last_contact_item w)) w)
      else (Returns tt, w)
  end.

Definition fill (l : Locator) (v : string) (w : State) : State :=
  let d := draft w in
  if Locator_eqb l sidebarSearchInput then set_query v w
  else if Locator_eqb l animalNameInput
  then set_draft (mkDraft (form d) (f_first d) (f_last d) v (f_owner d) (f_types d)) w
  else if Locator_eqb l (ByRole OnPage "textbox" "First Name")
  then set_draft (mkDraft (form d) v (f_last d) (f_patient d) (f_owner d) (f_types d)) w
  else if Locator_eqb l (ByRole OnPage "textbox" "Last Name")
  then set_draft (mkDraft (form d) (f_first d) v (f_patient d) (f_owner d) (f_types d)) w
  else w.

Definition url (w : State) : string :=
  if logged_in w then "/" else "/login.php".

Definition wait_for_visible (l : Locator) (w : State) : Outcome unit :=
  if Locator_eqb l locationHeading then
    if heading_shown w then Returns tt else Throws (TimeoutError "the heading")
  else
    match l with
    | ByText OnPage (Str loc) false =>
        if heading_shown w &&
           includes (toLowerCase loc) (toLowerCase offered_location)
        then Returns tt
        else Throws (TimeoutError ("text " ++ loc))
    | _ => Returns tt
    end.

Definition expect_visible (l : Locator) (w : State) : Outcome unit :=
  match l with
  | ByText (Css OnPage sel) t _ =>
      if sel =? ".sidebar" then expect_some t (sidebar_items w) else Returns tt
  | First (Css (Css OnPage sel) sub) =>
      if (sel =? "#filterlist") && (sub =? "li") then
        match pane w with
        | _ :: _ => Returns tt
        | [] => Throws (TimeoutError "a list item")
        end
      else Returns tt
  | _ => Returns tt
  end.

Definition expect_text (l : Locator) (t : TextPattern) (w : State) : Outcome unit :=
  if Locator_eqb l firstFilterItem then
    match pane w with
    | item :: _ => expect_some t [item]
    | [] => Throws (TimeoutError "the first item")
    end
  else Returns tt.

Definition is_visible (l : Locator) (w : State) : bool :=
  match l with
  | First (HasText l' t) =>
      Locator_eqb l' allFilterItems &&
      existsb (fun i => match has_text t i with Some b => b | None => false end)
        (pane w)
  | _ => false
  end.

Definition text_content (l : Locator) (w : State) : Outcome (option string) :=
  if Locator_eqb l errorToastLocator then
    match toast_error w with
    | Some s => Returns (Some s)
    | None => Throws (TimeoutError "the error toast")
    end
  else if Locator_eqb l successToastLocator then
    match toast_success w with
    | Some s => Returns (Some s)
    | None => Throws (TimeoutError "the success toast")
    end
  else Throws (TimeoutError "the element").

Definition perform (c : Cmd) (w : State) : Outcome (resp c) * State :=
  match c as c0 return Outcome (resp c0) * State with
  | Goto _ => (Returns tt, w)
  | Click l _ => click l w
  | Fill l v => (Returns tt, fill l v w)
  | Clear l => (Returns tt, fill l "" w)
  | Press _ _ => (Returns tt, w)
  | PressSequentially _ _ _ => (Returns tt, w)
  | KeyboardType _ => (Returns tt, w)
  | KeyboardPress _ => (Returns tt, w)
  | WaitForTimeout _ => (Returns tt, w)
  | WaitForVisible l _ => (wait_for_visible l w, w)
  | WaitForLoadState _ _ => (Returns tt, w)
  | WaitForURLWithout fragment _ =>
      (if includes fragment (url w) then Throws (TimeoutError "the URL")
       else Returns tt, w)
  | ExpectVisible l _ => (expect_visible l w, w)
  | ExpectText l t _ => (expect_text l t w, w)
  | ExpectAttribute _ _ _ _ => (Returns tt, w)
  | ExpectChecked _ => (Returns tt, w)
  | ExpectURL u =>
      (if u =? url w then Returns tt
       else Throws (mkError "Error" ("expected URL " ++ u)), w)
  | IsVisible l _ => (Returns (is_visible l w), w)
  | TextContent l _ => (text_content l w, w)
  | AllTextContents l =>
      (Returns (if Locator_eqb l allFilterItems then pane w else []), w)
  end.

Definition browser : Browser := mkBrowser State perform.

(** A server with one contact and one patient, accepting saves and
    showing toasts, and a page that is logged in. *)
Definition seeded : State :=
  mkState
    (mkServer
       [(mkContactName "Jane" "Doe", [Customer])]
       [("Bella", "-  Doe, Jane")]
       Accept true false 0)
    (mkDraft NoForm "" "" "" "" [])
    true false ContactList "" None None.

Definition with_server (f : Server -> Server) (w : State) : State :=
  mkState (f (server w)) (draft w) (logged_in w) (heading_shown w) (listing w)
    (query w) (toast_error w) (toast_success w).

Definition set_save_mode (m : SaveMode) (toasts : bool) : State -> State :=
  with_server (fun sv =>
    mkServer (contacts sv) (patients sv) m toasts (location_screen sv)
      (failing_logins sv)).

Definition set_login (screen : bool) (failures : nat) (w : State) : State :=
  let sv := server w in
  mkState
    (mkServer (contacts sv) (patients sv) (save_mode sv) (toasts_enabled sv)
       screen failures)
    (draft w) false false (listing w) (query w) (toast_error w)
    (toast_success w).

End Sim.

(* ================================================================== *)
(** ** Properties of runs *)

(** [J] relates the world a run starts in, its events and its final
    world, for every run of the script. *)
Definition respects {B : Browser} (J : World B -> list Event -> World B -> Prop)
    {A} (m : @Script B A) : Prop :=
  forall w, J w (events (m w)) (final (m w)).

(** Every command the script issues, from any world, satisfies [p]. *)
Definition only {B : Browser} (p : Cmd -> bool) {A} (m : @Script B A) : Prop :=
  respects (fun _ evs _ => Forall (fun e => p (ev_cmd e) = true) evs) m.

(** Among the events, a call of [c] resolved. *)
Definition succeeded (c : Cmd) (evs : list Event) : Prop :=
  exists e, In e evs /\ ev_cmd e = c /\ ev_ok e = true.

(** No run of the script issues more than [n] commands that satisfy [p]. *)
Definition at_most {B : Browser} (p : Cmd -> bool) (n : nat) {A}
    (m : @Script B A) : Prop :=
  forall w, (List.length (filter p (commands (m w))) <= n)%nat.

(** In the list, no command satisfying [q] comes before the first command
    satisfying [p]. *)
Fixpoint guarded (p q : Cmd -> bool) (l : list Cmd) : bool :=
  match l with
  | [] => true
  | c :: r => if p c then true else negb (q c) && guarded p q r
  end.

(** A call of one of the two resolve-or-create helpers. *)
Inductive Provision :=
| AContact (contactName : ContactName)
    (contactType : ContactType + list ContactType)
| AnAnimal (animalName ownerName : string) (age : option Z)
    (tags : option (list string)).

Definition provision {B : Browser} (x : Provision) : @Script B unit :=
  match x with
  | AContact n t => createContact n t
  | AnAnimal a o g t => createAnimal a o g t
  end.

(** The existence check of the resolve phase. *)
Definition resolveProbe (x : Provision) : Cmd :=
  match x with
  | AContact n _ =>
      ExpectText firstFilterItem
        (RegExp ("-  " ++ lastName n ++ ", " ++ firstName n) "") (Some 5000%Z)
  | AnAnimal a _ _ _ =>
      ExpectText firstFilterItem (RegExp (quoted a) "") (Some 5000%Z)
  end.

(** The commands of a call that resolves: navigation, the sidebar search
    and the existence check, nothing else. *)
Definition resolveCommands (x : Provision) : list Cmd :=
  match x with
  | AContact n _ =>
      [ Click (ByRole OnPage "tab" "primary-tab-icon-contacts") false;
        ExpectText (Css OnPage ".ezy\:bg-background-ui") (Str "Contacts") None;
        ExpectVisible
          (ByText (Css OnPage ".tabSliderHolder") (Str "New Contact") false)
          (Some 5000%Z);
        ExpectVisible (First (Css (Css OnPage "#filterlist") "li")) (Some 10000%Z);
        Clear sidebarSearchInput;
        Fill sidebarSearchInput (firstName n ++ " " ++ lastName n);
        Press sidebarSearchInput "Enter";
        resolveProbe x ]
  | AnAnimal a _ _ _ =>
      [ Click (ByRole OnPage "tab" "primary-tab-icon-animals") false;
        ExpectText (Css OnPage ".ezy\:bg-background-ui") (Str "Patients") None;
        ExpectVisible
          (ByText (Css OnPage ".tabSliderHolder") (Str "New Patient") false)
          (Some 5000%Z);
        ExpectVisible (First (Css (Css OnPage "#filterlist") "li")) (Some 10000%Z);
        Clear sidebarSearchInput;
        Fill sidebarSearchInput a;
        Press sidebarSearchInput "Enter";
        resolveProbe x ]
  end.

(* ================================================================== *)
(** ** Pattern of the existence check *)

Definition Cmd_eq_dec (a b : Cmd) : {a = b} + {a <> b}.
Proof.
  decide equality;
    try apply string_dec; try apply Locator_eq_dec;
    try apply TextPattern_eq_dec; try apply Bool.bool_dec;
    try apply Z.eq_dec;
    try (decide equality; apply Z.eq_dec).
Defined.

Definition Cmd_eqb (a b : Cmd) : bool :=
  if Cmd_eq_dec a b then true else false.

(** The command is no existence probe of the filter list, or it is the
    probe of [x]. *)
Definition probe_is (x : Provision) (c : Cmd) : bool :=
  negb (is_result_probe c) || Cmd_eqb c (resolveProbe x).

(** The pattern of the existence check in the words of the specification:
    for a contact the separator, the last name, a comma and a space, the
    first name; for a patient the name between double quotes. *)
Definition spec_pattern (x : Provision) : string :=
  match x with
  | AContact n _ => "-  " ++ lastName n ++ ", " ++ firstName n
  | AnAnimal a _ _ _ => dquote ++ a ++ dquote
  end.

(** No character of the string is a syntax character of regular
    expressions. *)
Fixpoint literal (s : string) : bool :=
  match s with
  | EmptyString => true
  | String c r => negb (syntax_char c) && literal r
  end.

Definition literal_key (x : Provision) : bool :=
  match x with
  | AContact n _ => literal (lastName n) && literal (firstName n)
  | AnAnimal a _ _ _ => literal a
  end.


(* ================================================================== *)
(** ** Contact types of the form *)

(** The checkbox state after clicks on the boxes of [ts], in order. *)
Definition toggles (ts : list ContactType) (checked : ContactType -> bool)
    : ContactType -> bool :=
  fold_left (fun ch t => toggle t ch) ts checked.

(** The commands of a form fill that went through. *)
Definition contactFillCommands (n : ContactName)
    (ty : ContactType + list ContactType) : list Cmd :=
  Click (checkbox Customer) false ::
  (map (fun t => Click (checkbox t) false) (requested ty) ++
   [ Fill (ByRole OnPage "textbox" "First Name") (firstName n);
     Fill (ByRole OnPage "textbox" "Last Name") (lastName n);
     Fill (Css OnPage
             ("[id=" ++ quoted "EmailPhone[1][emailphonedata_content]" ++ "]"))
       "test@test.com";
     PressSequentially
       (ByTestId (Css OnPage ".inputSectionContent") "EmailPhoneType") "Email" 50;
     ExpectAttribute
       (ByTestId (Css OnPage ".inputSectionContent") "EmailPhoneType") "title"
       (Str "Email") (Some 5000%Z) ])%list.

(** The checkboxes of the simulated contact form. *)
Definition Sim_checked (w : Sim.State) (u : ContactType) : bool :=
  existsb (ContactType_eqb u) (Sim.f_types (Sim.draft w)).

(** The simulated application with the contact form just opened. *)
Definition Sim_contact_form_open : Sim.State :=
  Sim.open_tab Sim.ContactList Sim.blank_contact Sim.seeded.


(* ================================================================== *)
(** ** Login *)

(** The element [selectLocation] clicks for a requested location. *)
Definition locationElement (location : option string) : Locator :=
  ByText OnPage (Str (or_default location "Master branch (Database)")) false.

(** Every pause the script makes lasts 2000 ms. *)
Definition pause_is_2000 (c : Cmd) : bool :=
  match c with
  | WaitForTimeout ms => (ms =? 2000)%Z
  | _ => true
  end.

(** The terminal error of the retry wrapper after [maxRetries] attempts
    whose last one threw [e]. *)
Definition loginFailure (maxRetries : Z) (e : JsError) : JsError :=
  Error ("Login failed after " ++ string_of_number maxRetries ++ " attempts: " ++
         err_message e).


(* ================================================================== *)
(** ** Dropdown selections *)

(** The item of the filter list that carries the owner name. *)
Definition matchingOwnerItem (ownerName : string) : Locator :=
  First (HasText allFilterItems (Str ownerName)).

(** The commands of an owner selection that went through and clicked
    [item]. *)
Definition ownerCommands (ownerName : string) (item : Locator) : list Cmd :=
  [ Click (First (Css OnPage ("[id^=" ++ quoted "clientcontactDropdown" ++ "] .icon")))
      true;
    WaitForTimeout 1500;
    Fill sidebarSearchInput ownerName;
    Press sidebarSearchInput "Enter";
    WaitForTimeout 1000;
    AllTextContents allFilterItems;
    IsVisible (matchingOwnerItem ownerName) 2000;
    Click item true;
    WaitForTimeout 2000 ].

(** The commands of a resource selection that went through. *)
Definition resourceCommands : list Cmd :=
  [ WaitForTimeout 2000;
    Click
      (Css (Css resourceField
              ("xpath=ancestor::div[contains(@class, " ++ quoted "newDropDown" ++ ")]"))
         ".icon-magnifying-glass")
      true;
    WaitForTimeout 1500;
    Fill resourceField "Dr ";
    WaitForTimeout 1500;
    Click
      (First (HasText (Css OnPage ".dropDownList.dropdown .dropDownListItem")
                (RegExp "Dr" "i")))
      true;
    WaitForTimeout 1000 ].

(** The simulated application with the patient form just opened. *)
Definition Sim_patient_form_open : Sim.State :=
  Sim.open_tab Sim.PatientList (Sim.blank_patient "") Sim.seeded.


(* ================================================================== *)
(** ** Patient creation: toasts after Save *)

(** [P] relates the events and the outcome of every run of the script. *)
Definition holds {B : Browser} {C} (P : list Event -> Outcome C -> Prop)
    (m : @Script B C) : Prop :=
  forall w, P (events (m w)) (outcome (m w)).

(** A call of one of the two patient creators. *)
Inductive PatientCall :=
| Standalone (animalName ownerName : string) (age : option Z)
    (tags : option (list string))
| FromContact (animalName ownerFirstName ownerLastName : string)
    (age : option Z) (tags : option (list string)).

Definition createPatient {B : Browser} (x : PatientCall) : @Script B unit :=
  match x with
  | Standalone a o g t => createAnimal a o g t
  | FromContact a f l g t => createAnimalWithOwner a f l g t
  end.

Definition errorProbe : Cmd := TextContent errorToastLocator 2000.
Definition successProbe : Cmd := TextContent successToastLocator 2000.

Definition is_error_probe (c : Cmd) : bool := Cmd_eqb c errorProbe.
Definition is_success_probe (c : Cmd) : bool := Cmd_eqb c successProbe.

(** The text a [textContent] call resolved to. *)
Definition ev_text (e : Event) : option string :=
  match e with
  | Ev (TextContent _ _) (Returns v) => v
  | _ => None
  end.

(** An error toast with the text [s] among the events makes the run throw
    the creation error with that text, and no success check is made. *)
Definition toast_fatal (s : string) (ev : list Event) (o : Outcome unit) : Prop :=
  In (Ev errorProbe (Returns (Some s))) ev ->
  o = Throws (Error ("Failed to create animal: " ++ s)) /\
  ~ In successProbe (map ev_cmd ev).

(** The first command of every run of the script is [c]. *)
Definition starts_with {B : Browser} {A} (c : Cmd) (m : @Script B A) : Prop :=
  forall w, exists r rest, events (m w) = Ev c r :: rest.

(** In the commands of the run, [q] does not come before [p]. *)
Definition in_order (p q : Cmd -> bool) (ev : list Event) (o : Outcome unit)
    : Prop :=
  guarded p q (map ev_cmd ev) = true.


(** The command reads no text. *)
Definition no_text (c : Cmd) : bool := negb (is_text_content c).

(** The command does not satisfy [q]. *)
Definition not_cmd (q : Cmd -> bool) (c : Cmd) : bool := negb (q c).

(* ================================================================== *)
(** ** Patient creation: the unknown outcome *)

(** The existence re-check of [createAnimal] after the toast checks. *)
Definition recheck (animalName : string) : Cmd :=
  ExpectVisible (ByText (Css OnPage ".sidebar") (RegExp animalName "") false)
    (Some 5000%Z).

(** Whether a [textContent] call resolved to a truthy text; a rejected
    call counts as null. *)
Definition answer_truthy (r : Outcome (option string)) : bool :=
  match r with
  | Returns v => truthy v
  | Throws _ => false
  end.

(** The answer of a [textContent] call. *)
Definition ev_answer (e : Event) : option (Outcome (option string)) :=
  match e with
  | Ev (TextContent _ _) r => Some r
  | _ => None
  end.

(** The event is a [textContent] call that resolved to a truthy text: a
    toast was seen. *)
Definition toast_seen (e : Event) : bool :=
  match ev_answer e with
  | Some r => answer_truthy r
  | None => false
  end.

(** When the success check found no toast, the run made the existence
    re-check and ends as the re-check does. *)
Definition unknown_rechecked (animalName : string) (ev : list Event)
    (o : Outcome unit) : Prop :=
  forall rs,
    In (Ev successProbe rs) ev -> answer_truthy rs = false ->
    exists rv,
      In (Ev (recheck animalName) rv) ev /\
      o = match rv with
          | Returns _ => Returns tt
          | Throws e => Throws e
          end.

(** A command that checks that something is shown. *)
Definition is_existence_check (c : Cmd) : bool :=
  match c with
  | ExpectVisible _ _ => true
  | ExpectText _ _ _ => true
  | IsVisible _ _ => true
  | WaitForVisible _ _ => true
  | _ => false
  end.

(** The simulated application with the patient form open and a server
    that drops every save without a toast. *)
Definition Sim_saves_dropped : Sim.State :=
  Sim.set_save_mode Sim.Ignore true Sim_patient_form_open.


(* ================================================================== *)
(** ** Patient creation from a contact *)

(** A command of a resolve phase: a click on a main tab, a use of the
    sidebar search input, or the check of the first result. *)
Definition is_resolve_cmd (c : Cmd) : bool :=
  is_result_probe c ||
  match c with
  | Click (ByRole OnPage role _) _ => role =? "tab"
  | Fill l _ => Locator_eqb l sidebarSearchInput
  | Clear l => Locator_eqb l sidebarSearchInput
  | Press l _ => Locator_eqb l sidebarSearchInput
  | _ => false
  end.

(** A run that returned normally clicked Save exactly once. *)
Definition saved_once (ev : list Event) (o : Outcome unit) : Prop :=
  o = Returns tt -> count_saves (map ev_cmd ev) = 1%nat.

(** The patients of the simulated server with the given name. *)
Definition Sim_patients_named (name : string) (w : Sim.State)
    : list (string * string) :=
  filter (fun p => fst p =? name) (Sim.patients (Sim.server w)).


(* ================================================================== *)
(** ** Owner selection: the fallback *)

(** The answer of an [isVisible] call. *)
Definition ev_visible (e : Event) : option (Outcome bool) :=
  match e with
  | Ev (IsVisible _ _) r => Some r
  | _ => None
  end.

(** A simulated server with two contacts whose first name is John, listed
    as Smithers before Smith. *)
Definition Sim_two_johns : Sim.State :=
  Sim.mkState
    (Sim.mkServer
       [(mkContactName "John" "Smithers", [Customer]);
        (mkContactName "John" "Smith", [Customer])]
       [("Bella", "-  Smithers, John")]
       Sim.Accept true false 0)
    (Sim.mkDraft Sim.NoForm "" "" "" "" [])
    true false Sim.ContactList "" None None.

(* ================================================================== *)
(** ** Patient creation: what the error-toast probe decides *)

(** The name of the patient a call creates. *)
Definition patientName (x : PatientCall) : string :=
  match x with
  | Standalone a _ _ _ => a
  | FromContact a _ _ _ _ => a
  end.

(** What the answer of the error-toast probe leads to.  A text that is
    not empty ends the run: it throws the creation error with that text
    and no success check is made.  Any other answer (the empty text, no
    text, a failed read) counts as no toast: the success check comes next,
    and the run returns or throws the error of the re-check of the
    patient [a]. *)
Definition error_answer_decides (a : string) (ev : list Event)
    (o : Outcome unit) : Prop :=
  forall r, In (Ev errorProbe r) ev ->
    if answer_truthy r then
      (exists s, r = Returns (Some s) /\ s <> "" /\
                 o = Throws (Error ("Failed to create animal: " ++ s))) /\
      ~ In successProbe (map ev_cmd ev)
    else
      (exists before rs after,
          ev = (before ++ Ev errorProbe r :: Ev successProbe rs :: after)%list) /\
      (o = Returns tt \/
       exists e, o = Throws e /\ In (Ev (recheck a) (Throws e)) ev).

(** The pause after Save. *)
Definition pauseAfterSave : Cmd := WaitForTimeout 3000.

(** Once the pause after Save resolved, the error-toast probe was made. *)
Definition probed_after_pause (ev : list Event) (o : Outcome unit) : Prop :=
  succeeded pauseAfterSave ev -> In errorProbe (map ev_cmd ev).

(* ================================================================== *)
(** ** The existence check on the simulated application *)

(** On the simulated application, the first item of the filter list
    contains the text. *)
Definition Sim_first_contains (text : string) (w : Sim.State) : bool :=
  match Sim.pane w with
  | item :: _ => includes text item
  | [] => false
  end.

(** The simulated application with the contact list open, unfiltered, on
    a server that has the given contacts. *)
Definition Sim_contacts_listed (names : list ContactName) : Sim.State :=
  Sim.mkState
    (Sim.mkServer (map (fun n => (n, [Customer])) names) [] Sim.Accept true
       false 0)
    Sim.blank_contact true false Sim.ContactList "" None None.

(** Whether a call of the command resolves in a world of the simulated
    application. *)
Definition Sim_resolves (c : Cmd) (w : Sim.State) : bool :=
  ev_ok (Ev c (fst (Sim.perform c w))).

(* ================================================================== *)
(** ** Two calls in succession on the simulated application *)

Definition is_nil {A} (l : list A) : bool :=
  match l with
  | [] => true
  | _ :: _ => false
  end.

(** The text a call searches the sidebar for. *)
Definition searchText (x : Provision) : string :=
  match x with
  | AContact n _ => firstName n ++ " " ++ lastName n
  | AnAnimal a _ _ _ => a
  end.

(** The simulated application is ready for a first call with the key:
    the server accepts saves, the list of the tab is not empty and shows
    no record for the search text; for a patient, the owner search lists
    a contact. *)
Definition Sim_fresh (x : Provision) (w : Sim.State) : bool :=
  let sv := Sim.server w in
  match Sim.save_mode sv with
  | Sim.Accept =>
      match x with
      | AContact n _ =>
          negb (is_nil (Sim.contacts sv)) &&
          is_nil (filter (Sim.contact_matches (searchText x))
                    (map fst (Sim.contacts sv)))
      | AnAnimal a o _ _ =>
          negb (is_nil (Sim.patients sv)) &&
          is_nil (filter (fun p => includes a (fst p)) (Sim.patients sv)) &&
          negb (is_nil (filter (Sim.contact_matches o)
                          (map fst (Sim.contacts sv))))
      end
  | _ => false
  end.

(** The records of the simulated server. *)
Definition Sim_records (w : Sim.State) : nat :=
  (List.length (Sim.contacts (Sim.server w)) +
   List.length (Sim.patients (Sim.server w)))%nat.


(* ================================================================== *)
(** ** Further properties: what a normal return guarantees *)

(** The positive check of the record after Save: the sidebar check of
    [createContact] (lines 104-112), the re-check of [createAnimal]
    (lines 123-127). *)
Definition confirmation (x : Provision) : Cmd :=
  match x with
  | AContact n _ =>
      ExpectVisible
        (ByText (Css OnPage ".sidebar")
           (RegExp (lastName n ++ ", " ++ firstName n) "") false)
        (Some 3000%Z)
  | AnAnimal a _ _ _ => recheck a
  end.

(** A run that returned normally saw the record: the existence check of
    the resolve phase succeeded, or the check after Save did, or a success
    toast with a text was read. *)
Definition confirmed_by (x : Provision) (ev : list Event) (o : Outcome unit)
    : Prop :=
  o = Returns tt ->
  succeeded (resolveProbe x) ev \/
  succeeded (confirmation x) ev \/
  exists s, s <> "" /\ In (Ev successProbe (Returns (Some s))) ev.


(** The first command of the create path. *)
Definition formStart (x : Provision) : Cmd :=
  match x with
  | AContact _ _ => Click (checkbox Customer) false
  | AnAnimal a _ _ _ => Fill animalNameInput a
  end.

(** A success toast with the text [s] among the events makes the run
    return normally, and reading it was the last thing the run did. *)
Definition toast_trusted (s : string) (ev : list Event) (o : Outcome unit)
    : Prop :=
  In (Ev successProbe (Returns (Some s))) ev ->
  o = Returns tt /\
  exists before, ev = (before ++ [Ev successProbe (Returns (Some s))])%list.

(* ================================================================== *)
(** ** Login from the environment *)

(** The variables of [process.env] the helpers read; an unset variable is
    [undefined]. *)
Record Env := mkEnv {
  TEST_USER_EMAIL : option string;
  TEST_USER_PASSWORD : option string;
  TEST_DEPARTMENT : option string
}.

(** [ezyVetLoginWithEnv] (ezyvet-auth-helpers.ts).  The test
    [!email || !password] holds of an unset variable and of the empty
    string. *)
Definition ezyVetLoginWithEnv {B : Browser} (env : Env) : @Script B unit :=
  let department := TEST_DEPARTMENT env in
  match TEST_USER_EMAIL env, TEST_USER_PASSWORD env with
  | Some email, Some password =>
      if (email =? "") || (password =? "") then
        throw (Error "TEST_USER_EMAIL and TEST_USER_PASSWORD must be set in .env file")
      else ezyVetLogin email password department
  | _, _ =>
      throw (Error "TEST_USER_EMAIL and TEST_USER_PASSWORD must be set in .env file")
  end.

(** The variable is unset or empty. *)
Definition missing (v : option string) : Prop := v = None \/ v = Some "".

(* ================================================================== *)
(** ** Login retry: attempts and pauses *)





(* ================================================================== *)
(** ** Contact types: clicks and parity *)

(** How many times the form fill clicks the box of [u]: once for the
    Customer box, first, and once for each time the type is requested. *)
Definition box_clicks (ty : ContactType + list ContactType) (u : ContactType)
    : nat :=
  count_occ ContactType_eq_dec (Customer :: requested ty) u.

(* ================================================================== *)
(** ** Tags of the patient form *)

(** The tag list of the patient form. *)
Definition tagField : Locator :=
  Css (ByText OnPage (Str "General") true) "xpath=following-sibling::*[2]//ul[1]".

(** The commands of a tag entry that went through: the click on the tag
    list, then each tag typed and entered, in the order given. *)
Definition tagCommands (tags : list string) : list Cmd :=
  Click tagField false ::
  flat_map (fun tag => [KeyboardType tag; KeyboardPress "Enter"]) tags.

(* ================================================================== *)
(** ** Main tabs *)

(** The other named helpers of tab-helpers.ts. *)
Definition navigateToDashboardTab {B : Browser} : @Script B unit :=
  navigateToTab Dashboard ;;
  call (ExpectVisible
          (ByText (Css OnPage ".tabSliderHolder") (Str "Dashboard") false)
          (Some 5000%Z)).

Definition navigateToFinancialTab {B : Browser} : @Script B unit :=
  navigateToTab Financial ;;
  call (ExpectVisible
          (ByText (Css OnPage ".tabSliderHolder") (Str "New Invoice") false)
          (Some 5000%Z)).

Definition navigateToAdminTab {B : Browser} : @Script B unit :=
  navigateToTab Admin ;;
  call (ExpectVisible
          (ByText (Css OnPage ".tabSliderHolder") (Str "New Product") false)
          (Some 5000%Z)).

(** The five named helpers. *)
Inductive TabHelper :=
| ToAnimals | ToDashboard | ToContacts | ToFinancial | ToAdmin.

Definition tabHelper {B : Browser} (h : TabHelper) : @Script B unit :=
  match h with
  | ToAnimals => navigateToAnimalsTab
  | ToDashboard => navigateToDashboardTab
  | ToContacts => navigateToContactsTab
  | ToFinancial => navigateToFinancialTab
  | ToAdmin => navigateToAdminTab
  end.

(** The click on the icon of a main tab. *)
Definition tabClick (icon : string) : Cmd :=
  Click (ByRole OnPage "tab" ("primary-tab-icon-" ++ icon)) false.

(** The check of the heading of the active tab. *)
Definition tabHeading (text : string) : Cmd :=
  ExpectText (Css OnPage ".ezy\:bg-background-ui") (Str text) None.

(** The check of a text in the tab slider. *)
Definition sliderShows (text : string) : Cmd :=
  ExpectVisible (ByText (Css OnPage ".tabSliderHolder") (Str text) false)
    (Some 5000%Z).

(** Every event is a call that resolved. *)
Definition all_ok (ev : list Event) : bool := forallb ev_ok ev.

(* ================================================================== *)
(** ** The tests *)

(** The [beforeEach] hook of both test files. *)
Definition beforeEach {B : Browser} (env : Env) : @Script B unit :=
  ezyVetLoginWithEnv env ;;
  call (WaitForTimeout 2000) ;;
  console_log "✅ Logged in and landed on dashboard".

(** The body of the test of patient-creation.spec.ts; [timestamp] is the
    value of [Date.now()]. *)
Definition patientCreationTest {B : Browser} (timestamp : Z) : @Script B unit :=
  console_log "✅ Starting patient creation test" ;;
  let clientName := mkContactName "Test" ("Owner" ++ string_of_number timestamp) in
  let animalName := "TestPet" ++ string_of_number timestamp in
  console_log "📝 Creating test client..." ;;
  createCustomer clientName ;;
  call (WaitForTimeout 2000) ;;
  console_log ("📋 Clicking " ++ quoted "New Patient" ++ " button...") ;;
  call (Click (ByTestId OnPage "NewPatient") false) ;;
  call (WaitForTimeout 2000) ;;
  console_log "📝 Creating test patient in new tab..." ;;
  createAnimalWithOwner animalName (firstName clientName) (lastName clientName)
    None None ;;
  console_log "✅ Patient creation test completed successfully!".

(** The two tests that create a patient under a new owner. *)
Inductive TestBody := PatientCreation | AppointmentCreation.

Definition testBody {B : Browser} (t : TestBody) (timestamp : Z)
    : @Script B unit :=
  match t with
  | PatientCreation => patientCreationTest timestamp
  | AppointmentCreation => appointmentCreationTest timestamp
  end.

(** The owner the tests create. *)
Definition testOwner (timestamp : Z) : Provision :=
  AContact (mkContactName "Test" ("Owner" ++ string_of_number timestamp))
    (inl Customer).

(** The toast checks of the appointment test. *)
Definition appointmentErrorProbe : Cmd :=
  TextContent
    (First (Css OnPage
              (".toast-error, [class*=" ++ quoted "toast" ++ "][class*=" ++
               quoted "error" ++ "], [class*=" ++ quoted "Error" ++ "]")))
    3000.

Definition appointmentSuccessProbe : Cmd :=
  TextContent
    (First (Css OnPage
              (".toast-success, [class*=" ++ quoted "toast" ++ "][class*=" ++
               quoted "success" ++ "], [class*=" ++ quoted "Success" ++ "]")))
    5000.

(** The command is no toast check of the appointment test. *)
Definition no_appointment_probe (c : Cmd) : bool :=
  negb (Cmd_eqb c appointmentErrorProbe) &&
  negb (Cmd_eqb c appointmentSuccessProbe).

(** A run that returned normally has events with the property [G]. *)
Definition returned_with {A} (G : list Event -> Prop) (ev : list Event)
    (o : Outcome A) : Prop :=
  (exists a, o = Returns a) -> G ev.

(** The owner was seen by the existence check or by the check after Save. *)
Definition owner_seen (x : Provision) (ev : list Event) : Prop :=
  succeeded (resolveProbe x) ev \/ succeeded (confirmation x) ev.

(** A page on which every call resolves.  Its two toasts are fixed in
    advance and show once the Save button of the appointment form, the
    third on the page, was clicked. *)
Module Toasts.

Record Page := mkPage {
  error_toast : option string;
  success_toast : option string;
  appointment_saved : bool
}.

Definition perform (c : Cmd) (w : Page) : Outcome (resp c) * Page :=
  match c with
  | IsVisible _ _ => (Returns true, w)
  | TextContent (First (Css OnPage selector)) _ =>
      (Returns (if negb (appointment_saved w) then None
                else if prefix ".toast-error" selector then error_toast w
                else if prefix ".toast-success" selector then success_toast w
                else None),
       w)
  | TextContent _ _ => (Returns None, w)
  | AllTextContents _ => (Returns [], w)
  | Click (Nth _ 2) _ =>
      (Returns tt, mkPage (error_toast w) (success_toast w) true)
  | Goto _ | Click _ _ | Fill _ _ | Clear _ | Press _ _
  | PressSequentially _ _ _ | KeyboardType _ | KeyboardPress _
  | WaitForTimeout _ | WaitForVisible _ _ | WaitForLoadState _ _
  | WaitForURLWithout _ _ | ExpectVisible _ _ | ExpectText _ _ _
  | ExpectAttribute _ _ _ _ | ExpectChecked _ | ExpectURL _ =>
      (Returns tt, w)
  end.

Definition browser : Browser := mkBrowser Page perform.

(** The page before any click, with the toasts it will show. *)
Definition page (error success : option string) : Page :=
  mkPage error success false.

End Toasts.

(** The verdict of the appointment test on the toasts it read.  An error
    toast with a text makes it throw with that text, and the success toast
    is then not looked for.  The answer of the success check decides the
    rest: a text ends the run, which returns; no text, or a failed read,
    makes it throw.  So a run that returned has read a success toast with
    a text. *)
Definition appointment_verdict (ev : list Event) (o : Outcome unit) : Prop :=
  (forall s, s <> "" ->
     In (Ev appointmentErrorProbe (Returns (Some s))) ev ->
     o = Throws (Error ("Appointment creation failed: " ++ s)) /\
     ~ In appointmentSuccessProbe (map ev_cmd ev)) /\
  (forall r, In (Ev appointmentSuccessProbe r) ev ->
     if answer_truthy r then
       o = Returns tt /\
       exists before, ev = (before ++ [Ev appointmentSuccessProbe r])%list
     else
       o = Throws
             (Error
                "Unable to verify appointment creation - no success or error message displayed")) /\
  (o = Returns tt ->
   exists s, s <> "" /\ In (Ev appointmentSuccessProbe (Returns (Some s))) ev).

(* ================================================================== *)
(** ** Failed calls *)

(** The error a call of the event rejected with. *)
Definition ev_error (e : Event) : option JsError :=
  match e with
  | Ev _ (Throws x) => Some x
  | Ev _ (Returns _) => None
  end.

(** The error a run threw. *)
Definition thrown {A} (o : Outcome A) : option JsError :=
  match o with
  | Throws x => Some x
  | Returns _ => None
  end.

(** The probes whose failure the helpers catch: the existence check of a
    resolve phase, a visibility probe, the read of a toast, the wait for
    the location heading and the wait for the network to settle. *)
Definition tolerated (c : Cmd) : bool :=
  match c with
  | ExpectText l _ _ => Locator_eqb l firstFilterItem
  | IsVisible _ _ => true
  | TextContent _ _ => true
  | WaitForVisible l _ => Locator_eqb l locationHeading
  | WaitForLoadState _ _ => true
  | _ => false
  end.

(** Every failed call among the events is one of the probes [p], or it is
    the last call and the run threw its error. *)
Fixpoint fails_fast (p : Cmd -> bool) (t : option JsError) (ev : list Event)
    : Prop :=
  match ev with
  | [] => True
  | e :: rest =>
      (ev_error e = None \/ p (ev_cmd e) = true \/
       (rest = [] /\ t = ev_error e)) /\
      fails_fast p t rest
  end.

(** No run of the script survives a failed call other than a probe [p]. *)
Definition strict {B : Browser} (p : Cmd -> bool) {A} (m : @Script B A) : Prop :=
  forall w, fails_fast p (thrown (outcome (m w))) (events (m w)).

(** The helpers and tests that do not retry. *)
Inductive Routine :=
| Provide (x : Provision)
| Patient (x : PatientCall)
| OwnerSelection (ownerName : string)
| ResourceSelection
| TabNavigation (h : TabHelper)
| Login (email password : string) (department : option string)
| Hook (env : Env)
| TestRun (t : TestBody) (timestamp : Z).

Definition routine {B : Browser} (r : Routine) : @Script B unit :=
  match r with
  | Provide x => provision x
  | Patient x => createPatient x
  | OwnerSelection ownerName => selectOwner ownerName
  | ResourceSelection => selectResource
  | TabNavigation h => tabHelper h
  | Login email password department => ezyVetLogin email password department
  | Hook env => beforeEach env
  | TestRun t timestamp => testBody t timestamp
  end.

(* ================================================================== *)
(** ** Names of the test records *)

From Stdlib Require DecimalZ.

(** Every command the script issues, from any world, has the property
    [Q]. *)
Definition every {B : Browser} (Q : Cmd -> Prop) {A} (m : @Script B A) : Prop :=
  respects (fun _ evs _ => Forall (fun e => Q (ev_cmd e)) evs) m.

(** A fill of the sidebar search input carries the owner name of the
    timestamp, a fill of the name field of the patient form the patient
    name of the timestamp. *)
Definition named_after (timestamp : Z) (c : Cmd) : Prop :=
  match c with
  | Fill l v =>
      (l = sidebarSearchInput ->
       v = "Test Owner" ++ string_of_number timestamp) /\
      (l = animalNameInput -> v = "TestPet" ++ string_of_number timestamp)
  | _ => True
  end.

(* ================================================================== *)
(** ** Patient creation from a contact: what the console says *)

(** [P] relates the events, the console lines and the outcome of every
    run of the script. *)
Definition told {B : Browser} {C}
    (P : list Event -> list string -> Outcome C -> Prop) (m : @Script B C)
    : Prop :=
  forall w, P (events (m w)) (logs (m w)) (outcome (m w)).

(** The line that reports a patient as created. *)
Definition createdLine (animalName : string) : string :=
  "✅ Animal " ++ quoted animalName ++ " created successfully.".

(** Once the success check was made, whatever it answered, the run
    returned normally and its last console line reports the patient as
    created. *)
Definition reported_created (animalName : string) (ev : list Event)
    (lg : list string) (o : Outcome unit) : Prop :=
  forall r, In (Ev successProbe r) ev ->
            o = Returns tt /\ last lg "" = createdLine animalName.

(** The line of the appointment test after the patient was created. *)
Definition verifiedLine : string :=
  "✅ Patient created successfully - verified by success toast".

(** Once the success check of the patient form was made, whatever it
    answered, the console has the line [verifiedLine]. *)
Definition reported_verified (ev : list Event) (lg : list string)
    (o : Outcome unit) : Prop :=
  forall r, In (Ev successProbe r) ev -> In verifiedLine lg.

(* ================================================================== *)
(** ** Save clicks *)

(** The forms a routine saves: one for a creator of a contact or of a
    patient, two for the patient test, three for the appointment test,
    none otherwise. *)
Definition formsSaved (r : Routine) : nat :=
  match r with
  | Provide _ => 1
  | Patient _ => 1
  | TestRun PatientCreation _ => 2
  | TestRun AppointmentCreation _ => 3
  | OwnerSelection _ | ResourceSelection | TabNavigation _
  | Login _ _ _ | Hook _ => 0
  end.

(* ================================================================== *)
(** ** Numbers in messages *)

(** [Number.isSafeInteger]: the integers that a JS number holds exactly;
    a template literal prints them digit by digit. *)
Definition isSafeInteger (z : Z) : bool :=
  ((- 2 ^ 53 <? z) && (z <? 2 ^ 53))%Z.

(* ================================================================== *)
(** ** Reasoning about runs *)

Section Respects.

Context {B : Browser}.
Variable J : World B -> list Event -> World B -> Prop.
Hypothesis J_refl : forall w, J w [] w.
Hypothesis J_trans : forall w1 e1 w2 e2 w3,
  J w1 e1 w2 -> J w2 e2 w3 -> J w1 (e1 ++ e2) w3.

Lemma respects_ret {A} (a : A) : respects J (ret a).
Proof. intros w. apply J_refl. Qed.

Lemma respects_throw {A} e : respects J (@throw B A e).
Proof. intros w. apply J_refl. Qed.

Lemma respects_log msg : respects J (console_log msg).
Proof. intros w. apply J_refl. Qed.

Lemma respects_call c :
  (forall w, J w [Ev c (fst (perform B c w))] (snd (perform B c w))) ->
  respects J (call c).
Proof.
  intros H w. unfold call. specialize (H w).
  destruct (perform B c w) as [r w1]. exact H.
Qed.

Lemma respects_bind {A C} (m : @Script B A) (k : A -> @Script B C) :
  respects J m -> (forall a, respects J (k a)) -> respects J (bind m k).
Proof.
  intros Hm Hk w. unfold bind. specialize (Hm w).
  destruct (m w) as [[a|e] w1 ev1 lg1]; cbn in *.
  - specialize (Hk a w1). destruct (k a w1) as [o w2 ev2 lg2]; cbn in *.
    eapply J_trans; eassumption.
  - assumption.
Qed.

Lemma respects_try_catch {A} (m : @Script B A) h :
  respects J m -> (forall e, respects J (h e)) -> respects J (try_catch m h).
Proof.
  intros Hm Hh w. unfold try_catch. specialize (Hm w).
  destruct (m w) as [[a|e] w1 ev1 lg1]; cbn in *.
  - assumption.
  - specialize (Hh e w1). destruct (h e w1) as [o w2 ev2 lg2]; cbn in *.
    eapply J_trans; eassumption.
Qed.

Lemma respects_forEach {T} (l : list T) (body : T -> @Script B unit) :
  (forall x, respects J (body x)) -> respects J (forEach l body).
Proof.
  intros Hb. induction l as [|x r IH]; cbn [forEach].
  - apply respects_ret.
  - apply respects_bind; [apply Hb | intros _; exact IH].
Qed.

End Respects.

Section Only.

Context {B : Browser}.
Variable p : Cmd -> bool.

#[local] Abbreviation all_p :=
  (fun (_ : World B) (evs : list Event) (_ : World B) =>
     Forall (fun e => p (ev_cmd e) = true) evs).

Lemma all_p_refl : forall w, all_p w [] w.
Proof. intros w. constructor. Qed.

Lemma all_p_trans : forall w1 e1 w2 e2 w3,
  all_p w1 e1 w2 -> all_p w2 e2 w3 -> all_p w1 (e1 ++ e2)%list w3.
Proof. intros. apply Forall_app. split; assumption. Qed.

Lemma only_ret {A} (a : A) : only p (@ret B A a).
Proof. apply (respects_ret all_p all_p_refl). Qed.

Lemma only_throw {A} e : only p (@throw B A e).
Proof. apply (respects_throw all_p all_p_refl). Qed.

Lemma only_log msg : only p (@console_log B msg).
Proof. apply (respects_log all_p all_p_refl). Qed.

Lemma only_call c : p c = true -> only p (@call B c).
Proof.
  intros H. apply (respects_call all_p). intros w.
  constructor; [exact H | constructor].
Qed.

Lemma only_bind {A C} (m : @Script B A) (k : A -> @Script B C) :
  only p m -> (forall a, only p (k a)) -> only p (bind m k).
Proof. apply (respects_bind all_p all_p_trans). Qed.

Lemma only_try_catch {A} (m : @Script B A) h :
  only p m -> (forall e, only p (h e)) -> only p (try_catch m h).
Proof. apply (respects_try_catch all_p all_p_trans). Qed.

Lemma only_forEach {T} (l : list T) (body : T -> @Script B unit) :
  (forall x, only p (body x)) -> only p (forEach l body).
Proof. apply (respects_forEach all_p all_p_refl all_p_trans). Qed.

(** A command that does not satisfy [p] is none of the events. *)
Lemma only_not_in {A} (m : @Script B A) w e :
  only p m -> p (ev_cmd e) = false -> ~ In e (events (m w)).
Proof.
  intros Hm He Hin. specialize (Hm w). cbv beta in Hm.
  rewrite Forall_forall in Hm. specialize (Hm e Hin). congruence.
Qed.

End Only.

Create HintDb scripts.
#[global] Hint Unfold searchInSidebar searchResultAppears selectSearchItem
  useSearchInput navigateToTab navigateToAnimalsTab navigateToContactsTab
  contactFormFill contactForm createContact createCustomer selectOwner
  fillAge fillTags checkToasts animalForm createAnimal createAnimalWithOwner
  goto selectLocation login expectLoginSuccess ezyVetLogin selectResource
  : scripts.

(** Proves [only p m] for a script built from calls, sequences, branches
    and loops: each call is checked by evaluation of [p]. *)
Ltac solve_only :=
  repeat first
    [ apply only_ret | apply only_throw | apply only_log
    | match goal with
      | |- only ?p (call ?c) => apply (only_call p c); reflexivity
      end
    | apply only_bind | apply only_try_catch | apply only_forEach
    | match goal with
      | |- only _ (match ?x with _ => _ end) => destruct x
      | |- only _ (if ?x then _ else _) => destruct x
      end
    | lazymatch goal with
      | |- only _ _ => fail
      | |- _ => intro
      end
    | progress cbv beta
    | progress autounfold with scripts ].

(** Symbolic execution of a run that stands in hypothesis [H]: [run]
    reduces the script combinators, [step] asks the browser for the answer
    to the next call. *)
Arguments bind {B A C} m k _ /.
Arguments try_catch {B A} m h _ /.
Arguments call {B} c _ /.
Arguments ret {B A} a _ /.
Arguments throw {B A} e _ /.
Arguments console_log {B} msg _ /.

Ltac run H :=
  cbn [bind try_catch call ret throw console_log app] in H.

Ltac step H :=
  match type of H with
  | context [perform ?B ?c ?w] =>
      let o := fresh "o" in
      let w' := fresh "w" in
      let E := fresh "E" in
      destruct (perform B c w) as [o w'] eqn:E; destruct o; run H
  end.

Section AtMost.
Context {B : Browser}.
Variable p : Cmd -> bool.

Lemma at_most_only {A} (m : @Script B A) n :
  only (fun c => negb (p c)) m -> at_most p n m.
Proof.
  intros H w. specialize (H w). cbv beta in H. unfold commands.
  induction H as [|e l He _ IH]; cbn; [lia|].
  destruct (p (ev_cmd e)); [discriminate | exact IH].
Qed.

Lemma at_most_call c : at_most p 1 (@call B c).
Proof.
  intros w. unfold call, commands. destruct (perform B c w) as [r w1]. cbn.
  destruct (p c); cbn; lia.
Qed.

Lemma at_most_after {A C} (m : @Script B A) (k : A -> @Script B C) n :
  only (fun c => negb (p c)) m -> (forall a, at_most p n (k a)) ->
  at_most p n (bind m k).
Proof.
  intros Hm Hk w. pose proof (at_most_only m 0 Hm w) as H0.
  unfold bind, commands in *.
  destruct (m w) as [[a|e] w1 ev1 lg1]; cbn in *; [|lia].
  specialize (Hk a w1). unfold commands in Hk.
  destruct (k a w1) as [o w2 ev2 lg2]; cbn in *.
  rewrite map_app, filter_app, length_app. lia.
Qed.

Lemma at_most_before {A C} (m : @Script B A) (k : A -> @Script B C) n :
  at_most p n m -> (forall a, only (fun c => negb (p c)) (k a)) ->
  at_most p n (bind m k).
Proof.
  intros Hm Hk w. specialize (Hm w). unfold bind, commands in *.
  destruct (m w) as [[a|e] w1 ev1 lg1]; cbn in *; [|lia].
  pose proof (at_most_only (k a) 0 (Hk a) w1) as H0. unfold commands in H0.
  destruct (k a w1) as [o w2 ev2 lg2]; cbn in *.
  rewrite map_app, filter_app, length_app. lia.
Qed.

End AtMost.

Lemma contactForm_no_probe {B : Browser} n t :
  only (fun c => negb (is_result_probe c)) (@contactForm B n t).
Proof. unfold contactForm, contactFormFill, useSearchInput. solve_only. Qed.

Lemma animalForm_no_probe {B : Browser} a o g t :
  only (fun c => negb (is_result_probe c)) (@animalForm B a o g t).
Proof.
  unfold animalForm, useSearchInput, fillAge, fillTags, checkToasts.
  solve_only.
Qed.

Lemma contactForm_saves_once {B : Browser} n t :
  at_most is_save_click 1 (@contactForm B n t).
Proof.
  unfold contactForm. apply at_most_after.
  - unfold contactFormFill, useSearchInput. solve_only.
  - intros _. apply at_most_before; [apply at_most_call | solve_only].
Qed.

Lemma animalForm_saves_once {B : Browser} a o g t :
  at_most is_save_click 1 (@animalForm B a o g t).
Proof.
  unfold animalForm.
  repeat (apply at_most_after; [solve [solve_only] | intros _]).
  apply at_most_before; [apply at_most_call | solve_only].
Qed.

Lemma provision_saves_once {B : Browser} x :
  at_most is_save_click 1 (@provision B x).
Proof.
  destruct x as [n t | a o g t]; cbn [provision].
  - unfold createContact.
    repeat (apply at_most_after; [solve [solve_only] | intros ?]).
    match goal with |- context [match ?c with Normal => _ | Return => _ end] =>
      destruct c end.
    + apply contactForm_saves_once.
    + apply at_most_only. solve_only.
  - unfold createAnimal.
    repeat (apply at_most_after; [solve [solve_only] | intros ?]).
    match goal with |- context [match ?c with Normal => _ | Return => _ end] =>
      destruct c end.
    + apply animalForm_saves_once.
    + apply at_most_only. solve_only.
Qed.


(** Closes a goal whose hypothesis [H] says that a call of a command
    resolved among events that do not hold it: events listed one by one,
    then possibly a list known by a hypothesis not to hold it. *)
Ltac not_among H :=
  let e := fresh "e" in
  let Hin := fresh "Hin" in
  let Hc := fresh "Hc" in
  let Hok := fresh "Hok" in
  exfalso;
  destruct H as (e & Hin & Hc & Hok);
  cbn [events In] in Hin;
  repeat match type of Hin with
         | _ \/ _ => destruct Hin as [Hin|Hin]
         | False => destruct Hin
         | _ = _ => subst e; cbn [ev_cmd ev_ok] in Hc, Hok;
                    first [discriminate Hok | discriminate Hc]
         | In _ ?l =>
             match goal with
             | N : ~ succeeded _ l |- _ =>
                 exact (N (ex_intro _ e (conj Hin (conj Hc Hok))))
             end
         end.

Lemma only_not_succeeded {B : Browser} p {A} (m : @Script B A) w c :
  only p m -> p c = false -> ~ succeeded c (events (m w)).
Proof.
  intros Hm Hc (e & Hin & He & _). subst c.
  exact (only_not_in p m w e Hm Hc Hin).
Qed.

Lemma resolve_hit_returns {B : Browser} (x : Provision) (w : World B) :
  succeeded (resolveProbe x) (events (provision x w)) ->
  outcome (provision x w) = Returns tt /\
  commands (provision x w) = resolveCommands x.
Proof.
  intros H. remember (provision x w) as R' eqn:E.
  destruct x as [n t | a o g t]; cbn [provision] in E.
  - unfold createContact, navigateToContactsTab, navigateToTab,
      searchInSidebar, searchResultAppears in E.
    run E.
    do 7 (step E; [| subst R'; not_among H]).
    step E.
    + subst R'. split; reflexivity.
    + pose proof (only_not_succeeded _ (contactForm n t) w7
                    (resolveProbe (AContact n t)) (contactForm_no_probe n t)
                    eq_refl) as N.
      destruct (contactForm n t w7) as [o1 w8 ev lg]. subst R'.
      cbn [events] in H, N. not_among H.
  - unfold createAnimal, navigateToAnimalsTab, navigateToTab,
      searchInSidebar, searchResultAppears in E.
    run E.
    do 7 (step E; [| subst R'; not_among H]).
    step E.
    + subst R'. split; reflexivity.
    + pose proof (only_not_succeeded _ (animalForm a o g t) w7
                    (resolveProbe (AnAnimal a o g t))
                    (animalForm_no_probe a o g t) eq_refl) as N.
      destruct (animalForm a o g t w7) as [o1 w8 ev lg]. subst R'.
      cbn [events] in H, N. not_among H.
Qed.

Lemma resolveCommands_no_save x :
  filter is_save_click (resolveCommands x) = [].
Proof. destruct x; reflexivity. Qed.


(* ================================================================== *)
(** ** The pattern of the existence check *)

Lemma Cmd_eqb_refl c : Cmd_eqb c c = true.
Proof. unfold Cmd_eqb. destruct (Cmd_eq_dec c c); congruence. Qed.

Lemma literal_app s1 s2 : literal (s1 ++ s2) = literal s1 && literal s2.
Proof.
  induction s1 as [|c r IH]; cbn; [reflexivity|].
  rewrite IH. apply andb_assoc.
Qed.

Lemma compile_literal s :
  literal s = true -> compile s = Some (map Lit (list_ascii_of_string s)).
Proof.
  induction s as [|c r IH]; [reflexivity|].
  cbn [literal]. intros H. apply andb_prop in H. destruct H as [Hc Hr].
  specialize (IH Hr).
  destruct c as [[] [] [] [] [] [] [] []];
    try discriminate Hc;
    cbn [compile list_ascii_of_string map]; cbn in Hc |- *; rewrite IH; reflexivity.
Qed.

Lemma match_here_literal s text :
  match_here false (map Lit (list_ascii_of_string s)) text = prefix s text.
Proof.
  revert text. induction s as [|c r IH]; intros text.
  - destruct text; reflexivity.
  - destruct text as [|d t]; [reflexivity|].
    cbn [list_ascii_of_string map match_here prefix atom_matches].
    rewrite IH.
    destruct (Ascii.eqb_spec c d) as [->|Hne].
    + destruct (ascii_dec d d); [reflexivity | congruence].
    + destruct (ascii_dec c d); [congruence | reflexivity].
Qed.

Lemma search_literal s text :
  search false (map Lit (list_ascii_of_string s)) text = includes s text.
Proof.
  induction text as [|d t IH]; cbn [search includes];
    rewrite match_here_literal; [reflexivity|].
  rewrite IH. reflexivity.
Qed.

Lemma regexp_test_literal s text :
  literal s = true -> regexp_test s "" text = Some (includes s text).
Proof.
  intros H. unfold regexp_test. rewrite (compile_literal s H).
  cbn. rewrite search_literal. reflexivity.
Qed.

Lemma provision_probe_is {B : Browser} x :
  only (probe_is x) (@provision B x).
Proof.
  destruct x as [n t | a o g t]; cbn [provision].
  - solve_only.
    all: match goal with |- only ?p (call ?c) => apply (only_call p c) end;
      unfold probe_is; cbn [resolveProbe]; rewrite Cmd_eqb_refl; apply orb_true_r.
  - solve_only.
    all: match goal with |- only ?p (call ?c) => apply (only_call p c) end;
      unfold probe_is; cbn [resolveProbe]; rewrite Cmd_eqb_refl; apply orb_true_r.
Qed.

Lemma literal_pattern x : literal_key x = true -> literal (spec_pattern x) = true.
Proof.
  intros Hlit. destruct x as [n t | a o g t]; cbn [spec_pattern literal_key] in *.
  - apply andb_prop in Hlit. destruct Hlit as [Hl Hf].
    rewrite !literal_app, Hl, Hf. reflexivity.
  - unfold dquote. rewrite !literal_app, Hlit. reflexivity.
Qed.

(** The existence check on the simulated application, for a pattern free
    of syntax characters: it resolves when, and only when, the first item
    of the list contains the text. *)
Lemma Sim_probe_literal x (w : Sim.State) :
  literal_key x = true ->
  Sim_resolves (resolveProbe x) w = Sim_first_contains (spec_pattern x) w.
Proof.
  intros Hlit. pose proof (literal_pattern x Hlit) as Hp.
  unfold Sim_resolves, Sim_first_contains.
  destruct x as [n t | a o g t]; cbn [resolveProbe Sim.perform fst spec_pattern] in *.
  all: unfold Sim.expect_text;
    change (Locator_eqb firstFilterItem firstFilterItem) with true; cbv iota;
    destruct (Sim.pane w) as [|item rest]; [reflexivity|];
    unfold Sim.expect_some, quoted in *;
    rewrite (regexp_test_literal _ "" Hp);
    cbn [existsb Sim.has_text]; rewrite (regexp_test_literal _ item Hp);
    rewrite orb_false_r;
    match goal with |- context [includes ?s ?t] => destruct (includes s t) end;
    reflexivity.
Qed.

Ltac cut_at k := exists k; eexists; split; [lia | split; reflexivity].

(** The commands of a run are a front part of the commands of the resolve
    phase, cut at a call that threw, or begin with all of them: when the
    search went through, the check is made. *)
Lemma provision_checks {B : Browser} x (w : World B) :
  let R := provision x w in
  (exists rest, commands R = (resolveCommands x ++ rest)%list) \/
  (exists k e, (k < 7)%nat /\
               commands R = firstn (S k) (resolveCommands x) /\
               outcome R = Throws e).
Proof.
  destruct x as [n t | a o g t]; cbn [provision resolveCommands resolveProbe];
    unfold createContact, createAnimal, navigateToContactsTab,
      navigateToAnimalsTab, navigateToTab, searchInSidebar, searchResultAppears,
      commands.
  all: cbn [bind try_catch call ret console_log app].
  all: do 7 (match goal with
             | |- context [perform ?B0 ?c ?w0] =>
                 destruct (perform B0 c w0) as [[[]|?] ?];
                 cbn [bind try_catch call ret console_log app events outcome
                        map ev_cmd]
             end;
             [| right;
                first [ cut_at 0%nat | cut_at 1%nat | cut_at 2%nat | cut_at 3%nat
                      | cut_at 4%nat | cut_at 5%nat | cut_at 6%nat ] ]).
  all: left.
  all: match goal with
       | |- context [perform ?B0 ?c ?w0] =>
           destruct (perform B0 c w0) as [[[]|?] ?];
           cbn [bind try_catch call ret console_log app events outcome
                  map ev_cmd]
       end.
  all: try (exists []; reflexivity).
  all: match goal with
       | |- context [contactForm ?n0 ?t0 ?w0] =>
           let o' := fresh "o" in
           let w' := fresh "w" in
           let ev' := fresh "ev" in
           let lg' := fresh "lg" in
           destruct (contactForm n0 t0 w0) as [o' w' ev' lg']
       | |- context [animalForm ?a0 ?o0 ?g0 ?t0 ?w0] =>
           let o' := fresh "o" in
           let w' := fresh "w" in
           let ev' := fresh "ev" in
           let lg' := fresh "lg" in
           destruct (animalForm a0 o0 g0 t0 w0) as [o' w' ev' lg']
       end;
    cbn [events map ev_cmd app]; eexists; reflexivity.
Qed.

(** C4 (amended): for a key free of syntax characters of regular
    expressions, [createContact] and [createAnimal] make the existence
    check whenever the search went through: the commands of a run are
    those of the resolve phase, cut at a call that threw or followed by
    more, and no other check of the first search result is issued.  The
    check tests the first result against the separator, the last name, a
    comma and a space, the first name, for a patient against the name
    between double quotes: on the simulated application it resolves
    when, and only when, the first item of the list contains that text.
    With Smithson, Johnny listed first, the check for John Smith does not
    resolve, though Smith, John is listed next: the pattern is not found
    in the text of that first item. *)
Theorem resolve_pattern_exact :
  forall (x : Provision),
    literal_key x = true ->
    (forall (B : Browser) (w : World B),
        let R := provision x w in
        Forall (fun c => probe_is x c = true) (commands R) /\
        ((exists rest, commands R = (resolveCommands x ++ rest)%list) \/
         (exists k e, (k < 7)%nat /\
                      commands R = firstn (S k) (resolveCommands x) /\
                      outcome R = Throws e))) /\
    resolveProbe x =
      ExpectText firstFilterItem (RegExp (spec_pattern x) "") (Some 5000%Z) /\
    (forall w : Sim.State,
        Sim_resolves (resolveProbe x) w = Sim_first_contains (spec_pattern x) w) /\
    (forall ty,
        Sim_resolves (resolveProbe (AContact (mkContactName "John" "Smith") ty))
          (Sim_contacts_listed
             [mkContactName "Johnny" "Smithson"; mkContactName "John" "Smith"]) =
        false) /\
    (forall ty,
        regexp_test
          (spec_pattern (AContact (mkContactName "John" "Smith") ty)) ""
          "-  Smithson, Johnny" = Some false).
Proof.
  intros x Hlit. split; [| split; [| split; [| split]]].
  - intros B w R. split.
    + pose proof (provision_probe_is x w) as H. cbv beta in H.
      unfold commands. rewrite Forall_map. exact H.
    + exact (provision_checks x w).
  - destruct x; reflexivity.
  - intros w. apply Sim_probe_literal. exact Hlit.
  - intros ty. reflexivity.
  - intros ty. reflexivity.
Qed.

Lemma resolve_pattern_exact_witness :
  let checked x :=
    let R := @provision Sim.browser x Sim.seeded in
    literal_key x = true /\
    Forall (fun c => probe_is x c = true) (commands R) /\
    (exists rest, commands R = (resolveCommands x ++ rest)%list) /\
    Sim_resolves (resolveProbe x) (final R) =
      Sim_first_contains (spec_pattern x) (final R) in
  checked (AContact (mkContactName "John" "Smith") (inr [Vet; Customer])) /\
  checked (AnAnimal "Rex" "Doe, Jane" None None).
Proof.
  split.
  - destruct (resolve_pattern_exact
                (AContact (mkContactName "John" "Smith") (inr [Vet; Customer]))
                eq_refl) as (H1 & _ & H3 & _).
    destruct (H1 Sim.browser Sim.seeded) as [Hp Hc].
    split; [reflexivity|]. split; [exact Hp|]. split.
    + destruct Hc as [Hc|(k & e & _ & _ & Ho)]; [exact Hc|].
      vm_compute in Ho. discriminate Ho.
    + apply H3.
  - destruct (resolve_pattern_exact (AnAnimal "Rex" "Doe, Jane" None None)
                eq_refl) as (H1 & _ & H3 & _).
    destruct (H1 Sim.browser Sim.seeded) as [Hp Hc].
    split; [reflexivity|]. split; [exact Hp|]. split.
    + destruct Hc as [Hc|(k & e & _ & _ & Ho)]; [exact Hc|].
      vm_compute in Ho. discriminate Ho.
    + apply H3.
Defined.

(** C4, as stated, fails for a name with a syntax character: the check
    takes the name for a regular expression.  For Dr. Jane Doe, a name of
    the docstring, the check resolves on a first result that reads Doe,
    Dra Jane, which does not contain the text. *)
Lemma resolve_pattern_regexp_counterexample :
  ~ (forall (x : Provision) (w : Sim.State),
        Sim_resolves (resolveProbe x) w = Sim_first_contains (spec_pattern x) w).
Proof.
  intros H.
  specialize (H (AContact (mkContactName "Dr. Jane" "Doe") (inr [Vet; Customer]))
                (Sim_contacts_listed [mkContactName "Dra Jane" "Doe"])).
  vm_compute in H. discriminate H.
Qed.


(* ================================================================== *)
(** ** The contact types of the form *)

Lemma ContactType_eqb_eq a b : ContactType_eqb a b = true <-> a = b.
Proof.
  unfold ContactType_eqb. destruct (ContactType_eq_dec a b); split; congruence.
Qed.

Lemma ContactType_eqb_refl a : ContactType_eqb a a = true.
Proof. apply ContactType_eqb_eq. reflexivity. Qed.

Lemma toggles_ext ts : forall ch ch',
  (forall u, ch u = ch' u) -> forall u, toggles ts ch u = toggles ts ch' u.
Proof.
  induction ts as [|t r IH]; intros ch ch' H u; cbn; [apply H|].
  apply IH. intros v. unfold toggle. rewrite H. reflexivity.
Qed.

Lemma toggles_fresh ts : forall ch,
  NoDup ts -> (forall u, In u ts -> ch u = false) ->
  forall u, toggles ts ch u = ch u || existsb (ContactType_eqb u) ts.
Proof.
  induction ts as [|t r IH]; intros ch Hnd Hoff u; cbn [toggles fold_left existsb].
  - rewrite orb_false_r. reflexivity.
  - inversion Hnd as [|? ? Hnotin Hnd']; subst.
    change (fold_left (fun ch0 t0 => toggle t0 ch0) r (toggle t ch) u)
      with (toggles r (toggle t ch) u).
    rewrite IH; [| exact Hnd' |].
    + unfold toggle.
      destruct (ContactType_eqb t u) eqn:E.
      * apply ContactType_eqb_eq in E. subst u.
        rewrite (Hoff t (or_introl eq_refl)), ContactType_eqb_refl. reflexivity.
      * assert (E' : ContactType_eqb u t = false).
        { destruct (ContactType_eqb u t) eqn:E2; [|reflexivity].
          apply ContactType_eqb_eq in E2. subst u.
          rewrite ContactType_eqb_refl in E. discriminate. }
        rewrite E'. reflexivity.
    + intros v Hv. unfold toggle.
      destruct (ContactType_eqb t v) eqn:E.
      * apply ContactType_eqb_eq in E. subst v. contradiction.
      * apply Hoff. right. exact Hv.
Qed.

Section Checkboxes.

Context {B : Browser}.
Variable checked : World B -> ContactType -> bool.
Hypothesis click_toggles : forall t w a w',
  perform B (Click (checkbox t) false) w = (Returns a, w') ->
  forall u, checked w' u = toggle t (checked w) u.
Hypothesis input_keeps : forall c w, is_field_input c = true ->
  forall u, checked (snd (perform B c w)) u = checked w u.

Lemma forEach_clicks ts : forall w,
  let r := forEach ts (fun t => @call B (Click (checkbox t) false)) w in
  outcome r = Returns tt ->
  commands r = map (fun t => Click (checkbox t) false) ts /\
  forall u, checked (final r) u = toggles ts (checked w) u.
Proof.
  induction ts as [|t rest IH]; intros w r Hr.
  - split; [reflexivity | intros u; reflexivity].
  - remember r as r' eqn:E. unfold r in E. clear r.
    cbn [forEach] in E. run E. step E.
    + specialize (IH w0).
      destruct (forEach rest (fun t0 => call (Click (checkbox t0) false)) w0)
        as [o1 w1 ev lg].
      subst r'. unfold commands in *. cbn [outcome final events map] in *.
      destruct (IH Hr) as [Hc Hf]. split.
      * rewrite Hc. reflexivity.
      * intros u. rewrite Hf.
        change (toggles (t :: rest) (checked w) u)
          with (toggles rest (toggle t (checked w)) u).
        apply toggles_ext. intros v. exact (click_toggles t w a w0 E0 v).
    + subst r'. discriminate Hr.
Qed.

Lemma contactFormFill_boxes n ty w :
  let R := @contactFormFill B n ty w in
  outcome R = Returns tt ->
  commands R = contactFillCommands n ty /\
  forall u, checked (final R) u = toggles (Customer :: requested ty) (checked w) u.
Proof.
  intros R HR. remember R as R' eqn:E. unfold R in E. clear R.
  unfold contactFormFill, useSearchInput in E.
  change (match ty with inl t => [t] | inr l => l end) with (requested ty) in E.
  run E. step E; [| subst R'; discriminate HR].
  pose proof (forEach_clicks (requested ty) w0) as L. cbv zeta in L.
  destruct (forEach (requested ty) (fun type => call (Click (checkbox type) false)) w0)
    as [[[]|e] w1 ev lg]; unfold commands in L; cbn [outcome final events] in L;
    [| subst R'; discriminate HR].
  destruct (L eq_refl) as [Lc Lf]. clear L.
  do 5 (step E; [| subst R'; discriminate HR]).
  subst R'. unfold commands in *. cbn [outcome final events map] in *. split.
  - unfold contactFillCommands. rewrite map_app, Lc. reflexivity.
  - intros u.
    repeat match goal with
           | H : perform B ?c ?w = (_, ?w') |- context [checked ?w' u] =>
               let K := fresh in
               pose proof (input_keeps c w eq_refl u) as K;
               rewrite H in K; cbn [snd] in K; rewrite K; clear K H
           end.
    rewrite Lf.
    change (toggles (Customer :: requested ty) (checked w) u)
      with (toggles (requested ty) (toggle Customer (checked w)) u).
    apply toggles_ext. intros v. exact (click_toggles Customer w a w0 E0 v).
Qed.

End Checkboxes.

(** C5 (amended): the form fill of the create path clicks the Customer
    box first and then the box of each requested type.  When the form
    opens with exactly Customer checked, each click toggles its box, typing
    into a field leaves the boxes alone, and no type is requested twice,
    the filled form has exactly the requested types checked. *)
Theorem contact_types_as_requested :
  forall (B : Browser) (checked : World B -> ContactType -> bool)
         (n : ContactName) (ty : ContactType + list ContactType) (w : World B),
    (forall t w a w',
        perform B (Click (checkbox t) false) w = (Returns a, w') ->
        forall u, checked w' u = toggle t (checked w) u) ->
    (forall c w, is_field_input c = true ->
        forall u, checked (snd (perform B c w)) u = checked w u) ->
    (forall u, checked w u = ContactType_eqb Customer u) ->
    NoDup (requested ty) ->
    let R := contactFormFill n ty w in
    outcome R = Returns tt ->
    commands R = contactFillCommands n ty /\
    forall u, checked (final R) u = existsb (ContactType_eqb u) (requested ty).
Proof.
  intros B checked n ty w Htog Hkeep Hinit Hnd R HR.
  destruct (contactFormFill_boxes checked Htog Hkeep n ty w HR) as [Hc Hf].
  split; [exact Hc|]. intros u. rewrite Hf.
  change (toggles (Customer :: requested ty) (checked w) u)
    with (toggles (requested ty) (toggle Customer (checked w)) u).
  rewrite (toggles_ext (requested ty) (toggle Customer (checked w)) (fun _ => false)).
  - rewrite toggles_fresh; [reflexivity | exact Hnd | reflexivity].
  - intros v. unfold toggle. rewrite Hinit.
    destruct (ContactType_eqb Customer v); reflexivity.
Qed.

Lemma ContactType_eqb_sym a b : ContactType_eqb a b = ContactType_eqb b a.
Proof. destruct a, b; reflexivity. Qed.

Lemma existsb_toggle_type t u l :
  existsb (ContactType_eqb u) (Sim.toggle_type t l) =
  if ContactType_eqb t u then negb (existsb (ContactType_eqb u) l)
  else existsb (ContactType_eqb u) l.
Proof.
  unfold Sim.toggle_type.
  assert (F : forall l, existsb (ContactType_eqb u)
                          (filter (fun v => negb (ContactType_eqb t v)) l) =
                        if ContactType_eqb t u then false
                        else existsb (ContactType_eqb u) l).
  { clear l. induction l as [|v r IH]; cbn [filter existsb].
    - destruct (ContactType_eqb t u); reflexivity.
    - destruct (ContactType_eqb t v) eqn:Etv; cbn [negb existsb]; rewrite IH.
      + apply ContactType_eqb_eq in Etv. subst v.
        rewrite (ContactType_eqb_sym u t).
        destruct (ContactType_eqb t u); reflexivity.
      + destruct (ContactType_eqb t u) eqn:Etu; [|reflexivity].
        apply ContactType_eqb_eq in Etu. rewrite <- Etu, Etv. reflexivity. }
  destruct (existsb (ContactType_eqb t) l) eqn:El.
  - rewrite F. destruct (ContactType_eqb t u) eqn:Etu; [|reflexivity].
    apply ContactType_eqb_eq in Etu. rewrite <- Etu, El. reflexivity.
  - rewrite existsb_app. cbn [existsb]. rewrite orb_false_r.
    rewrite (ContactType_eqb_sym u t).
    destruct (ContactType_eqb t u) eqn:Etu.
    + apply ContactType_eqb_eq in Etu. rewrite <- Etu, El. reflexivity.
    + apply orb_false_r.
Qed.

Lemma Sim_click_toggles : forall t w a w',
  perform Sim.browser (Click (checkbox t) false) w = (Returns a, w') ->
  forall u, Sim_checked w' u = toggle t (Sim_checked w) u.
Proof.
  intros t w a w' H u. cbn [perform Sim.browser Sim.perform] in H.
  unfold Sim.click, checkbox in H. cbn [String.eqb Ascii.eqb Bool.eqb] in H.
  assert (T : Sim.type_named (contact_type_text t) = Some t)
    by (destruct t; reflexivity).
  rewrite T in H.
  destruct (Sim.form (Sim.draft w)); try discriminate H.
  inversion H; subst w'. unfold Sim_checked, toggle. cbn.
  apply existsb_toggle_type.
Qed.

Lemma Sim_input_keeps : forall c w, is_field_input c = true ->
  forall u, Sim_checked (snd (perform Sim.browser c w)) u = Sim_checked w u.
Proof.
  intros c w H u. destruct c; try discriminate H; cbn; [|reflexivity|reflexivity].
  unfold Sim.fill.
  repeat match goal with
         | |- context [if ?b then _ else _] => destruct b
         end; reflexivity.
Qed.

Lemma contact_types_as_requested_witness :
  let n := mkContactName "John" "Smith" in
  let ty : ContactType + list ContactType := inr [Vet] in
  let w := Sim_contact_form_open in
  let R := @contactFormFill Sim.browser n ty w in
  (forall u, Sim_checked w u = ContactType_eqb Customer u) /\
  NoDup (requested ty) /\
  outcome R = Returns tt /\
  commands R = contactFillCommands n ty /\
  forall u, Sim_checked (final R) u = existsb (ContactType_eqb u) (requested ty).
Proof.
  intros n ty w R.
  assert (Hinit : forall u, Sim_checked w u = ContactType_eqb Customer u).
  { intros u. destruct u; reflexivity. }
  assert (Hnd : NoDup (requested ty)).
  { repeat constructor; cbn; tauto. }
  assert (HR : outcome R = Returns tt) by reflexivity.
  split; [exact Hinit|]. split; [exact Hnd|]. split; [exact HR|].
  exact (contact_types_as_requested Sim.browser Sim_checked n ty w
           Sim_click_toggles Sim_input_keeps Hinit Hnd HR).
Defined.

(** C5, as stated, fails: with the type list Vet, Vet the second click
    unchecks Vet again, so the filled form has no type checked. *)
Lemma contact_types_repeated_counterexample :
  ~ (forall (B : Browser) (checked : World B -> ContactType -> bool)
            (n : ContactName) (ty : ContactType + list ContactType) (w : World B),
        (forall t w a w',
            perform B (Click (checkbox t) false) w = (Returns a, w') ->
            forall u, checked w' u = toggle t (checked w) u) ->
        (forall c w, is_field_input c = true ->
            forall u, checked (snd (perform B c w)) u = checked w u) ->
        (forall u, checked w u = ContactType_eqb Customer u) ->
        let R := contactFormFill n ty w in
        outcome R = Returns tt ->
        forall u, checked (final R) u = existsb (ContactType_eqb u) (requested ty)).
Proof.
  intros H.
  specialize (H Sim.browser Sim_checked (mkContactName "John" "Smith")
                (inr [Vet; Vet]) Sim_contact_form_open
                Sim_click_toggles Sim_input_keeps).
  assert (Hinit : forall u, Sim_checked Sim_contact_form_open u = ContactType_eqb Customer u).
  { intros u. destruct u; reflexivity. }
  specialize (H Hinit eq_refl Vet). vm_compute in H. discriminate H.
Qed.

(* ================================================================== *)
(** ** The location step and the login retry *)

(** C8: [selectLocation] waits 10 seconds for the heading.  When the wait
    fails it returns normally, having done nothing else.  When the heading
    shows it waits 5 seconds for the element whose text contains the
    location name (the default name for no name and for the empty name),
    found by substring, and clicks it; only these two calls can make it
    throw. *)
Theorem selectLocation_is_optional :
  forall (B : Browser) (location : option string) (w : World B),
    let R := selectLocation location w in
    let el := locationElement location in
    let heading := perform B (WaitForVisible locationHeading 10000) w in
    locationHeading = ByText OnPage (Str "Please select a location") false /\
    locationElement None = ByText OnPage (Str "Master branch (Database)") false /\
    match fst heading with
    | Throws _ =>
        outcome R = Returns tt /\
        commands R = [WaitForVisible locationHeading 10000] /\
        final R = snd heading
    | Returns _ =>
        let shown := perform B (WaitForVisible el 5000) (snd heading) in
        match fst shown with
        | Throws e =>
            outcome R = Throws e /\
            commands R =
              [WaitForVisible locationHeading 10000; WaitForVisible el 5000]
        | Returns _ =>
            let clicked := perform B (Click el false) (snd shown) in
            match fst clicked with
            | Throws e =>
                outcome R = Throws e /\
                commands R =
                  [WaitForVisible locationHeading 10000; WaitForVisible el 5000;
                   Click el false]
            | Returns _ =>
                outcome R = Returns tt /\
                commands R =
                  [WaitForVisible locationHeading 10000; WaitForVisible el 5000;
                   Click el false; WaitForLoadState "networkidle" 5000]
            end
        end
    end.
Proof.
  intros B location w R el heading.
  split; [reflexivity|]. split; [reflexivity|].
  subst R el heading. unfold selectLocation, locationElement, defaultLocation.
  repeat (cbn [bind try_catch call ret fst snd app];
          match goal with
          | |- context [perform ?B0 ?c ?w0] =>
              destruct (perform B0 c w0) as [[[]|?] ?]
          end);
    cbn [bind try_catch call ret fst snd app]; repeat split.
Qed.

Lemma ezyVetLogin_no_pause {B : Browser} e p d :
  only pause_is_2000 (@ezyVetLogin B e p d).
Proof. solve_only. Qed.

Lemma loginAttempts_pauses {B : Browser} e p d maxRetries n :
  forall attempt last,
    only pause_is_2000 (@loginAttempts B n attempt maxRetries last e p d).
Proof.
  induction n as [|n IH]; intros attempt last; cbn [loginAttempts].
  - solve_only.
  - destruct (attempt <=? maxRetries)%Z; [| solve_only].
    apply only_bind.
    + apply only_try_catch.
      * apply only_bind; [solve_only|]. intros _.
        apply only_bind; [apply ezyVetLogin_no_pause | solve_only].
      * solve_only.
    + intros r. destruct (fst r); [apply IH | solve_only].
Qed.

(** An error that leaves the loop is the error of a pause that threw. *)
Lemma loginAttempts_throws {B : Browser} e p d maxRetries n :
  forall attempt last w x,
    outcome (@loginAttempts B n attempt maxRetries last e p d w) = Throws x ->
    In (Ev (WaitForTimeout 2000) (Throws x))
       (events (loginAttempts n attempt maxRetries last e p d w)).
Proof.
  induction n as [|n IH]; intros attempt last w x; cbn [loginAttempts].
  - cbn. discriminate.
  - destruct (attempt <=? maxRetries)%Z; [| cbn; discriminate].
    cbn [bind try_catch ret console_log app].
    destruct (ezyVetLogin e p d w) as [[[]|e1] w1 ev1 lg1];
      cbn [bind try_catch ret console_log app fst snd outcome events];
      [discriminate|].
    destruct (attempt <? maxRetries)%Z;
      cbn [bind try_catch ret console_log call app fst snd outcome events].
    + destruct (perform B (WaitForTimeout 2000) w1) as [[[]|e2] w2];
        cbn [fst snd outcome events app].
      * specialize (IH (attempt + 1)%Z (Some e1) w2 x).
        destruct (loginAttempts n (attempt + 1) maxRetries (Some e1) e p d w2)
          as [o3 w3 ev3 lg3]; cbn [outcome events] in *.
        intros H. specialize (IH H). rewrite ?in_app_iff. cbn [In].
        rewrite ?in_app_iff. tauto.
      * intros H. inversion H; subst. rewrite ?in_app_iff. cbn [In]. tauto.
    + specialize (IH (attempt + 1)%Z (Some e1) w1 x).
      destruct (loginAttempts n (attempt + 1) maxRetries (Some e1) e p d w1)
        as [o3 w3 ev3 lg3]; cbn [outcome events] in *.
      intros H. specialize (IH H). rewrite ?in_app_iff. cbn [In].
      rewrite ?in_app_iff. tauto.
Qed.

(** C6: the default of [ezyVetLoginWithRetry] is 2 attempts.  With it, a
    login that returns ends the wrapper at once with the events of that
    login alone; a login that throws is followed by one pause of 2000 ms
    and a second full login from the world the pause left, with nothing
    between them; when the second login throws too the wrapper throws the
    error that names 2 attempts and the message of the second error.  For
    every bound, each pause lasts 2000 ms and an error of the wrapper is
    that of a pause or the terminal error naming the bound. *)
Theorem login_retry_is_bounded :
  forall (B : Browser) (email password : string) (department : option string)
         (maxRetries : Z) (w : World B),
    defaultMaxRetries = 2%Z /\
    (let R := ezyVetLoginWithRetry email password department defaultMaxRetries w in
     let L1 := ezyVetLogin email password department w in
     match outcome L1 with
     | Returns _ =>
         outcome R = Returns tt /\ events R = events L1 /\ final R = final L1
     | Throws e1 =>
         let pause := perform B (WaitForTimeout 2000) (final L1) in
         match fst pause with
         | Throws ew =>
             outcome R = Throws ew /\
             events R = (events L1 ++ [Ev (WaitForTimeout 2000) (fst pause)])%list
         | Returns _ =>
             let L2 := ezyVetLogin email password department (snd pause) in
             events R =
               (events L1 ++ Ev (WaitForTimeout 2000) (fst pause) :: events L2)%list /\
             final R = final L2 /\
             match outcome L2 with
             | Returns _ => outcome R = Returns tt
             | Throws e2 => outcome R = Throws (loginFailure 2 e2)
             end
         end
     end) /\
    (let R := ezyVetLoginWithRetry email password department maxRetries w in
     Forall (fun c => pause_is_2000 c = true) (commands R) /\
     match outcome R with
     | Returns _ => True
     | Throws x =>
         In (Ev (WaitForTimeout 2000) (Throws x)) (events R) \/
         exists last,
           x = Error ("Login failed after " ++ string_of_number maxRetries ++
                      " attempts: " ++ last)
     end).
Proof.
  intros B email password department maxRetries w.
  split; [reflexivity|]. split.
  - unfold ezyVetLoginWithRetry, defaultMaxRetries.
    change (Z.to_nat 2) with 2%nat. cbn [loginAttempts].
    change (1 <=? 2)%Z with true. change (1 <? 2)%Z with true.
    change (1 + 1 <=? 2)%Z with true. change (1 + 1 <? 2)%Z with false.
    cbv zeta. cbn [bind try_catch ret throw console_log call app].
    destruct (ezyVetLogin email password department w) as [[[]|e1] w1 ev1 lg1];
      cbn [bind try_catch ret throw console_log call app fst snd outcome events final].
    + rewrite !app_nil_r. repeat split.
    + destruct (perform B (WaitForTimeout 2000) w1) as [[[]|ew] w2];
        cbn [bind try_catch ret throw console_log call app fst snd outcome events final].
      * destruct (ezyVetLogin email password department w2) as [[[]|e2] w3 ev3 lg3];
          cbn [bind try_catch ret throw console_log call app fst snd outcome events final];
          rewrite ?app_nil_r; repeat split;
          rewrite <- app_assoc; reflexivity.
      * repeat split.
  - intros R. split.
    + assert (H : only pause_is_2000
                    (@ezyVetLoginWithRetry B email password department maxRetries)).
      { unfold ezyVetLoginWithRetry. apply only_bind.
        - apply loginAttempts_pauses.
        - intros r. destruct (fst r); solve_only. }
      specialize (H w). cbv beta in H. unfold commands. rewrite Forall_map. exact H.
    + subst R. unfold ezyVetLoginWithRetry. cbn [bind].
      pose proof (loginAttempts_throws email password department maxRetries
                    (Z.to_nat maxRetries) 1%Z None w) as T.
      destruct (loginAttempts (Z.to_nat maxRetries) 1 maxRetries None email
                  password department w) as [[[c last]|x] w1 ev1 lg1];
        cbn [outcome events fst snd] in *.
      * destruct c; cbn [ret throw outcome events]; [| exact I].
        right. eexists. reflexivity.
      * left. apply T. reflexivity.
Qed.

(* ================================================================== *)
(** ** Dropdown selections *)

(** C7 (amended): a resource selection that goes through clicks the
    magnifier, fills the field with the text Dr followed by a space, waits
    and clicks the first item that matches Dr.  An owner selection that
    goes through clicks the dropdown icon, fills the sidebar search input
    with the owner name as it is, presses Enter, waits, and clicks the item
    that carries the owner name or else the first item. *)
Theorem dropdown_protocols :
  forall (B : Browser) (ownerName : string) (w w' : World B),
    outcome (selectOwner ownerName w) = Returns tt ->
    outcome (selectResource w') = Returns tt ->
    (commands (selectOwner ownerName w) =
       ownerCommands ownerName (matchingOwnerItem ownerName) \/
     commands (selectOwner ownerName w) =
       ownerCommands ownerName (First allFilterItems)) /\
    commands (selectResource w') = resourceCommands /\
    In (Fill resourceField ("Dr" ++ " ")) (commands (selectResource w')) /\
    Forall (fun c => match c with
                     | Fill l v => l = sidebarSearchInput /\ v = ownerName
                     | _ => True
                     end)
      (commands (selectOwner ownerName w)).
Proof.
  intros B ownerName w w' Ho Hr.
  assert (HO : commands (selectOwner ownerName w) =
                 ownerCommands ownerName (matchingOwnerItem ownerName) \/
               commands (selectOwner ownerName w) =
                 ownerCommands ownerName (First allFilterItems)).
  { remember (selectOwner ownerName w) as R eqn:E.
    unfold selectOwner in E. run E.
    do 6 (step E; [| subst R; discriminate Ho]).
    step E.
    - match goal with v : resp (IsVisible _ _) |- _ => destruct v end; run E.
      + do 2 (step E; [| subst R; discriminate Ho]).
        subst R. left. reflexivity.
      + do 2 (step E; [| subst R; discriminate Ho]).
        subst R. right. reflexivity.
    - do 2 (step E; [| subst R; discriminate Ho]).
      subst R. right. reflexivity. }
  assert (HR : commands (selectResource w') = resourceCommands).
  { remember (selectResource w') as R eqn:E.
    unfold selectResource in E. run E.
    do 7 (step E; [| subst R; discriminate Hr]).
    subst R. reflexivity. }
  split; [exact HO|]. split; [exact HR|]. split.
  - rewrite HR. cbn. tauto.
  - destruct HO as [HO|HO]; rewrite HO; repeat constructor.
Qed.

Lemma dropdown_protocols_witness :
  let w := Sim_patient_form_open in
  outcome (@selectOwner Sim.browser "Doe, Jane" w) = Returns tt /\
  outcome (@selectResource Sim.browser w) = Returns tt /\
  (commands (@selectOwner Sim.browser "Doe, Jane" w) =
     ownerCommands "Doe, Jane" (matchingOwnerItem "Doe, Jane") \/
   commands (@selectOwner Sim.browser "Doe, Jane" w) =
     ownerCommands "Doe, Jane" (First allFilterItems)) /\
  commands (@selectResource Sim.browser w) = resourceCommands /\
  In (Fill resourceField ("Dr" ++ " ")) (commands (@selectResource Sim.browser w)) /\
  Forall (fun c => match c with
                   | Fill l v => l = sidebarSearchInput /\ v = "Doe, Jane"
                   | _ => True
                   end)
    (commands (@selectOwner Sim.browser "Doe, Jane" w)).
Proof.
  intros w.
  assert (Ho : outcome (@selectOwner Sim.browser "Doe, Jane" w) = Returns tt)
    by (vm_compute; reflexivity).
  assert (Hr : outcome (@selectResource Sim.browser w) = Returns tt)
    by (vm_compute; reflexivity).
  split; [exact Ho|]. split; [exact Hr|].
  exact (dropdown_protocols Sim.browser "Doe, Jane" w w Ho Hr).
Defined.

(** C7, as stated, fails for the owner selection: no fill of a completed
    owner selection carries the owner name followed by a space. *)
Lemma owner_search_trailing_space_counterexample :
  ~ (forall (B : Browser) (ownerName : string) (w : World B),
        outcome (selectOwner ownerName w) = Returns tt ->
        exists l, In (Fill l (ownerName ++ " ")) (commands (selectOwner ownerName w))).
Proof.
  intros H.
  destruct (H Sim.browser "Doe, Jane" Sim_patient_form_open eq_refl) as [l Hin].
  vm_compute in Hin.
  repeat match type of Hin with
         | _ \/ _ => destruct Hin as [Hin|Hin]; [discriminate Hin|]
         | False => destruct Hin
         end.
Qed.

(* ================================================================== *)
(** ** Patient creation: the toasts after Save *)

Section Quiet.

Context {B : Browser} {C : Type}.
Variable quiet : Cmd -> bool.
Variable P : list Event -> Outcome C -> Prop.
Hypothesis P_after : forall ev1 ev2 o,
  Forall (fun e => quiet (ev_cmd e) = true) ev1 -> P ev2 o -> P (ev1 ++ ev2)%list o.
Hypothesis P_throws : forall ev e,
  Forall (fun e => quiet (ev_cmd e) = true) ev -> P ev (Throws e).

(** A property that quiet events in front do not disturb holds of a
    sequence when it holds of the continuation and the first script is
    quiet. *)
Lemma holds_after {A} (m : @Script B A) (k : A -> @Script B C) :
  only quiet m -> (forall a, holds P (k a)) -> holds P (bind m k).
Proof.
  intros Hm Hk w. unfold bind. specialize (Hm w). cbv beta in Hm.
  destruct (m w) as [[a|e] w1 ev1 lg1]; cbn [events outcome] in *.
  - specialize (Hk a w1). unfold holds in Hk.
    destruct (k a w1) as [o w2 ev2 lg2]; cbn [events outcome] in *.
    apply P_after; assumption.
  - apply P_throws. assumption.
Qed.

End Quiet.


Lemma quiet_in quiet (ev : list Event) e :
  Forall (fun e => quiet (ev_cmd e) = true) ev -> In e ev ->
  quiet (ev_cmd e) = true.
Proof. intros H Hin. rewrite Forall_forall in H. exact (H e Hin). Qed.

Lemma quiet_in_commands quiet (ev : list Event) c :
  Forall (fun e => quiet (ev_cmd e) = true) ev -> In c (map ev_cmd ev) ->
  quiet c = true.
Proof.
  intros H Hin. apply in_map_iff in Hin. destruct Hin as (e & He & Hin).
  subst c. exact (quiet_in quiet ev e H Hin).
Qed.

(** Closes a goal in which an event or a command that is not quiet is
    among quiet events. *)
Ltac not_quiet Hq Hin :=
  let X := fresh in
  first [ pose proof (quiet_in _ _ _ Hq Hin) as X
        | pose proof (quiet_in_commands _ _ _ Hq Hin) as X ];
  vm_compute in X; discriminate X.

Lemma toast_fatal_after s ev1 ev2 o :
  Forall (fun e => no_text (ev_cmd e) = true) ev1 ->
  toast_fatal s ev2 o -> toast_fatal s (ev1 ++ ev2)%list o.
Proof.
  intros Hq H Hin. apply in_app_or in Hin. destruct Hin as [Hin|Hin].
  - exfalso. not_quiet Hq Hin.
  - destruct (H Hin) as [Ho Hn]. split; [exact Ho|].
    rewrite map_app. intros Hc. apply in_app_or in Hc. destruct Hc as [Hc|Hc].
    + not_quiet Hq Hc.
    + exact (Hn Hc).
Qed.

Lemma toast_fatal_throws s ev e :
  Forall (fun e => no_text (ev_cmd e) = true) ev -> toast_fatal s ev (Throws e).
Proof. intros Hq Hin. exfalso. not_quiet Hq Hin. Qed.

Lemma toast_fatal_quiet {B : Browser} s (m : @Script B unit) :
  only no_text m -> holds (toast_fatal s) m.
Proof. intros Hm w Hin. exfalso. pose proof (Hm w) as Hq. not_quiet Hq Hin. Qed.

(** Names the run of the continuation [k] that stands in the goal, with
    the fact [Hk] about its events. *)
Ltac run_rest k Hk :=
  match goal with
  | |- context [k ?c ?w0] =>
      let Q := fresh "Q" in
      let o := fresh "o" in
      let w' := fresh "w" in
      let ev := fresh "ev" in
      let lg := fresh "lg" in
      pose proof (Hk c w0) as Q; cbv beta in Q;
      destruct (k c w0) as [o w' ev lg]; cbn [events] in Q
  end.

(** Closes a goal whose hypothesis [Hin] puts an event with another text,
    or none, among listed events and quiet events. *)
Ltac no_such_text Hin :=
  exfalso; cbn [In] in Hin;
  repeat match type of Hin with
         | _ \/ _ => destruct Hin as [Hin|Hin]
         | False => destruct Hin
         | _ = _ =>
             first
               [ solve [ let X := fresh in
                         pose proof (f_equal ev_cmd Hin) as X;
                         vm_compute in X; discriminate X ]
               | apply (f_equal ev_text) in Hin; cbn in Hin;
                 first [discriminate Hin | inversion Hin; subst; congruence] ]
         | In _ ?l =>
             match goal with
             | Q : Forall _ l |- _ => not_quiet Q Hin
             end
         end.

(** Splits on the truthiness of the success text. *)
Ltac after_success_probe :=
  cbn [bind try_catch call ret throw console_log app truthy];
  try match goal with
      | |- context [if truthy ?v then _ else _] => destruct (truthy v)
      end;
  cbn [bind try_catch call ret throw console_log app truthy].

(** The toast checks, whatever follows them without reading a text. *)
Lemma checkToasts_fatal {B : Browser} s a (k : Completion -> @Script B unit) :
  s <> "" -> (forall c, only no_text (k c)) ->
  holds (toast_fatal s) (bind (checkToasts a) k).
Proof.
  intros Hs Hk w. unfold checkToasts.
  cbn [bind try_catch call ret throw console_log app].
  destruct (perform B (TextContent errorToastLocator 2000) w) as [[[t|]|e] w1];
    cbn [bind try_catch call ret throw console_log app truthy].
  - destruct (t =? "") eqn:Et; cbn [negb bind ret throw console_log app].
    + apply String.eqb_eq in Et. subst t.
      destruct (perform B (TextContent successToastLocator 2000) w1)
        as [[v2|e2] w2];
        cbn [bind try_catch call ret throw console_log app];
        after_success_probe; run_rest k Hk; cbn [events outcome];
        intros Hin; no_such_text Hin.
    + intros Hin. cbn [events outcome In] in *.
      destruct Hin as [Hin|[]].
      apply (f_equal ev_text) in Hin. cbn in Hin. inversion Hin; subst t.
      split; [reflexivity|].
      cbn. intros [Hc|[]]. vm_compute in Hc. discriminate Hc.
  - destruct (perform B (TextContent successToastLocator 2000) w1)
      as [[v2|e2] w2];
      cbn [bind try_catch call ret throw console_log app];
      after_success_probe; run_rest k Hk; cbn [events outcome];
      intros Hin; no_such_text Hin.
  - destruct (perform B (TextContent successToastLocator 2000) w1)
      as [[v2|e2] w2];
      cbn [bind try_catch call ret throw console_log app];
      after_success_probe; run_rest k Hk; cbn [events outcome];
      intros Hin; no_such_text Hin.
Qed.

Lemma createPatient_fatal {B : Browser} x s :
  s <> "" -> holds (toast_fatal s) (@createPatient B x).
Proof.
  intros Hs.
  destruct x as [a o g t | a f l g t]; cbn [createPatient].
  - unfold createAnimal.
    repeat (apply (holds_after no_text (toast_fatal s)
                     (toast_fatal_after s) (toast_fatal_throws s));
            [solve [solve_only] | intros ?]).
    match goal with |- context [match ?c with Normal => _ | Return => _ end] =>
      destruct c end; [| apply toast_fatal_quiet; solve_only].
    unfold animalForm.
    repeat (apply (holds_after no_text (toast_fatal s)
                     (toast_fatal_after s) (toast_fatal_throws s));
            [solve [solve_only] | intros ?]).
    apply checkToasts_fatal; [exact Hs|]. intros c. solve_only.
  - unfold createAnimalWithOwner.
    repeat (apply (holds_after no_text (toast_fatal s)
                     (toast_fatal_after s) (toast_fatal_throws s));
            [solve [solve_only] | intros ?]).
    apply checkToasts_fatal; [exact Hs|]. intros c. solve_only.
Qed.


Lemma in_order_after p q ev1 ev2 o :
  Forall (fun e => not_cmd q (ev_cmd e) = true) ev1 ->
  in_order p q ev2 o -> in_order p q (ev1 ++ ev2)%list o.
Proof.
  unfold in_order, not_cmd. intros Hq H.
  induction Hq as [|e l He _ IH]; cbn [app map guarded]; [exact H|].
  destruct (p (ev_cmd e)); [reflexivity|]. rewrite He, IH. reflexivity.
Qed.

Lemma in_order_throws p q ev e :
  Forall (fun e => not_cmd q (ev_cmd e) = true) ev -> in_order p q ev (Throws e).
Proof.
  unfold in_order, not_cmd. intros Hq.
  induction Hq as [|e' l He _ IH]; cbn [map guarded]; [reflexivity|].
  destruct (p (ev_cmd e')); [reflexivity|]. rewrite He, IH. reflexivity.
Qed.

Lemma in_order_quiet {B : Browser} p q (m : @Script B unit) :
  only (not_cmd q) m -> holds (in_order p q) m.
Proof.
  intros Hm w. specialize (Hm w). cbv beta in Hm.
  destruct (outcome (m w)) as [[]|e].
  - rewrite <- (app_nil_r (events (m w))).
    apply in_order_after; [exact Hm | reflexivity].
  - apply in_order_throws. exact Hm.
Qed.

Section StartsWith.

Context {B : Browser}.
Variable c : Cmd.

Lemma starts_call : starts_with c (@call B c).
Proof.
  intros w. cbn [call]. destruct (perform B c w) as [r w1].
  exists r, []. reflexivity.
Qed.

Lemma starts_bind {A C} (m : @Script B A) (k : A -> @Script B C) :
  starts_with c m -> starts_with c (bind m k).
Proof.
  intros Hm w. destruct (Hm w) as (r & rest & E). cbn [bind].
  destruct (m w) as [[a|e] w1 ev1 lg1]; cbn [events] in *; subst ev1.
  - destruct (k a w1) as [o w2 ev2 lg2]. exists r, (rest ++ ev2)%list. reflexivity.
  - exists r, rest. reflexivity.
Qed.

Lemma starts_try_catch {A} (m : @Script B A) h :
  starts_with c m -> starts_with c (try_catch m h).
Proof.
  intros Hm w. destruct (Hm w) as (r & rest & E). cbn [try_catch].
  destruct (m w) as [[a|e] w1 ev1 lg1]; cbn [events] in *; subst ev1.
  - exists r, rest. reflexivity.
  - destruct (h e w1) as [o w2 ev2 lg2]. exists r, (rest ++ ev2)%list. reflexivity.
Qed.

Lemma starts_after_log {A} msg (m : @Script B A) :
  starts_with c m -> starts_with c (bind (console_log msg) (fun _ => m)).
Proof.
  intros Hm w. destruct (Hm w) as (r & rest & E). cbn [bind console_log].
  destruct (m w) as [o w1 ev1 lg1]; cbn [events] in *; subst ev1.
  exists r, rest. reflexivity.
Qed.

End StartsWith.

Lemma in_order_from_start {B : Browser} p q c (m : @Script B unit) :
  p c = true -> starts_with c m -> holds (in_order p q) m.
Proof.
  intros Hp Hm w. unfold in_order. destruct (Hm w) as (r & rest & E).
  rewrite E. cbn [map guarded ev_cmd]. rewrite Hp. reflexivity.
Qed.

Lemma checkToasts_in_order {B : Browser} a (k : Completion -> @Script B unit) :
  holds (in_order is_error_probe is_success_probe) (bind (checkToasts a) k).
Proof.
  apply (in_order_from_start _ _ errorProbe); [reflexivity|].
  unfold checkToasts.
  apply starts_bind, starts_bind, starts_try_catch, starts_call.
Qed.

Lemma createPatient_probes_in_order {B : Browser} x :
  holds (in_order is_error_probe is_success_probe) (@createPatient B x).
Proof.
  destruct x as [a o g t | a f l g t]; cbn [createPatient].
  - unfold createAnimal.
    repeat (apply (holds_after (not_cmd is_success_probe) _
                     (in_order_after _ _) (in_order_throws _ _));
            [solve [solve_only] | intros ?]).
    match goal with |- context [match ?c with Normal => _ | Return => _ end] =>
      destruct c end; [| apply in_order_quiet; solve_only].
    unfold animalForm.
    repeat (apply (holds_after (not_cmd is_success_probe) _
                     (in_order_after _ _) (in_order_throws _ _));
            [solve [solve_only] | intros ?]).
    apply checkToasts_in_order.
  - unfold createAnimalWithOwner.
    repeat (apply (holds_after (not_cmd is_success_probe) _
                     (in_order_after _ _) (in_order_throws _ _));
            [solve [solve_only] | intros ?]).
    apply checkToasts_in_order.
Qed.

Lemma createPatient_save_first {B : Browser} x :
  holds (in_order is_save_click is_error_probe) (@createPatient B x).
Proof.
  destruct x as [a o g t | a f l g t]; cbn [createPatient].
  - unfold createAnimal.
    repeat (apply (holds_after (not_cmd is_error_probe) _
                     (in_order_after _ _) (in_order_throws _ _));
            [solve [solve_only] | intros ?]).
    match goal with |- context [match ?c with Normal => _ | Return => _ end] =>
      destruct c end; [| apply in_order_quiet; solve_only].
    unfold animalForm.
    do 5 (apply (holds_after (not_cmd is_error_probe) _
                   (in_order_after _ _) (in_order_throws _ _));
          [solve [solve_only] | intros ?]).
    apply (in_order_from_start _ _ (Click saveButton false)); [reflexivity|].
    apply starts_bind, starts_call.
  - unfold createAnimalWithOwner.
    do 8 (apply (holds_after (not_cmd is_error_probe) _
                   (in_order_after _ _) (in_order_throws _ _));
          [solve [solve_only] | intros ?]).
    apply (in_order_from_start _ _ (Click (Nth saveButton 1) false)); [reflexivity|].
    apply starts_bind, starts_call.
Qed.

Lemma truthy_text v : truthy v = true -> exists s, v = Some s /\ s <> "".
Proof.
  destruct v as [s|]; cbn; [| discriminate].
  intros H. exists s. split; [reflexivity|]. intros ->. discriminate H.
Qed.

Lemma error_answer_decides_after a ev1 ev2 o :
  Forall (fun e => no_text (ev_cmd e) = true) ev1 ->
  error_answer_decides a ev2 o -> error_answer_decides a (ev1 ++ ev2)%list o.
Proof.
  intros Hq H r Hin. apply in_app_or in Hin. destruct Hin as [Hin|Hin].
  - exfalso. not_quiet Hq Hin.
  - specialize (H r Hin). destruct (answer_truthy r).
    + destruct H as [Hs Hn]. split; [exact Hs|].
      rewrite map_app. intros Hc. apply in_app_or in Hc. destruct Hc as [Hc|Hc].
      * not_quiet Hq Hc.
      * exact (Hn Hc).
    + destruct H as [(before & rs & after & Hev) Ho]. split.
      * exists (ev1 ++ before)%list, rs, after. rewrite Hev. apply app_assoc.
      * destruct Ho as [Ho|(e & Ho & He)]; [left; exact Ho|].
        right. exists e. split; [exact Ho | apply in_or_app; right; exact He].
Qed.

Lemma error_answer_decides_throws a ev e :
  Forall (fun e => no_text (ev_cmd e) = true) ev ->
  error_answer_decides a ev (Throws e).
Proof. intros Hq r Hin. exfalso. not_quiet Hq Hin. Qed.

Lemma error_answer_decides_quiet {B : Browser} a (m : @Script B unit) :
  only no_text m -> holds (error_answer_decides a) m.
Proof. intros Hm w r Hin. exfalso. pose proof (Hm w) as Hq. not_quiet Hq Hin. Qed.

(** Sorts out which of the listed events, or of the events [Q] knows to
    read no text, the probe of [Hin] is, and what it answered. *)
Ltac which_probe Hin :=
  cbn [In] in Hin; rewrite ?in_app_iff in Hin; cbn [In] in Hin;
  repeat match type of Hin with
         | _ \/ _ => destruct Hin as [Hin|Hin]
         | False => destruct Hin
         | In _ ?l =>
             match goal with
             | Q : Forall _ l |- _ => exfalso; not_quiet Q Hin
             end
         | _ = _ =>
             first
               [ solve [ exfalso;
                         let X := fresh in
                         pose proof (f_equal ev_cmd Hin) as X;
                         vm_compute in X; discriminate X ]
               | apply (f_equal ev_answer) in Hin; cbn [ev_answer] in Hin;
                 inversion Hin; subst ]
         end.

(** Names the run of the continuation [k] after no success toast, with
    the facts [Hk] about its events and [Hend] about its outcome. *)
Ltac run_unknown k Hk Hend :=
  match goal with
  | |- context [k Normal ?w0] =>
      let Q := fresh "Q" in
      let E := fresh "E" in
      let o := fresh "o" in
      let w' := fresh "w" in
      let ev := fresh "ev" in
      let lg := fresh "lg" in
      pose proof (Hk Normal w0) as Q; cbv beta in Q;
      pose proof (Hend w0) as E;
      destruct (k Normal w0) as [o w' ev lg]; cbn [events outcome] in Q, E
  end.

(** The toast checks, followed by a script that returns at once after a
    success toast and otherwise reads no text and ends well or with the
    error of the re-check. *)
Lemma checkToasts_decides {B : Browser} a (k : Completion -> @Script B unit) :
  (forall w, k Return w = ret tt w) ->
  (forall c, only no_text (k c)) ->
  (forall w, outcome (k Normal w) = Returns tt \/
             exists e, outcome (k Normal w) = Throws e /\
                       In (Ev (recheck a) (Throws e)) (events (k Normal w))) ->
  holds (error_answer_decides a) (bind (checkToasts a) k).
Proof.
  intros Hret Hk Hend w r. unfold checkToasts.
  repeat (cbn [bind try_catch call ret throw console_log app truthy];
          match goal with
          | |- context [perform ?B0 ?c ?w0] =>
              destruct (perform B0 c w0) as [[?|?] ?]
          | |- context [if truthy ?v then _ else _] =>
              destruct (truthy v) eqn:?
          end).
  all: cbn [bind try_catch call ret throw console_log app truthy events outcome].
  all: try rewrite Hret; try run_unknown k Hk Hend;
    cbn [bind try_catch call ret throw console_log app events outcome].
  all: intros Hin; which_probe Hin; cbn [answer_truthy];
    repeat match goal with
           | T : truthy ?v = _ |- context [truthy ?v] => rewrite T
           end.
  all: first
         [ (* a text that is not empty *)
           split;
           [ match goal with
             | T : truthy ?v = true |- _ =>
                 destruct (truthy_text v T) as (s & Hv & Hs); subst;
                 exists s; split; [reflexivity | split; [exact Hs | reflexivity]]
             end
           | cbn [map ev_cmd In]; intros [Hc|[]]; vm_compute in Hc;
             discriminate Hc ]
         | (* any other answer *)
           split;
           [ refine (ex_intro _ [] (ex_intro _ _ (ex_intro _ _ eq_refl)))
           | first
               [ left; reflexivity
               | match goal with
                 | E : _ \/ _ |- _ =>
                     let He := fresh "He" in
                     destruct E as [E|(? & E & He)];
                     [ left; exact E
                     | right; eexists; split;
                       [exact E | cbn [In]; tauto] ]
                 end ] ] ].
Qed.

Lemma createPatient_decides {B : Browser} x :
  holds (error_answer_decides (patientName x)) (@createPatient B x).
Proof.
  destruct x as [a o g t | a f l g t]; cbn [createPatient patientName].
  - unfold createAnimal.
    repeat (apply (holds_after no_text (error_answer_decides a)
                     (error_answer_decides_after a)
                     (error_answer_decides_throws a));
            [solve [solve_only] | intros ?]).
    match goal with |- context [match ?c with Normal => _ | Return => _ end] =>
      destruct c end; [| apply error_answer_decides_quiet; solve_only].
    unfold animalForm.
    repeat (apply (holds_after no_text (error_answer_decides a)
                     (error_answer_decides_after a)
                     (error_answer_decides_throws a));
            [solve [solve_only] | intros ?]).
    apply checkToasts_decides; [reflexivity | intros c; solve_only |].
    intros w. fold (recheck a). cbn [bind call console_log].
    destruct (perform B (recheck a) w) as [[[]|e] w1]; cbn [outcome events app].
    + left. reflexivity.
    + right. exists e. split; [reflexivity | left; reflexivity].
  - unfold createAnimalWithOwner.
    repeat (apply (holds_after no_text (error_answer_decides a)
                     (error_answer_decides_after a)
                     (error_answer_decides_throws a));
            [solve [solve_only] | intros ?]).
    apply checkToasts_decides; [reflexivity | intros c; solve_only |].
    intros w. left. reflexivity.
Qed.

Lemma probed_after_pause_after ev1 ev2 o :
  Forall (fun e => negb (Cmd_eqb (ev_cmd e) pauseAfterSave) = true) ev1 ->
  probed_after_pause ev2 o -> probed_after_pause (ev1 ++ ev2)%list o.
Proof.
  intros Hq H (e & Hin & Hc & Hok). rewrite map_app. apply in_or_app. right.
  apply H. apply in_app_or in Hin. destruct Hin as [Hin|Hin].
  - exfalso. rewrite Forall_forall in Hq. specialize (Hq e Hin).
    rewrite Hc, Cmd_eqb_refl in Hq. discriminate Hq.
  - exists e. split; [exact Hin | split; assumption].
Qed.

Lemma probed_after_pause_throws ev e :
  Forall (fun e => negb (Cmd_eqb (ev_cmd e) pauseAfterSave) = true) ev ->
  probed_after_pause ev (Throws e).
Proof.
  intros Hq (x & Hin & Hc & Hok). exfalso.
  rewrite Forall_forall in Hq. specialize (Hq x Hin).
  rewrite Hc, Cmd_eqb_refl in Hq. discriminate Hq.
Qed.

Lemma pause_then_probe {B : Browser} a (k : Completion -> @Script B unit) :
  holds probed_after_pause
    (bind (call pauseAfterSave) (fun _ => bind (checkToasts a) k)).
Proof.
  assert (S : starts_with errorProbe (bind (@checkToasts B a) k)).
  { unfold checkToasts.
    apply starts_bind, starts_bind, starts_try_catch, starts_call. }
  remember (bind (@checkToasts B a) k) as rest eqn:Er. clear Er.
  intros w. cbn [bind call].
  destruct (perform B pauseAfterSave w) as [[[]|e] w1].
  - destruct (S w1) as (r & tl & E).
    destruct (rest w1) as [o2 w2 ev2 lg2].
    cbn [events outcome app] in *. subst ev2.
    intros _. cbn [map ev_cmd In]. right. left. reflexivity.
  - cbn [events outcome]. intros (x & Hin & Hc & Hok).
    destruct Hin as [Hin|[]]. subst x. discriminate Hok.
Qed.

Lemma createPatient_probes_after_pause {B : Browser} x :
  holds probed_after_pause (@createPatient B x).
Proof.
  destruct x as [a o g t | a f l g t]; cbn [createPatient].
  - unfold createAnimal.
    repeat (apply (holds_after (fun c => negb (Cmd_eqb c pauseAfterSave))
                     probed_after_pause
                     probed_after_pause_after probed_after_pause_throws);
            [solve [solve_only] | intros ?]).
    match goal with |- context [match ?c with Normal => _ | Return => _ end] =>
      destruct c end.
    + unfold animalForm.
      repeat (apply (holds_after (fun c => negb (Cmd_eqb c pauseAfterSave))
                       probed_after_pause
                       probed_after_pause_after probed_after_pause_throws);
              [solve [solve_only] | intros ?]).
      apply pause_then_probe.
    + intros w (x & [] & _).
  - unfold createAnimalWithOwner.
    repeat (apply (holds_after (fun c => negb (Cmd_eqb c pauseAfterSave))
                     probed_after_pause
                     probed_after_pause_after probed_after_pause_throws);
            [solve [solve_only] | intros ?]).
    apply pause_then_probe.
Qed.

(** C3 (amended): in every run of [createAnimal] and of
    [createAnimalWithOwner] no error-toast probe comes before the click on
    Save and no success check before the error-toast probe, and once the
    pause after Save resolved the error-toast probe is made.  The answer
    of the probe decides: a text that is not empty makes the call throw
    the error that carries this text, with no success check; the empty
    text, like no text and like a failed read, counts as no toast: the
    success check comes next, and the call returns or throws the error of
    the re-check. *)
Theorem error_toast_has_priority :
  forall (B : Browser) (x : PatientCall) (w : World B),
    let R := createPatient x w in
    guarded is_save_click is_error_probe (commands R) = true /\
    guarded is_error_probe is_success_probe (commands R) = true /\
    (succeeded pauseAfterSave (events R) -> In errorProbe (commands R)) /\
    (forall r, In (Ev errorProbe r) (events R) ->
       if answer_truthy r then
         (exists s, r = Returns (Some s) /\ s <> "" /\
                    outcome R = Throws (Error ("Failed to create animal: " ++ s))) /\
         ~ In successProbe (commands R)
       else
         (exists before rs after,
             events R =
               (before ++ Ev errorProbe r :: Ev successProbe rs :: after)%list) /\
         (outcome R = Returns tt \/
          exists e, outcome R = Throws e /\
                    In (Ev (recheck (patientName x)) (Throws e)) (events R))).
Proof.
  intros B x w R.
  split; [exact (createPatient_save_first x w)|].
  split; [exact (createPatient_probes_in_order x w)|].
  split; [exact (createPatient_probes_after_pause x w)|].
  exact (createPatient_decides x w).
Qed.

Lemma error_toast_has_priority_witness :
  let x := FromContact "Rex" "Jane" "Doe" None None in
  let w := Sim.set_save_mode (Sim.Reject "Name already in use") true
             Sim_patient_form_open in
  let w' := Sim.set_save_mode (Sim.Reject "") true Sim_patient_form_open in
  let R := @createPatient Sim.browser x w in
  let R' := @createPatient Sim.browser x w' in
  In (Ev errorProbe (Returns (Some "Name already in use"))) (events R) /\
  outcome R = Throws (Error "Failed to create animal: Name already in use") /\
  ~ In successProbe (commands R) /\
  In (Ev errorProbe (Returns (Some ""))) (events R') /\
  In successProbe (commands R') /\
  outcome R' = Returns tt.
Proof.
  intros x w w' R R'.
  assert (Hin : In (Ev errorProbe (Returns (Some "Name already in use")))
                  (events R)).
  { vm_compute. repeat (first [left; reflexivity | right]). }
  assert (Hin' : In (Ev errorProbe (Returns (Some ""))) (events R')).
  { vm_compute. repeat (first [left; reflexivity | right]). }
  pose proof (proj2 (proj2 (proj2 (error_toast_has_priority Sim.browser x w)))
                (Returns (Some "Name already in use")) Hin) as H.
  pose proof (proj2 (proj2 (proj2 (error_toast_has_priority Sim.browser x w')))
                (Returns (Some "")) Hin') as H'.
  cbn [answer_truthy truthy String.eqb negb] in H, H'.
  destruct H as [(s & Hs & _ & Ho) Hn].
  destruct H' as [(before & rs & after & Hev) Ho'].
  inversion Hs; subst s.
  split; [exact Hin|]. split; [exact Ho|]. split; [exact Hn|].
  split; [exact Hin'|]. split.
  - unfold commands. fold R' in Hev. rewrite Hev, map_app. apply in_or_app.
    right. right. left. reflexivity.
  - vm_compute. reflexivity.
Defined.


(** C3, as stated, fails for an error toast without text: the empty text
    is falsy, so the call goes on, and [createAnimalWithOwner] returns
    normally. *)
Lemma error_toast_empty_text_counterexample :
  ~ (forall (B : Browser) (x : PatientCall) (w : World B) (s : string),
        let R := createPatient x w in
        In (Ev errorProbe (Returns (Some s))) (events R) ->
        outcome R = Throws (Error ("Failed to create animal: " ++ s))).
Proof.
  intros H.
  specialize (H Sim.browser (FromContact "Rex" "Jane" "Doe" None None)
                (Sim.set_save_mode (Sim.Reject "") true Sim_patient_form_open) "").
  cbv zeta in H.
  assert (Hin : In (Ev errorProbe (Returns (Some "")))
                  (events (@createPatient Sim.browser
                             (FromContact "Rex" "Jane" "Doe" None None)
                             (Sim.set_save_mode (Sim.Reject "") true
                                Sim_patient_form_open)))).
  { vm_compute. repeat (first [left; reflexivity | right]). }
  specialize (H Hin). vm_compute in H. discriminate H.
Qed.

(* ================================================================== *)
(** ** Patient creation: the unknown outcome *)

Lemma unknown_rechecked_after a ev1 ev2 o :
  Forall (fun e => no_text (ev_cmd e) = true) ev1 ->
  unknown_rechecked a ev2 o -> unknown_rechecked a (ev1 ++ ev2)%list o.
Proof.
  intros Hq H rs Hin Hrs. apply in_app_or in Hin. destruct Hin as [Hin|Hin].
  - exfalso. not_quiet Hq Hin.
  - destruct (H rs Hin Hrs) as (rv & Hv & Ho). exists rv.
    split; [apply in_or_app; right; exact Hv | exact Ho].
Qed.

Lemma unknown_rechecked_throws a ev e :
  Forall (fun e => no_text (ev_cmd e) = true) ev ->
  unknown_rechecked a ev (Throws e).
Proof. intros Hq rs Hin _. exfalso. not_quiet Hq Hin. Qed.

Lemma unknown_rechecked_quiet {B : Browser} a (m : @Script B unit) :
  only no_text m -> holds (unknown_rechecked a) m.
Proof.
  intros Hm w rs Hin _. exfalso. pose proof (Hm w) as Hq. not_quiet Hq Hin.
Qed.

(** Finds the answer of the success check among listed events. *)
Ltac success_answer Hin :=
  cbn [In] in Hin;
  repeat match type of Hin with
         | _ \/ _ => destruct Hin as [Hin|Hin]
         | False => destruct Hin
         | _ = _ =>
             first
               [ solve [ let X := fresh in
                         pose proof (f_equal ev_cmd Hin) as X;
                         vm_compute in X; discriminate X ]
               | apply (f_equal ev_answer) in Hin; cbn in Hin;
                 inversion Hin; subst ]
         end.

Lemma createAnimal_tail_rechecks {B : Browser} a :
  holds (unknown_rechecked a)
    (bind (@checkToasts B a)
       (fun toasts =>
          match toasts with
          | Return => ret tt
          | Normal =>
              call (recheck a) ;;
              console_log ("✅ Animal " ++ quoted a ++ " created successfully.")
          end)).
Proof.
  intros w rs. unfold checkToasts.
  repeat (cbn [bind try_catch call ret throw console_log app];
          match goal with
          | |- context [perform ?B0 ?c ?w0] =>
              destruct (perform B0 c w0) as [[?|?] ?]
          | |- context [if truthy ?v then _ else _] =>
              destruct (truthy v) eqn:?
          end).
  all: cbn [bind try_catch call ret throw console_log app events outcome];
    intros Hin Hf.
  all: first
         [ match goal with
           | |- context [Ev (recheck _) ?rv] =>
               exists rv; split; [cbn [In]; tauto | reflexivity]
           end
         | exfalso; success_answer Hin;
           match goal with
           | Tv : truthy _ = true |- _ =>
               exact (diff_true_false (eq_trans (eq_sym Tv) Hf))
           end ].
Qed.

(** The sibling path: [createAnimal] re-checks an unknown outcome. *)
Lemma createAnimal_rechecks_unknown_outcome {B : Browser} a o g t :
  holds (unknown_rechecked a) (@createAnimal B a o g t).
Proof.
  unfold createAnimal.
  repeat (apply (holds_after no_text (unknown_rechecked a)
                   (unknown_rechecked_after a) (unknown_rechecked_throws a));
          [solve [solve_only] | intros ?]).
  match goal with |- context [match ?c with Normal => _ | Return => _ end] =>
    destruct c end; [| apply unknown_rechecked_quiet; solve_only].
  unfold animalForm.
  repeat (apply (holds_after no_text (unknown_rechecked a)
                   (unknown_rechecked_after a) (unknown_rechecked_throws a));
          [solve [solve_only] | intros ?]).
  apply createAnimal_tail_rechecks.
Qed.

Lemma createAnimalWithOwner_no_check {B : Browser} a f l g t :
  only (not_cmd is_existence_check) (@createAnimalWithOwner B a f l g t).
Proof. solve_only. Qed.

(** C2: the code breaks the claim in [createAnimalWithOwner].  No run of
    it makes any existence check; and on a server that drops the save
    without a toast it returns normally and logs the creation, though the
    patient does not exist. *)
Theorem unknown_outcome_unchecked_from_contact :
  (forall (B : Browser) a f l g t (w : World B),
      Forall (fun c => is_existence_check c = false)
        (commands (createAnimalWithOwner a f l g t w))) /\
  (let w := Sim_saves_dropped in
   let R := @createAnimalWithOwner Sim.browser "Rex" "Jane" "Doe" None None w in
   outcome R = Returns tt /\
   existsb toast_seen (events R) = false /\
   In successProbe (commands R) /\
   last (logs R) "" = "✅ Animal " ++ quoted "Rex" ++ " created successfully." /\
   Sim.patients (Sim.server (final R)) = Sim.patients (Sim.server w) /\
   existsb (fun p => fst p =? "Rex") (Sim.patients (Sim.server (final R))) = false).
Proof.
  split.
  - intros B a f l g t w.
    pose proof (createAnimalWithOwner_no_check a f l g t w) as H. cbv beta in H.
    unfold commands. rewrite Forall_map.
    eapply Forall_impl; [| exact H]. intros e He. cbv beta in He.
    unfold not_cmd in He. destruct (is_existence_check (ev_cmd e)); [discriminate|reflexivity].
  - cbv zeta. split; [vm_compute; reflexivity|].
    split; [vm_compute; reflexivity|].
    split; [vm_compute; repeat (first [left; reflexivity | right])|].
    split; [vm_compute; reflexivity|].
    split; vm_compute; reflexivity.
Qed.

(* ================================================================== *)
(** ** Patient creation from a contact *)

Lemma count_saves_quiet ev :
  Forall (fun e => not_cmd is_save_click (ev_cmd e) = true) ev ->
  count_saves (map ev_cmd ev) = 0%nat.
Proof.
  unfold count_saves, not_cmd. intros H.
  induction H as [|e l He _ IH]; cbn [map filter]; [reflexivity|].
  destruct (is_save_click (ev_cmd e)); [discriminate | exact IH].
Qed.

Lemma saved_once_after ev1 ev2 o :
  Forall (fun e => not_cmd is_save_click (ev_cmd e) = true) ev1 ->
  saved_once ev2 o -> saved_once (ev1 ++ ev2)%list o.
Proof.
  intros Hq H Ho. specialize (H Ho). pose proof (count_saves_quiet ev1 Hq) as H0.
  unfold count_saves in *. rewrite map_app, filter_app, length_app. lia.
Qed.

Lemma saved_once_throws ev e :
  Forall (fun e => not_cmd is_save_click (ev_cmd e) = true) ev ->
  saved_once ev (Throws e).
Proof. intros _ H. discriminate H. Qed.

Lemma saved_once_from_click {B : Browser} c (k : resp c -> @Script B unit) :
  is_save_click c = true -> (forall a, only (not_cmd is_save_click) (k a)) ->
  holds saved_once (bind (call c) k).
Proof.
  intros Hc Hk w. cbn [bind call].
  destruct (perform B c w) as [[a|e] w1]; cbn [events outcome app].
  - pose proof (Hk a w1) as Q. cbv beta in Q.
    destruct (k a w1) as [o w2 ev lg]. cbn [events outcome] in *.
    intros _. pose proof (count_saves_quiet ev Q) as H0.
    unfold count_saves in *. cbn [map filter ev_cmd]. rewrite Hc.
    cbn [List.length]. lia.
  - intros H. discriminate H.
Qed.

Lemma createAnimalWithOwner_saved_once {B : Browser} a f l g t :
  holds saved_once (@createAnimalWithOwner B a f l g t).
Proof.
  unfold createAnimalWithOwner.
  do 8 (apply (holds_after (not_cmd is_save_click) saved_once
                 saved_once_after saved_once_throws);
        [solve [solve_only] | intros ?]).
  apply saved_once_from_click; [reflexivity|]. intros ?. solve_only.
Qed.

Lemma createAnimalWithOwner_no_resolve {B : Browser} a f l g t :
  only (not_cmd is_resolve_cmd) (@createAnimalWithOwner B a f l g t).
Proof. solve_only. Qed.

Lemma createAnimalWithOwner_starts {B : Browser} a f l g t :
  starts_with (Fill animalNameInput a) (@createAnimalWithOwner B a f l g t).
Proof.
  unfold createAnimalWithOwner.
  apply starts_after_log, starts_bind, starts_call.
Qed.

Lemma starts_with_hd {B : Browser} {A} c (m : @Script B A) w :
  starts_with c m -> hd_error (commands (m w)) = Some c.
Proof.
  intros H. destruct (H w) as (r & rest & E). unfold commands.
  rewrite E. reflexivity.
Qed.

(** C9: [createAnimalWithOwner] has no resolve phase: no run of it issues
    a command of one, and its first command, whatever the page shows, is
    the fill of the name field.  Two calls in succession with the same
    name that both return have clicked Save once each, twice in all; on
    the simulated application they leave two patients of that name. *)
Theorem contextual_creation_is_not_idempotent :
  forall (B : Browser) (a f l : string) (g : option Z)
         (t : option (list string)) (w : World B),
    let R1 := createAnimalWithOwner a f l g t w in
    let R2 := createAnimalWithOwner a f l g t (final R1) in
    outcome R1 = Returns tt ->
    outcome R2 = Returns tt ->
    Forall (fun c => is_resolve_cmd c = false) (commands R1 ++ commands R2) /\
    hd_error (commands R1) = Some (Fill animalNameInput a) /\
    hd_error (commands R2) = Some (Fill animalNameInput a) /\
    count_saves (commands R1 ++ commands R2) = 2%nat /\
    (let S1 := @createAnimalWithOwner Sim.browser "Rex" "Jane" "Doe" None None
                 Sim_patient_form_open in
     let S2 := @createAnimalWithOwner Sim.browser "Rex" "Jane" "Doe" None None
                 (final S1) in
     outcome S1 = Returns tt /\ outcome S2 = Returns tt /\
     List.length (Sim_patients_named "Rex" Sim_patient_form_open) = 0%nat /\
     List.length (Sim_patients_named "Rex" (final S2)) = 2%nat).
Proof.
  intros B a f l g t w R1 R2 H1 H2.
  assert (Q : forall w0 : World B, Forall (fun c => is_resolve_cmd c = false)
                          (commands (createAnimalWithOwner a f l g t w0))).
  { intros w0. pose proof (createAnimalWithOwner_no_resolve a f l g t w0) as H.
    cbv beta in H. unfold commands. rewrite Forall_map.
    eapply Forall_impl; [| exact H]. intros e He. cbv beta in He.
    unfold not_cmd in He. destruct (is_resolve_cmd (ev_cmd e)); [discriminate|reflexivity]. }
  split; [apply Forall_app; split; apply Q|].
  split; [apply starts_with_hd, createAnimalWithOwner_starts|].
  split; [apply starts_with_hd, createAnimalWithOwner_starts|].
  split.
  - unfold count_saves. rewrite filter_app, length_app.
    pose proof (createAnimalWithOwner_saved_once a f l g t w H1) as C1.
    pose proof (createAnimalWithOwner_saved_once a f l g t (final R1) H2) as C2.
    unfold saved_once in C1, C2. unfold count_saves, commands in *. subst R1 R2. lia.
  - cbv zeta. repeat split; vm_compute; reflexivity.
Qed.

Lemma contextual_creation_is_not_idempotent_witness :
  let w := Sim_patient_form_open in
  let R1 := @createAnimalWithOwner Sim.browser "Rex" "Jane" "Doe" None None w in
  let R2 := @createAnimalWithOwner Sim.browser "Rex" "Jane" "Doe" None None (final R1) in
  outcome R1 = Returns tt /\
  outcome R2 = Returns tt /\
  hd_error (commands R1) = Some (Fill animalNameInput "Rex") /\
  count_saves (commands R1 ++ commands R2) = 2%nat.
Proof.
  intros w R1 R2.
  assert (H1 : outcome R1 = Returns tt) by (vm_compute; reflexivity).
  assert (H2 : outcome R2 = Returns tt) by (vm_compute; reflexivity).
  split; [exact H1|]. split; [exact H2|].
  destruct (contextual_creation_is_not_idempotent Sim.browser
              "Rex" "Jane" "Doe" None None w H1 H2) as (_ & Hh & _ & Hc & _).
  split; [exact Hh | exact Hc].
Defined.

(* ================================================================== *)
(** ** Owner selection: the fallback *)

(** C10: when the visibility probe of the item that carries the owner name
    does not answer true, [selectOwner] clicks the first item of the list
    and never the matching one, and the only errors it can raise are those
    of that click and of the pause after it.  On the simulated application
    a patient asked for John Smith is created without error and linked to
    Smithers, John. *)
Theorem owner_mismatch_falls_back_to_first_item :
  forall (B : Browser) (ownerName : string) (w : World B) (r : Outcome bool),
    let R := selectOwner ownerName w in
    In (Ev (IsVisible (matchingOwnerItem ownerName) 2000) r) (events R) ->
    r <> Returns true ->
    (exists rc, In (Ev (Click (First allFilterItems) true) rc) (events R)) /\
    ~ In (Click (matchingOwnerItem ownerName) true) (commands R) /\
    (forall e, outcome R = Throws e ->
       In (Ev (Click (First allFilterItems) true) (Throws e)) (events R) \/
       In (Ev (WaitForTimeout 2000) (Throws e)) (events R)) /\
    (let S := @createAnimal Sim.browser "Rex" "John Smith" None None Sim_two_johns in
     outcome S = Returns tt /\
     Sim_patients_named "Rex" (final S) = [("Rex", "-  Smithers, John")]).
Proof.
  intros B ownerName w r R Hin Hr.
  split; [| split; [| split]].
  4: { cbv zeta. split; vm_compute; reflexivity. }
  all: subst R; revert Hin; unfold selectOwner, matchingOwnerItem.
  all: repeat (cbn [bind try_catch call ret throw console_log app];
               match goal with
               | |- context [perform ?B0 ?c ?w0] =>
                   destruct (perform B0 c w0) as [[?|?] ?]
               | |- context [if ?v then _ else _] => destruct v
               end).
  all: cbn [bind try_catch call ret throw console_log app events outcome];
    unfold commands; cbn [events map ev_cmd]; intros Hin.
  all: try (exfalso; cbn [In] in Hin;
            repeat match type of Hin with
                   | _ \/ _ => destruct Hin as [Hin|Hin]
                   | False => destruct Hin
                   | _ = _ =>
                       first
                         [ discriminate Hin
                         | apply (f_equal ev_visible) in Hin; cbn in Hin;
                           inversion Hin; subst; congruence ]
                   end; fail).
  all: try (eexists; cbn [In]; do 7 right; left; reflexivity).
  all: try (intros Hc; cbn [In] in Hc;
            repeat match type of Hc with
                   | _ \/ _ => destruct Hc as [Hc|Hc]
                   | False => destruct Hc
                   | _ = _ => discriminate Hc
                   end; fail).
  all: intros err He; try discriminate He; inversion He; subst;
    cbn [In]; tauto.
Qed.

Lemma owner_mismatch_falls_back_to_first_item_witness :
  let w := Sim.fill animalNameInput "Rex"
             (Sim.open_tab Sim.PatientList (Sim.blank_patient "") Sim_two_johns) in
  let R := @selectOwner Sim.browser "John Smith" w in
  In (Ev (IsVisible (matchingOwnerItem "John Smith") 2000) (Returns false)) (events R) /\
  (exists rc, In (Ev (Click (First allFilterItems) true) rc) (events R)) /\
  ~ In (Click (matchingOwnerItem "John Smith") true) (commands R) /\
  outcome R = Returns tt /\
  Sim.f_owner (Sim.draft (final R)) = "-  Smithers, John".
Proof.
  intros w R.
  assert (Hin : In (Ev (IsVisible (matchingOwnerItem "John Smith") 2000)
                      (Returns false)) (events R)).
  { vm_compute. repeat (first [left; reflexivity | right]). }
  assert (Hr : Returns false <> Returns true) by discriminate.
  destruct (owner_mismatch_falls_back_to_first_item Sim.browser "John Smith" w
              (Returns false) Hin Hr) as (Hc & Hn & _ & _).
  split; [exact Hin|]. split; [exact Hc|]. split; [exact Hn|].
  split; vm_compute; reflexivity.
Defined.

(* ================================================================== *)
(** ** Two calls in succession on the simulated application *)

(* ================================================================== *)
(** ** Two calls in succession on the simulated application *)

Lemma prefix_app s t : prefix s (s ++ t) = true.
Proof.
  induction s as [|c r IH]; cbn; [destruct t; reflexivity|].
  destruct (ascii_dec c c); [exact IH | congruence].
Qed.

Lemma includes_here s t : includes s (s ++ t) = true.
Proof.
  destruct (s ++ t) eqn:E; cbn [includes]; rewrite <- E, prefix_app; reflexivity.
Qed.

Lemma includes_later p s t : includes s t = true -> includes s (p ++ t) = true.
Proof.
  intros H. induction p as [|c r IH]; [exact H|].
  cbn [append includes]. rewrite IH. apply orb_true_r.
Qed.

Lemma append_empty s : s ++ "" = s.
Proof. induction s as [|c r IH]; cbn; congruence. Qed.

Lemma includes_self s : includes s s = true.
Proof.
  pose proof (includes_here s "") as H. rewrite append_empty in H. exact H.
Qed.

Lemma includes_empty t : includes "" t = true.
Proof. destruct t; reflexivity. Qed.

Lemma filter_all {A} (f : A -> bool) l :
  (forall x, f x = true) -> filter f l = l.
Proof.
  intros H. induction l as [|x r IH]; cbn; [reflexivity|].
  rewrite H, IH. reflexivity.
Qed.

Lemma is_nil_map {A C} (f : A -> C) l : is_nil (map f l) = is_nil l.
Proof. destruct l; reflexivity. Qed.

Lemma is_nil_true {A} (l : list A) : is_nil l = true -> l = [].
Proof. destruct l; [reflexivity | discriminate]. Qed.

Lemma Sim_forEach_clicks ts : forall w : Sim.State,
  Sim.form (Sim.draft w) = Sim.ContactForm ->
  let r := @forEach Sim.browser _ ts (fun t => call (Click (checkbox t) false)) w in
  let d := Sim.draft w in
  outcome r = Returns tt /\
  final r =
    Sim.set_draft
      (Sim.mkDraft Sim.ContactForm (Sim.f_first d) (Sim.f_last d)
         (Sim.f_patient d) (Sim.f_owner d)
         (fold_left (fun l t => Sim.toggle_type t l) ts (Sim.f_types d))) w /\
  count_saves (commands r) = 0%nat.
Proof.
  induction ts as [|t rest IH]; intros w Hf; cbv zeta.
  - cbn [forEach ret outcome final fold_left]. unfold commands. cbn.
    split; [reflexivity|]. split; [| reflexivity].
    destruct w as [sv d li hs ls q te ts]. cbn in *. destruct d. cbn in *.
    subst. reflexivity.
  - cbn [forEach bind call].
    assert (E : perform Sim.browser (Click (checkbox t) false) w =
                (Returns tt,
                 Sim.set_draft
                   (Sim.mkDraft Sim.ContactForm (Sim.f_first (Sim.draft w))
                      (Sim.f_last (Sim.draft w)) (Sim.f_patient (Sim.draft w))
                      (Sim.f_owner (Sim.draft w))
                      (Sim.toggle_type t (Sim.f_types (Sim.draft w)))) w)).
    { cbn [perform Sim.browser Sim.perform]. unfold Sim.click, checkbox.
      cbn [String.eqb Ascii.eqb Bool.eqb].
      assert (T : Sim.type_named (contact_type_text t) = Some t)
        by (destruct t; reflexivity).
      rewrite T, Hf. reflexivity. }
    rewrite E. clear E.
    match goal with |- context [forEach rest ?b ?w0] =>
      specialize (IH w0 eq_refl); cbv zeta in IH;
      destruct (forEach rest b w0) as [o1 w1 ev1 lg1]
    end.
    unfold commands in *. cbn [outcome final events map ev_cmd app] in *.
    destruct IH as (Ho & Hw & Hc). subst o1 w1.
    split; [reflexivity|]. split; [reflexivity|].
    unfold count_saves in *. cbn [filter is_save_click checkbox Locator_eqb].
    exact Hc.
Qed.

(** A step of a run on the simulated application: asks for the answer to
    the next call of the run in [H] and settles it by computation; the
    branch of the other answer is closed. *)
Ltac sim_settle E0 :=
  cbn [perform Sim.browser Sim.perform] in E0; cbn in E0;
  first
    [ discriminate E0
    | match type of E0 with
      | _ = (_, ?w0) =>
          let Ha := fresh "Ha" in
          let Hw := fresh "Hw" in
          injection E0 as Ha Hw; subst w0; clear Ha
      end ].

Lemma contact_matches_empty n : Sim.contact_matches "" n = true.
Proof. unfold Sim.contact_matches. rewrite includes_empty. reflexivity. Qed.

Lemma list_case {A C} (l : list A) (x y : C) :
  negb (is_nil l) = true ->
  match l with [] => x | _ :: _ => y end = y.
Proof. destruct l; [discriminate | reflexivity]. Qed.

Ltac first_listed E0 H :=
  match type of E0 with
  | context [match ?l with [] => ?x | _ :: _ => ?y end] =>
      rewrite (list_case l x y) in E0 by (rewrite ?is_nil_map; exact H)
  end.

Lemma existsb_same {A} (f g : A -> bool) l :
  (forall x, f x = g x) -> existsb f l = existsb g l.
Proof. intros H. induction l as [|x r IH]; cbn; [reflexivity|]. rewrite H, IH. reflexivity. Qed.

(** A check of texts against a pattern free of syntax characters, on the
    simulated application. *)
Lemma Sim_expect_some_literal pat items :
  literal pat = true ->
  Sim.expect_some (RegExp pat "") items =
    if existsb (includes pat) items then Returns tt
    else Throws (Sim.TimeoutError "a matching element").
Proof.
  intros H. unfold Sim.expect_some. rewrite (regexp_test_literal _ "" H).
  rewrite (existsb_same _ (includes pat)); [reflexivity|].
  intros x. cbn [Sim.has_text]. rewrite (regexp_test_literal _ x H). reflexivity.
Qed.

Lemma Sim_expect_text_first pat (w : Sim.State) :
  literal pat = true ->
  Sim.expect_text firstFilterItem (RegExp pat "") w =
    match Sim.pane w with
    | [] => Throws (Sim.TimeoutError "the first item")
    | item :: _ =>
        if includes pat item then Returns tt
        else Throws (Sim.TimeoutError "a matching element")
    end.
Proof.
  intros H. unfold Sim.expect_text.
  change (Locator_eqb firstFilterItem firstFilterItem) with true. cbv iota.
  destruct (Sim.pane w) as [|item rest]; [reflexivity|].
  rewrite (Sim_expect_some_literal _ _ H). cbn [existsb].
  rewrite orb_false_r. reflexivity.
Qed.

Lemma Sim_expect_sidebar pat (w : Sim.State) exact :
  literal pat = true ->
  (exists item, In item (Sim.sidebar_items w) /\ includes pat item = true) ->
  Sim.expect_visible (ByText (Css OnPage ".sidebar") (RegExp pat "") exact) w =
    Returns tt.
Proof.
  intros H Hin. unfold Sim.expect_visible.
  change (".sidebar" =? ".sidebar") with true. cbv iota.
  rewrite (Sim_expect_some_literal _ _ H).
  assert (E : existsb (includes pat) (Sim.sidebar_items w) = true)
    by (apply existsb_exists; exact Hin).
  rewrite E. reflexivity.
Qed.

Lemma literal_contact first last :
  literal last = true -> literal first = true ->
  literal (last ++ ", " ++ first) = true /\
  literal ("-  " ++ last ++ ", " ++ first) = true.
Proof.
  intros Hl Hf. rewrite !literal_app, Hl, Hf. split; reflexivity.
Qed.

Lemma contact_matches_self first last :
  Sim.contact_matches (first ++ " " ++ last) (mkContactName first last) = true.
Proof.
  unfold Sim.contact_matches. cbn [firstName lastName].
  rewrite includes_self. reflexivity.
Qed.

(** The first call: the record is not listed, so the form is filled and
    saved, and the sidebar shows the new record. *)
Lemma Sim_createContact_creates first last ty (w : Sim.State) :
  literal last = true -> literal first = true ->
  Sim_fresh (AContact (mkContactName first last) ty) w = true ->
  let R := @createContact Sim.browser (mkContactName first last) ty w in
  outcome R = Returns tt /\
  count_saves (commands R) = 1%nat /\
  Sim.contacts (Sim.server (final R)) =
    (Sim.contacts (Sim.server w) ++
     [(mkContactName first last,
       fold_left (fun l t => Sim.toggle_type t l) (requested ty) [])])%list /\
  Sim.patients (Sim.server (final R)) = Sim.patients (Sim.server w).
Proof.
  intros Hl Hf Hfresh.
  destruct (literal_contact first last Hl Hf) as [Hsrc Hpat].
  unfold Sim_fresh in Hfresh. cbn [searchText firstName lastName] in Hfresh.
  destruct (Sim.save_mode (Sim.server w)) eqn:Hmode; try discriminate Hfresh.
  apply andb_prop in Hfresh. destruct Hfresh as [Hne Hnone].
  apply is_nil_true in Hnone. cbn [append] in Hnone.
  intros R. remember R as R' eqn:E. unfold R in E. clear R.
  unfold createContact, navigateToContactsTab, navigateToTab,
    searchInSidebar, searchResultAppears in E.
  change ("primary-tab-icon-" ++ toLowerCase (tab_text Contacts))
    with "primary-tab-icon-contacts" in E.
  change (tab_text Contacts) with "Contacts" in E.
  cbn [firstName lastName] in E.
  run E.
  do 3 (step E; sim_settle E0).
  step E; cbn [perform Sim.browser Sim.perform] in E0; cbn in E0;
    rewrite (filter_all _ _ contact_matches_empty) in E0;
    first_listed E0 Hne; sim_settle E0.
  do 3 (step E; sim_settle E0).
  step E; cbn [perform Sim.browser Sim.perform] in E0;
    rewrite (Sim_expect_text_first _ _ Hpat) in E0; cbn in E0;
    rewrite Hnone in E0; sim_settle E0.
  unfold contactForm, contactFormFill, useSearchInput in E.
  change (match ty with inl t => [t] | inr l => l end) with (requested ty) in E.
  cbn [firstName lastName] in E.
  run E.
  step E; sim_settle E0.
  match type of E with
  | context [forEach (requested ty) ?b ?w0] =>
      pose proof (Sim_forEach_clicks (requested ty) w0 eq_refl) as L;
      cbv zeta in L;
      destruct (forEach (requested ty) b w0) as [o10 w10 ev10 lg10]
  end.
  cbn [outcome final] in L. destruct L as (Lo & Lw & Lc). subst o10 w10.
  run E.
  do 5 (step E; sim_settle E0).
  step E; cbn [perform Sim.browser Sim.perform] in E0; cbn in E0;
    rewrite Hmode in E0; sim_settle E0.
  step E; cbn [perform Sim.browser Sim.perform] in E0.
  - rewrite (Sim_expect_sidebar _ _ _ Hsrc) in E0.
    + sim_settle E0. subst R'. cbn [outcome final].
      split; [reflexivity|]. split; [| split; reflexivity].
      unfold commands, count_saves in *. cbn [events] in *.
      repeat (cbn; rewrite ?map_app, ?filter_app, ?length_app).
      rewrite Lc. reflexivity.
    + exists (Sim.contact_item (mkContactName first last)). split.
      * unfold Sim.sidebar_items. cbn [Sim.server Sim.contacts].
        apply in_or_app. left. rewrite !map_app. apply in_or_app. right.
        left. reflexivity.
      * unfold Sim.contact_item. cbn [firstName lastName].
        apply (includes_later "-  "). apply includes_self.
  - exfalso. rewrite (Sim_expect_sidebar _ _ _ Hsrc) in E0;
      [discriminate E0|].
    exists (Sim.contact_item (mkContactName first last)). split.
    + unfold Sim.sidebar_items. cbn [Sim.server Sim.contacts].
      apply in_or_app. left. rewrite !map_app. apply in_or_app. right.
      left. reflexivity.
    + unfold Sim.contact_item. cbn [firstName lastName].
      apply (includes_later "-  "). apply includes_self.
Qed.

Lemma filter_last {A} (f : A -> bool) l x :
  filter f l = [] -> f x = true -> filter f (l ++ [x]) = [x].
Proof.
  intros Hl Hx. rewrite filter_app, Hl. cbn [filter app]. rewrite Hx. reflexivity.
Qed.

(** The second call: the search lists the record alone, the check matches
    it, and the call returns without a change of the server. *)
Lemma Sim_createContact_resolves first last ty (w : Sim.State) cs tys :
  literal last = true -> literal first = true ->
  Sim.contacts (Sim.server w) = (cs ++ [(mkContactName first last, tys)])%list ->
  filter (Sim.contact_matches (first ++ " " ++ last)) (map fst cs) = [] ->
  let R := @createContact Sim.browser (mkContactName first last) ty w in
  succeeded (resolveProbe (AContact (mkContactName first last) ty)) (events R) /\
  Sim.server (final R) = Sim.server w.
Proof.
  intros Hl Hf Hcs Hnone.
  destruct (literal_contact first last Hl Hf) as [Hsrc Hpat].
  assert (Hne : negb (is_nil (Sim.contacts (Sim.server w))) = true).
  { rewrite Hcs. destruct cs; reflexivity. }
  assert (Hone : filter (Sim.contact_matches (first ++ String " " last))
                   (map fst (Sim.contacts (Sim.server w))) =
                 [mkContactName first last]).
  { rewrite Hcs, map_app. cbn [map fst].
    apply filter_last; [exact Hnone | apply contact_matches_self]. }
  assert (Hitem : includes ("-  " ++ last ++ ", " ++ first)
                    (Sim.contact_item (mkContactName first last)) = true)
    by apply includes_self.
  intros R. remember R as R' eqn:E. unfold R in E. clear R.
  unfold createContact, navigateToContactsTab, navigateToTab,
    searchInSidebar, searchResultAppears in E.
  change ("primary-tab-icon-" ++ toLowerCase (tab_text Contacts))
    with "primary-tab-icon-contacts" in E.
  change (tab_text Contacts) with "Contacts" in E.
  cbn [firstName lastName] in E.
  run E.
  do 3 (step E; sim_settle E0).
  step E; cbn [perform Sim.browser Sim.perform] in E0; cbn in E0;
    rewrite (filter_all _ _ contact_matches_empty) in E0;
    first_listed E0 Hne; sim_settle E0.
  do 3 (step E; sim_settle E0).
  step E; cbn [perform Sim.browser Sim.perform] in E0;
    rewrite (Sim_expect_text_first _ _ Hpat) in E0;
    match type of E0 with
    | context [Sim.pane ?s] =>
        assert (Hp : Sim.pane s = [Sim.contact_item (mkContactName first last)])
          by (cbn; rewrite Hone; reflexivity);
        rewrite Hp, Hitem in E0
    end;
    sim_settle E0.
  subst R'. cbn [events final resolveProbe firstName lastName]. split.
  - eexists. split.
    + rewrite ?in_app_iff; cbn [In]. do 7 right. left. reflexivity.
    + split; reflexivity.
  - reflexivity.
Qed.

(* ------------------------------------------------------------------ *)
(** *** The patient form on the simulated application *)

Lemma Sim_fillAge age (w : Sim.State) :
  let R := @fillAge Sim.browser age w in
  outcome R = Returns tt /\ final R = w /\ count_saves (commands R) = 0%nat.
Proof.
  destruct age as [z|]; cbv zeta; unfold fillAge.
  - cbn [bind call perform Sim.browser Sim.perform].
    repeat split; reflexivity.
  - repeat split; reflexivity.
Qed.

Lemma Sim_forEach_keys ts : forall w : Sim.State,
  let R := @forEach Sim.browser _ ts
             (fun tag => call (KeyboardType tag) ;; call (KeyboardPress "Enter")) w in
  outcome R = Returns tt /\ final R = w /\ count_saves (commands R) = 0%nat.
Proof.
  induction ts as [|t rest IH]; intros w; cbv zeta.
  - repeat split; reflexivity.
  - cbn [forEach bind call perform Sim.browser Sim.perform].
    specialize (IH w). cbv zeta in IH.
    match goal with |- context [forEach rest ?b w] =>
      destruct (forEach rest b w) as [o1 w1 ev1 lg1]
    end.
    unfold commands, count_saves in *.
    cbn [outcome final events map ev_cmd app filter is_save_click] in *.
    exact IH.
Qed.

Lemma Sim_fillTags tags (w : Sim.State) :
  let R := @fillTags Sim.browser tags w in
  outcome R = Returns tt /\ final R = w /\ count_saves (commands R) = 0%nat.
Proof.
  destruct tags as [ts|]; cbv zeta; unfold fillTags.
  - cbn [bind call perform Sim.browser Sim.perform].
    change (Sim.click _ w) with (@Returns unit tt, w). cbv iota.
    pose proof (Sim_forEach_keys ts w) as IH. cbv zeta in IH.
    match goal with |- context [forEach ts ?b w] =>
      destruct (forEach ts b w) as [o1 w1 ev1 lg1]
    end.
    unfold commands, count_saves in *.
    cbn [outcome final events map ev_cmd app filter is_save_click] in *.
    exact IH.
  - repeat split; reflexivity.
Qed.

Lemma existsb_find {A} (f : A -> bool) l :
  existsb f l = true -> exists x, find f l = Some x.
Proof.
  induction l as [|x r IH]; cbn; [discriminate|].
  destruct (f x); [intros _; exists x; reflexivity | exact IH].
Qed.

(** Owner selection on the simulated application: when the owner search
    lists a contact, an item of the list becomes the owner of the draft. *)
Lemma Sim_selectOwner o (w : Sim.State) :
  negb (is_nil (filter (Sim.contact_matches o)
                  (map fst (Sim.contacts (Sim.server w))))) = true ->
  let R := @selectOwner Sim.browser o w in
  let d := Sim.draft w in
  outcome R = Returns tt /\
  count_saves (commands R) = 0%nat /\
  exists item,
    final R =
      Sim.mkState (Sim.server w)
        (Sim.mkDraft (Sim.form d) (Sim.f_first d) (Sim.f_last d)
           (Sim.f_patient d) item (Sim.f_types d))
        (Sim.logged_in w) (Sim.heading_shown w) Sim.ContactList o
        (Sim.toast_error w) (Sim.toast_success w).
Proof.
  intros Hown R. remember R as R' eqn:E. unfold R in E. clear R.
  unfold selectOwner in E. run E.
  do 5 (step E; sim_settle E0).
  step E; cbn [perform Sim.browser Sim.perform] in E0;
    first [discriminate E0 | injection E0 as Ha Hw; subst w0].
  step E; cbn [perform Sim.browser Sim.perform] in E0;
    first [discriminate E0 | injection E0 as Hv Hw; subst w0].
  subst a4.
  destruct a5; run E.
  - cbn in Hv. destruct (existsb_find _ _ Hv) as [item Hfind].
    step E; cbn [perform Sim.browser Sim.perform] in E0; cbn in E0;
      rewrite Hfind in E0; sim_settle E0.
    step E; sim_settle E0.
    subst R'. cbn [outcome final]. split; [reflexivity|].
    split; [reflexivity|]. exists item. reflexivity.
  - step E; cbn [perform Sim.browser Sim.perform] in E0; cbn in E0;
      revert Hown E0;
      destruct (filter (Sim.contact_matches o)
                  (map fst (Sim.contacts (Sim.server w)))) as [|c0 rest];
      intros Hown E0; try discriminate Hown; sim_settle E0.
    step E; sim_settle E0.
    subst R'. cbn [outcome final]. split; [reflexivity|].
    split; [reflexivity|]. eexists. reflexivity.
Qed.

Lemma Sim_expect_listed (w : Sim.State) :
  negb (is_nil (Sim.pane w)) = true ->
  Sim.expect_visible (First (Css (Css OnPage "#filterlist") "li")) w = Returns tt.
Proof.
  intros H. unfold Sim.expect_visible.
  change (("#filterlist" =? "#filterlist") && ("li" =? "li")) with true.
  cbv iota. destruct (Sim.pane w); [discriminate H | reflexivity].
Qed.

Lemma literal_quoted a : literal a = true -> literal (quoted a) = true.
Proof.
  intros H. unfold quoted. rewrite !literal_app, H. reflexivity.
Qed.

Lemma append_assoc3 (s t u : string) : (s ++ t) ++ u = s ++ t ++ u.
Proof. induction s as [|c r IH]; cbn; congruence. Qed.

Lemma includes_quoted a rest : includes a (quoted a ++ rest) = true.
Proof.
  unfold quoted. rewrite !append_assoc3.
  apply (includes_later dquote). apply includes_here.
Qed.

(** As [sim_settle], keeping the value the call returned. *)
Ltac sim_read E0 :=
  cbn [perform Sim.browser Sim.perform] in E0; cbn in E0;
  first
    [ discriminate E0
    | match type of E0 with
      | _ = (Returns ?a, ?w0) =>
          let Ha := fresh "Ha" in
          let Hw := fresh "Hw" in
          injection E0 as Ha Hw; subst w0; subst a
      | _ = (Throws ?e, ?w0) =>
          let Ha := fresh "Ha" in
          let Hw := fresh "Hw" in
          injection E0 as Ha Hw; subst w0; clear Ha
      end ].

(** The part [m] of the run in [E], known by the lemma [L] to return
    without a save and without a change of the world. *)
Ltac sim_part E L :=
  let o1 := fresh "o" in
  let w1 := fresh "w" in
  let ev1 := fresh "ev" in
  let lg1 := fresh "lg" in
  let Ho := fresh "Ho" in
  let Hw := fresh "Hw" in
  let Hc := fresh "Hc" in
  pose proof L as (Ho & Hw & Hc); cbv zeta in Ho, Hw, Hc;
  match type of Ho with
  | outcome ?r = _ =>
      destruct r as [o1 w1 ev1 lg1];
      unfold commands in Hc; cbn [outcome final events] in Ho, Hw, Hc;
      subst o1 w1; run E
  end.

Lemma Sim_animalForm a o g t (w : Sim.State) :
  literal a = true ->
  Sim.form (Sim.draft w) = Sim.PatientForm ->
  Sim.save_mode (Sim.server w) = Sim.Accept ->
  negb (is_nil (filter (Sim.contact_matches o)
                  (map fst (Sim.contacts (Sim.server w))))) = true ->
  let R := @animalForm Sim.browser a o g t w in
  outcome R = Returns tt /\
  count_saves (commands R) = 1%nat /\
  Sim.contacts (Sim.server (final R)) = Sim.contacts (Sim.server w) /\
  exists item,
    Sim.patients (Sim.server (final R)) =
      (Sim.patients (Sim.server w) ++ [(a, item)])%list.
Proof.
  intros Hl Hform Hmode Hown R. remember R as R' eqn:E. unfold R in E. clear R.
  unfold animalForm, useSearchInput, checkToasts in E. run E.
  step E; sim_settle E0.
  match type of E with
  | context [selectOwner o ?w0] =>
      pose proof (Sim_selectOwner o w0 Hown) as (Lo & Lc & item & Lw);
      cbv zeta in Lo, Lc, Lw;
      destruct (@selectOwner Sim.browser o w0) as [o1 w1 ev1 lg1]
  end.
  unfold commands in Lc. cbn [outcome final events] in Lo, Lc, Lw.
  cbn in Lw. subst o1 w1. run E.
  do 2 (step E; sim_settle E0).
  match type of E with
  | context [fillAge g ?w0] => sim_part E (Sim_fillAge g w0)
  end.
  match type of E with
  | context [fillTags t ?w0] => sim_part E (Sim_fillTags t w0)
  end.
  step E; cbn [perform Sim.browser Sim.perform] in E0; cbn in E0;
    rewrite Hform in E0; cbn in E0; rewrite Hmode in E0; sim_settle E0.
  step E; sim_settle E0.
  step E; sim_read E0. cbn [truthy] in E. run E.
  destruct (Sim.toasts_enabled (Sim.server w)) eqn:Htoast.
  - step E; sim_read E0.
    change (truthy (Some "Record saved")) with true in E. run E.
    subst R'. cbn [outcome final events]. split; [reflexivity|].
    split; [| split; [reflexivity | exists item; reflexivity]].
    unfold commands, count_saves in *. cbn [events].
    repeat (cbn; rewrite ?map_app, ?filter_app, ?length_app).
    rewrite Lc, Hc, Hc0. reflexivity.
  - step E; sim_read E0. cbn [truthy] in E. run E.
    assert (Hside : forall s : Sim.State,
              Sim.patients (Sim.server s) =
                (Sim.patients (Sim.server w) ++ [(a, item)])%list ->
              Sim.expect_visible
                (ByText (Css OnPage ".sidebar") (RegExp a "") false) s =
              Returns tt).
    { intros s Hs. apply (Sim_expect_sidebar _ _ _ Hl).
      exists (Sim.patient_item (a, item)). split.
      - unfold Sim.sidebar_items. rewrite Hs, map_app.
        rewrite !in_app_iff. right. right. left. reflexivity.
      - apply includes_quoted. }
    step E; cbn [perform Sim.browser Sim.perform] in E0;
      rewrite Hside in E0 by reflexivity; sim_settle E0.
    subst R'. cbn [outcome final events]. split; [reflexivity|].
    split; [| split; [reflexivity | exists item; reflexivity]].
    unfold commands, count_saves in *. cbn [events].
    repeat (cbn; rewrite ?map_app, ?filter_app, ?length_app).
    rewrite Lc, Hc, Hc0. reflexivity.
Qed.

Lemma Sim_createAnimal_creates a o g t (w : Sim.State) :
  literal a = true ->
  Sim_fresh (AnAnimal a o g t) w = true ->
  let R := @createAnimal Sim.browser a o g t w in
  outcome R = Returns tt /\
  count_saves (commands R) = 1%nat /\
  Sim.contacts (Sim.server (final R)) = Sim.contacts (Sim.server w) /\
  exists item,
    Sim.patients (Sim.server (final R)) =
      (Sim.patients (Sim.server w) ++ [(a, item)])%list.
Proof.
  intros Hl Hfresh.
  pose proof (literal_quoted a Hl) as Hpat.
  unfold Sim_fresh in Hfresh.
  destruct (Sim.save_mode (Sim.server w)) eqn:Hmode; try discriminate Hfresh.
  apply andb_prop in Hfresh. destruct Hfresh as [Hfresh Hown].
  apply andb_prop in Hfresh. destruct Hfresh as [Hne Hnone].
  apply is_nil_true in Hnone.
  intros R. remember R as R' eqn:E. unfold R in E. clear R.
  unfold createAnimal, navigateToAnimalsTab, navigateToTab,
    searchInSidebar, searchResultAppears in E.
  change (tab_text Patients) with "Patients" in E.
  run E.
  do 3 (step E; sim_settle E0).
  step E; cbn [perform Sim.browser Sim.perform] in E0;
    rewrite Sim_expect_listed in E0
      by (unfold Sim.pane; cbn [Sim.listing Sim.open_tab Sim.query Sim.server];
          rewrite (filter_all _ _ (fun p => includes_empty (fst p)));
          rewrite is_nil_map; exact Hne);
    sim_settle E0.
  do 3 (step E; sim_settle E0).
  step E; cbn [perform Sim.browser Sim.perform] in E0;
    rewrite (Sim_expect_text_first _ _ Hpat) in E0;
    match type of E0 with
    | context [Sim.pane ?s] =>
        assert (Hp : Sim.pane s = []) by (cbn; rewrite Hnone; reflexivity);
        rewrite Hp in E0
    end;
    sim_settle E0.
  match type of E with
  | context [animalForm a o g t ?w0] =>
      pose proof (Sim_animalForm a o g t w0 Hl eq_refl Hmode Hown)
        as (Lo & Lc & Lk & item & Lp);
      cbv zeta in Lo, Lc, Lk, Lp;
      destruct (@animalForm Sim.browser a o g t w0) as [o1 w1 ev1 lg1]
  end.
  unfold commands in Lc. cbn [outcome final events] in Lo, Lc, Lk, Lp.
  cbn in Lk, Lp. subst o1 R'. cbn [outcome final events].
  split; [reflexivity|]. split; [| split; [exact Lk | exists item; exact Lp]].
  unfold commands, count_saves in *. cbn [events].
  repeat (cbn; rewrite ?map_app, ?filter_app, ?length_app).
  exact Lc.
Qed.

Lemma Sim_createAnimal_resolves a o g t (w : Sim.State) ps item :
  literal a = true ->
  Sim.patients (Sim.server w) = (ps ++ [(a, item)])%list ->
  filter (fun p => includes a (fst p)) ps = [] ->
  let R := @createAnimal Sim.browser a o g t w in
  succeeded (resolveProbe (AnAnimal a o g t)) (events R) /\
  Sim.server (final R) = Sim.server w.
Proof.
  intros Hl Hps Hnone.
  pose proof (literal_quoted a Hl) as Hpat.
  assert (Hne : negb (is_nil (Sim.patients (Sim.server w))) = true).
  { rewrite Hps. destruct ps; reflexivity. }
  assert (Hone : filter (fun p : string * string => includes a (fst p))
                   (Sim.patients (Sim.server w)) = [(a, item)]).
  { rewrite Hps. apply filter_last; [exact Hnone | apply includes_self]. }
  assert (Hitem : includes (quoted a) (Sim.patient_item (a, item)) = true)
    by apply includes_here.
  intros R. remember R as R' eqn:E. unfold R in E. clear R.
  unfold createAnimal, navigateToAnimalsTab, navigateToTab,
    searchInSidebar, searchResultAppears in E.
  change (tab_text Patients) with "Patients" in E.
  run E.
  do 3 (step E; sim_settle E0).
  step E; cbn [perform Sim.browser Sim.perform] in E0;
    rewrite Sim_expect_listed in E0
      by (unfold Sim.pane; cbn [Sim.listing Sim.open_tab Sim.query Sim.server];
          rewrite (filter_all _ _ (fun p => includes_empty (fst p)));
          rewrite is_nil_map; exact Hne);
    sim_settle E0.
  do 3 (step E; sim_settle E0).
  step E; cbn [perform Sim.browser Sim.perform] in E0;
    rewrite (Sim_expect_text_first _ _ Hpat) in E0;
    match type of E0 with
    | context [Sim.pane ?s] =>
        assert (Hp : Sim.pane s = [Sim.patient_item (a, item)])
          by (cbn; rewrite Hone; reflexivity);
        rewrite Hp, Hitem in E0
    end;
    sim_settle E0.
  subst R'. cbn [events final resolveProbe]. split.
  - eexists. split.
    + rewrite ?in_app_iff; cbn [In]. do 7 right. left. reflexivity.
    + split; reflexivity.
  - reflexivity.
Qed.

(** Two calls in succession on the simulated application, for a key free
    of syntax characters of regular expressions and a server that does
    not list the key yet. *)
Lemma Sim_two_calls (x : Provision) (w : Sim.State) :
  literal_key x = true -> Sim_fresh x w = true ->
  let R1 := @provision Sim.browser x w in
  let R2 := @provision Sim.browser x (final R1) in
  outcome R1 = Returns tt /\
  count_saves (commands R1) = 1%nat /\
  succeeded (resolveProbe x) (events R2) /\
  Sim.server (final R2) = Sim.server (final R1) /\
  Sim_records (final R1) = S (Sim_records w).
Proof.
  intros Hlit Hfresh.
  destruct x as [[first last] ty | a o g t]; cbn [provision].
  - cbn [literal_key firstName lastName] in Hlit.
    apply andb_prop in Hlit. destruct Hlit as [Hl Hf].
    pose proof (Sim_createContact_creates first last ty w Hl Hf Hfresh)
      as (Ho & Hc & Hcs & Hps).
    cbv zeta in Ho, Hc, Hcs, Hps.
    assert (Hnone : filter (Sim.contact_matches (first ++ " " ++ last))
                      (map fst (Sim.contacts (Sim.server w))) = []).
    { unfold Sim_fresh in Hfresh.
      destruct (Sim.save_mode (Sim.server w)); try discriminate Hfresh.
      apply andb_prop in Hfresh. apply is_nil_true. exact (proj2 Hfresh). }
    pose proof (Sim_createContact_resolves first last ty _ _ _ Hl Hf Hcs Hnone)
      as (Hs & Hsv).
    cbv zeta in Hs, Hsv.
    repeat split; try assumption.
    unfold Sim_records. rewrite Hcs, Hps, length_app. cbn [List.length]. lia.
  - cbn [literal_key] in Hlit.
    pose proof (Sim_createAnimal_creates a o g t w Hlit Hfresh)
      as (Ho & Hc & Hcs & item & Hps).
    cbv zeta in Ho, Hc, Hcs, Hps.
    assert (Hnone : filter (fun p : string * string => includes a (fst p))
                      (Sim.patients (Sim.server w)) = []).
    { unfold Sim_fresh in Hfresh.
      destruct (Sim.save_mode (Sim.server w)); try discriminate Hfresh.
      apply andb_prop in Hfresh. destruct Hfresh as [Hfresh _].
      apply andb_prop in Hfresh. apply is_nil_true. exact (proj2 Hfresh). }
    pose proof (Sim_createAnimal_resolves a o g t _ _ _ Hlit Hps Hnone)
      as (Hs & Hsv).
    cbv zeta in Hs, Hsv.
    repeat split; try assumption.
    unfold Sim_records. rewrite Hcs, Hps, length_app. cbn [List.length]. lia.
Qed.

(** C1: when the existence check of the resolve phase matches the first
    result, [createContact] and [createAnimal] return at once: the run
    issued the navigation, the sidebar search and the check, and no command
    of the create path; and no call clicks Save more than once.  Whether
    the second of two calls with the same key resolves depends on the
    application and on the key.  On the simulated application, for a key
    free of syntax characters of regular expressions that the server does
    not list yet, the first call saves once and returns, the check of the
    second call matches, the second call returns at once and leaves the
    server as it was: the two calls click Save once and store one
    record. *)
Theorem resolve_hit_skips_create_path :
  (forall (B : Browser) (x : Provision) (w : World B),
      let R := provision x w in
      (count_saves (commands R) <= 1)%nat /\
      (succeeded (resolveProbe x) (events R) ->
       outcome R = Returns tt /\
       commands R = resolveCommands x /\
       Forall (fun c => creates c = false) (commands R) /\
       count_saves (commands R) = 0%nat)) /\
  (forall (x : Provision) (w : Sim.State),
      literal_key x = true -> Sim_fresh x w = true ->
      let R1 := @provision Sim.browser x w in
      let R2 := @provision Sim.browser x (final R1) in
      outcome R1 = Returns tt /\
      count_saves (commands R1) = 1%nat /\
      succeeded (resolveProbe x) (events R2) /\
      outcome R2 = Returns tt /\
      commands R2 = resolveCommands x /\
      count_saves (commands R1 ++ commands R2) = 1%nat /\
      Sim.server (final R2) = Sim.server (final R1) /\
      Sim_records (final R2) = S (Sim_records w)).
Proof.
  split.
  - intros B x w R. split; [exact (provision_saves_once x w)|].
    intros H. destruct (resolve_hit_returns x w H) as [Ho Hc].
    fold R in Ho, Hc. rewrite Hc.
    split; [exact Ho|]. split; [reflexivity|]. split.
    + destruct x; repeat constructor.
    + unfold count_saves. rewrite resolveCommands_no_save. reflexivity.
  - intros x w Hlit Hfresh R1 R2.
    destruct (Sim_two_calls x w Hlit Hfresh) as (Ho & Hc & Hs & Hsv & Hrec).
    fold R1 in Ho, Hc, Hs, Hsv, Hrec. fold R2 in Hs, Hsv.
    destruct (resolve_hit_returns x (final R1) Hs) as [Ho2 Hc2].
    fold R2 in Ho2, Hc2.
    repeat split; try assumption.
    + unfold count_saves in *.
      rewrite filter_app, length_app, Hc, Hc2, resolveCommands_no_save.
      reflexivity.
    + unfold Sim_records in *. rewrite Hsv. exact Hrec.
Qed.

Lemma resolve_hit_skips_create_path_witness :
  let run x :=
    let R1 := @provision Sim.browser x Sim.seeded in
    let R2 := @provision Sim.browser x (final R1) in
    outcome R1 = Returns tt /\
    count_saves (commands R1) = 1%nat /\
    succeeded (resolveProbe x) (events R2) /\
    outcome R2 = Returns tt /\
    commands R2 = resolveCommands x /\
    count_saves (commands R1 ++ commands R2) = 1%nat /\
    Sim.server (final R2) = Sim.server (final R1) /\
    Sim_records (final R2) = 3%nat in
  run (AContact (mkContactName "John" "Smith") (inr [Vet; Customer])) /\
  run (AnAnimal "Rex" "Doe, Jane" (Some 3%Z) (Some ["calm"])).
Proof.
  split.
  - exact (proj2 resolve_hit_skips_create_path
             (AContact (mkContactName "John" "Smith") (inr [Vet; Customer]))
             Sim.seeded eq_refl eq_refl).
  - exact (proj2 resolve_hit_skips_create_path
             (AnAnimal "Rex" "Doe, Jane" (Some 3%Z) (Some ["calm"]))
             Sim.seeded eq_refl eq_refl).
Defined.

(** C1, the key: a name that holds an escaped character is a different
    text as a pattern.  The patient [a\.c] is saved by the first call and
    listed first by the search of the second call; the check of the second
    call looks for ["a.c"], fails, and the second call saves the patient
    again. *)
Lemma resolve_escaped_key_counterexample :
  ~ (forall (x : Provision) (w : Sim.State),
        Sim_fresh x w = true ->
        let R1 := @provision Sim.browser x w in
        let R2 := @provision Sim.browser x (final R1) in
        outcome R1 = Returns tt ->
        succeeded (resolveProbe x) (events R2) /\
        (count_saves (commands R1 ++ commands R2) <= 1)%nat).
Proof.
  intros H.
  specialize (H (AnAnimal "a\.c" "Doe, Jane" None None) Sim.seeded
                eq_refl eq_refl).
  destruct H as [_ H]. vm_compute in H. lia.
Qed.


(* ================================================================== *)
(** ** What a normal return guarantees *)

Section Monotone.

Context {B : Browser} {C : Type}.
Variable P : list Event -> Outcome C -> Prop.
Hypothesis P_grows : forall ev1 ev2 o, P ev2 o -> P (ev1 ++ ev2)%list o.
Hypothesis P_thrown : forall ev e, P ev (Throws e).

(** A property that events in front never disturb and that every throwing
    run has holds of a sequence when it holds of the continuation. *)
Lemma holds_then {A} (m : @Script B A) (k : A -> @Script B C) :
  (forall a, holds P (k a)) -> holds P (bind m k).
Proof.
  intros Hk w. unfold bind.
  destruct (m w) as [[a|e] w1 ev1 lg1]; cbn [events outcome].
  - specialize (Hk a w1). unfold holds in Hk.
    destruct (k a w1) as [o w2 ev2 lg2]; cbn [events outcome] in *.
    apply P_grows. exact Hk.
  - apply P_thrown.
Qed.

End Monotone.

Lemma succeeded_grows c ev1 ev2 :
  succeeded c ev2 -> succeeded c (ev1 ++ ev2)%list.
Proof.
  intros (e & Hin & H). exists e. split; [apply in_or_app; right; exact Hin | exact H].
Qed.

Lemma confirmed_by_grows x ev1 ev2 o :
  confirmed_by x ev2 o -> confirmed_by x (ev1 ++ ev2)%list o.
Proof.
  intros H Ho. destruct (H Ho) as [H1|[H2|(s & Hs & Hin)]].
  - left. apply succeeded_grows. exact H1.
  - right. left. apply succeeded_grows. exact H2.
  - right. right. exists s. split; [exact Hs | apply in_or_app; right; exact Hin].
Qed.

Lemma confirmed_by_thrown x ev e : confirmed_by x ev (Throws e).
Proof. intros H. discriminate H. Qed.

(** A script whose last call is the check after Save. *)
Lemma confirmed_by_check {B : Browser} x msg :
  holds (confirmed_by x)
    (bind (@call B (confirmation x)) (fun _ => console_log msg)).
Proof.
  intros w. cbn [bind call console_log].
  destruct (perform B (confirmation x) w) as [[a|e] w1];
    cbn [events outcome app]; intros Ho; [| discriminate Ho].
  right. left. exists (Ev (confirmation x) (Returns a)).
  split; [left; reflexivity | split; reflexivity].
Qed.

Lemma contactForm_confirmed {B : Browser} n t :
  holds (confirmed_by (AContact n t)) (@contactForm B n t).
Proof.
  unfold contactForm.
  do 2 (apply (holds_then _ (confirmed_by_grows _) (confirmed_by_thrown _));
        intros ?).
  apply (confirmed_by_check (AContact n t)).
Qed.

Lemma animalForm_confirmed {B : Browser} a o g t :
  holds (confirmed_by (AnAnimal a o g t)) (@animalForm B a o g t).
Proof.
  unfold animalForm.
  do 7 (apply (holds_then _ (confirmed_by_grows _) (confirmed_by_thrown _));
        intros ?).
  intros w. unfold checkToasts.
  repeat (cbn [bind try_catch call ret throw console_log app truthy];
          match goal with
          | |- context [perform ?B0 ?c ?w0] =>
              destruct (perform B0 c w0) as [[?|?] ?]
          | |- context [if truthy ?v then _ else _] =>
              destruct (truthy v) eqn:?
          end).
  all: cbn [bind try_catch call ret throw console_log app events outcome];
    intros Ho; try discriminate Ho.
  all: first
         [ (* a success toast was read *)
           match goal with
           | T : truthy ?v = true |- context [Ev (TextContent successToastLocator _) (Returns ?v)] =>
               right; right; destruct (truthy_text v T) as (s & Hv & Hs);
               subst; exists s; split; [exact Hs | cbn [In]; tauto]
           end
         | (* the re-check succeeded *)
           right; left;
           match goal with
           | |- context [Ev ?c (Returns ?r)] =>
               lazymatch c with
               | ExpectVisible _ _ =>
                   exists (Ev c (Returns r)); split;
                   [cbn [In]; tauto | split; reflexivity]
               end
           end ].
Qed.

Lemma provision_confirmed {B : Browser} x :
  holds (confirmed_by x) (@provision B x).
Proof.
  destruct x as [n t | a o g t]; cbn [provision].
  - unfold createContact.
    do 3 (apply (holds_then _ (confirmed_by_grows _) (confirmed_by_thrown _));
          intros ?).
    intros w. unfold searchResultAppears.
    cbn [bind try_catch call ret console_log app].
    destruct (perform B _ w) as [[r|e] w1];
      cbn [bind try_catch call ret console_log app events outcome].
    + intros _. left.
      exists (Ev (resolveProbe (AContact n t)) (Returns r)).
      split; [left; reflexivity | split; reflexivity].
    + pose proof (contactForm_confirmed n t w1) as H.
      destruct (contactForm n t w1) as [o1 w2 ev lg]. cbn [events outcome] in *.
      apply (confirmed_by_grows _ [_]). exact H.
  - unfold createAnimal.
    do 3 (apply (holds_then _ (confirmed_by_grows _) (confirmed_by_thrown _));
          intros ?).
    intros w. unfold searchResultAppears.
    cbn [bind try_catch call ret console_log app].
    destruct (perform B _ w) as [[r|e] w1];
      cbn [bind try_catch call ret console_log app events outcome].
    + intros _. left.
      exists (Ev (resolveProbe (AnAnimal a o g t)) (Returns r)).
      split; [left; reflexivity | split; reflexivity].
    + pose proof (animalForm_confirmed a o g t w1) as H.
      destruct (animalForm a o g t w1) as [o1 w2 ev lg]. cbn [events outcome] in *.
      apply (confirmed_by_grows _ [_]). exact H.
Qed.

(** X1: [createContact] and [createAnimal] return normally only after a
    positive sign of the record: the existence check of the resolve phase
    succeeded, or the check after Save succeeded, or (for a patient) a
    success toast with a text was read. *)
Theorem provision_returns_only_when_confirmed :
  forall (B : Browser) (x : Provision) (w : World B),
    let R := provision x w in
    outcome R = Returns tt ->
    succeeded (resolveProbe x) (events R) \/
    succeeded (confirmation x) (events R) \/
    exists s, s <> "" /\ In (Ev successProbe (Returns (Some s))) (events R).
Proof. intros B x w R H. exact (provision_confirmed x w H). Qed.

Lemma provision_returns_only_when_confirmed_witness :
  let x := AnAnimal "Rex" "Doe, Jane" None None in
  let R := @provision Sim.browser x Sim.seeded in
  outcome R = Returns tt /\
  (succeeded (resolveProbe x) (events R) \/
   succeeded (confirmation x) (events R) \/
   exists s, s <> "" /\ In (Ev successProbe (Returns (Some s))) (events R)).
Proof.
  intros x R.
  assert (H : outcome R = Returns tt) by (vm_compute; reflexivity).
  split; [exact H|].
  exact (provision_returns_only_when_confirmed Sim.browser x Sim.seeded H).
Defined.

Lemma contactForm_starts {B : Browser} n t :
  starts_with (Click (checkbox Customer) false) (@contactForm B n t).
Proof.
  unfold contactForm, contactFormFill.
  apply starts_bind, starts_bind, starts_call.
Qed.

Lemma animalForm_starts {B : Browser} a o g t :
  starts_with (Fill animalNameInput a) (@animalForm B a o g t).
Proof. unfold animalForm. apply starts_bind, starts_call. Qed.

(** Closes a goal whose hypothesis [H] puts an event among events that
    are listed one by one and differ from it in the command or the answer. *)
Ltac not_listed H :=
  exfalso; cbn [events In app] in H;
  repeat match type of H with
         | _ \/ _ => destruct H as [H|H]
         | False => destruct H
         | _ = _ =>
             first [ discriminate H
                   | apply (f_equal ev_ok) in H; discriminate H
                   | apply (f_equal ev_cmd) in H; discriminate H ]
         end.

(** X2: whatever error the existence check of the resolve phase throws, a
    timeout or any other, [createContact] and [createAnimal] take the
    record for absent: the run goes on with the first command of the form,
    right after the commands of the resolve phase. *)
Theorem failed_check_enters_form :
  forall (B : Browser) (x : Provision) (w : World B) (e : JsError),
    let R := provision x w in
    In (Ev (resolveProbe x) (Throws e)) (events R) ->
    exists rest, commands R = (resolveCommands x ++ formStart x :: rest)%list.
Proof.
  intros B x w e R H.
  remember R as R' eqn:E. unfold R in E. clear R.
  destruct x as [n t | a o g t]; cbn [provision] in E.
  - unfold createContact, navigateToContactsTab, navigateToTab,
      searchInSidebar, searchResultAppears in E.
    run E.
    do 7 (step E; [| subst R'; not_listed H]).
    step E; [subst R'; not_listed H |].
    destruct (contactForm_starts n t w7) as (r & rest & S).
    destruct (contactForm n t w7) as [o1 w8 ev lg]. cbn [events] in S.
    subst R' ev. exists (map ev_cmd rest). reflexivity.
  - unfold createAnimal, navigateToAnimalsTab, navigateToTab,
      searchInSidebar, searchResultAppears in E.
    run E.
    do 7 (step E; [| subst R'; not_listed H]).
    step E; [subst R'; not_listed H |].
    destruct (animalForm_starts a o g t w7) as (r & rest & S).
    destruct (animalForm a o g t w7) as [o1 w8 ev lg]. cbn [events] in S.
    subst R' ev. exists (map ev_cmd rest). reflexivity.
Qed.

Lemma failed_check_enters_form_witness :
  let x := AContact (mkContactName "John" "Smith") (inr [Vet]) in
  let R := @provision Sim.browser x Sim.seeded in
  exists e,
    In (Ev (resolveProbe x) (Throws e)) (events R) /\
    exists rest, commands R = (resolveCommands x ++ formStart x :: rest)%list.
Proof.
  intros x R.
  assert (H : { e | In (Ev (resolveProbe x) (Throws e)) (events R) }).
  { vm_compute. eexists. do 7 right. left. reflexivity. }
  destruct H as [e H]. exists e. split; [exact H|].
  exact (failed_check_enters_form Sim.browser x Sim.seeded e H).
Defined.

(* ================================================================== *)
(** ** Patient creation: the success toast *)

Lemma toast_trusted_after s ev1 ev2 o :
  Forall (fun e => no_text (ev_cmd e) = true) ev1 ->
  toast_trusted s ev2 o -> toast_trusted s (ev1 ++ ev2)%list o.
Proof.
  intros Hq H Hin. apply in_app_or in Hin. destruct Hin as [Hin|Hin].
  - exfalso. not_quiet Hq Hin.
  - destruct (H Hin) as [Ho (before & Hb)]. split; [exact Ho|].
    exists (ev1 ++ before)%list. rewrite Hb. apply app_assoc.
Qed.

Lemma toast_trusted_throws s ev e :
  Forall (fun e => no_text (ev_cmd e) = true) ev -> toast_trusted s ev (Throws e).
Proof. intros Hq Hin. exfalso. not_quiet Hq Hin. Qed.

Lemma toast_trusted_quiet {B : Browser} s (m : @Script B unit) :
  only no_text m -> holds (toast_trusted s) m.
Proof. intros Hm w Hin. exfalso. pose proof (Hm w) as Hq. not_quiet Hq Hin. Qed.

Lemma falsy_text s : truthy (Some s) = false -> s = "".
Proof.
  cbn [truthy]. intros H. apply negb_false_iff in H.
  apply String.eqb_eq. exact H.
Qed.

(** The toast checks, followed by a script that returns at once after a
    success toast and reads no text otherwise. *)
Lemma checkToasts_trusted {B : Browser} s a (k : Completion -> @Script B unit) :
  s <> "" -> (forall w, k Return w = ret tt w) -> (forall c, only no_text (k c)) ->
  holds (toast_trusted s) (bind (checkToasts a) k).
Proof.
  intros Hs Hret Hk w. unfold checkToasts.
  repeat (cbn [bind try_catch call ret throw console_log app truthy];
          match goal with
          | |- context [perform ?B0 ?c ?w0] =>
              destruct (perform B0 c w0) as [[?|?] ?]
          | |- context [if truthy ?v then _ else _] =>
              destruct (truthy v) eqn:?
          end).
  all: cbn [bind try_catch call ret throw console_log app truthy events outcome].
  all: try rewrite Hret; try run_rest k Hk;
    cbn [bind try_catch call ret throw console_log app events outcome];
    intros Hin.
  all: first
         [ (* the run returned on the success toast *)
           split; [reflexivity|];
           cbn [In] in Hin; destruct Hin as [Hin|[Hin|[]]];
           [ exfalso; apply (f_equal ev_cmd) in Hin; vm_compute in Hin;
             discriminate Hin
           | match goal with
             | |- context [[?e1; _]] => exists [e1]
             end; rewrite Hin; reflexivity ]
         | (* no such toast was read *)
           exfalso; cbn [In] in Hin;
           repeat match type of Hin with
                  | _ \/ _ => destruct Hin as [Hin|Hin]
                  | False => destruct Hin
                  | In _ ?l =>
                      match goal with
                      | Q : Forall _ l |- _ => not_quiet Q Hin
                      end
                  | _ = _ =>
                      first
                        [ solve [ let X := fresh in
                                  pose proof (f_equal ev_cmd Hin) as X;
                                  vm_compute in X; discriminate X ]
                        | apply (f_equal ev_text) in Hin; cbn in Hin;
                          first
                            [ discriminate Hin
                            | subst;
                              match goal with
                              | T : truthy (Some ?z) = false |- _ =>
                                  exact (Hs (falsy_text z T))
                              end ] ]
                  end ].
Qed.

Lemma createPatient_trusts_toast {B : Browser} x s :
  s <> "" -> holds (toast_trusted s) (@createPatient B x).
Proof.
  intros Hs.
  destruct x as [a o g t | a f l g t]; cbn [createPatient].
  - unfold createAnimal.
    repeat (apply (holds_after no_text (toast_trusted s)
                     (toast_trusted_after s) (toast_trusted_throws s));
            [solve [solve_only] | intros ?]).
    match goal with |- context [match ?c with Normal => _ | Return => _ end] =>
      destruct c end; [| apply toast_trusted_quiet; solve_only].
    unfold animalForm.
    repeat (apply (holds_after no_text (toast_trusted s)
                     (toast_trusted_after s) (toast_trusted_throws s));
            [solve [solve_only] | intros ?]).
    apply checkToasts_trusted; [exact Hs | reflexivity |]. intros c. solve_only.
  - unfold createAnimalWithOwner.
    repeat (apply (holds_after no_text (toast_trusted s)
                     (toast_trusted_after s) (toast_trusted_throws s));
            [solve [solve_only] | intros ?]).
    apply checkToasts_trusted; [exact Hs | reflexivity |]. intros c. solve_only.
Qed.

(** X3: in [createAnimal] and [createAnimalWithOwner] a success toast
    with a text ends the run at once: the run returns normally and reading
    the toast was its last command, so the presence of the patient in
    the sidebar is not checked. *)
Theorem success_toast_ends_the_run :
  forall (B : Browser) (x : PatientCall) (s : string) (w : World B),
    let R := createPatient x w in
    s <> "" ->
    In (Ev successProbe (Returns (Some s))) (events R) ->
    outcome R = Returns tt /\
    exists before,
      events R = (before ++ [Ev successProbe (Returns (Some s))])%list.
Proof. intros B x s w R Hs Hin. exact (createPatient_trusts_toast x s Hs w Hin). Qed.

Lemma success_toast_ends_the_run_witness :
  let x := Standalone "Rex" "Doe, Jane" None None in
  let w := Sim.set_save_mode Sim.Accept true Sim.seeded in
  let R := @createPatient Sim.browser x w in
  "Record saved" <> "" /\
  In (Ev successProbe (Returns (Some "Record saved"))) (events R) /\
  outcome R = Returns tt /\
  exists before,
    events R = (before ++ [Ev successProbe (Returns (Some "Record saved"))])%list.
Proof.
  intros x w R.
  assert (Hs : "Record saved" <> "") by discriminate.
  assert (Hin : In (Ev successProbe (Returns (Some "Record saved"))) (events R)).
  { vm_compute. repeat (first [left; reflexivity | right]). }
  split; [exact Hs|]. split; [exact Hin|].
  exact (success_toast_ends_the_run Sim.browser x "Record saved" w Hs Hin).
Defined.

(* ================================================================== *)
(** ** Login from the environment *)

Lemma ezyVetLogin_starts {B : Browser} e p d :
  starts_with (Goto "/") (@ezyVetLogin B e p d).
Proof. unfold ezyVetLogin, goto. apply starts_bind, starts_call. Qed.

(** X4: [ezyVetLoginWithEnv] touches the browser only with both
    credentials at hand.  When the e-mail or the password is unset or
    empty it throws the error that names the two variables, has issued no
    command and leaves the world as it was, whatever the department.
    Otherwise it is [ezyVetLogin] with the two values and the department
    variable, so its first command opens the root page. *)
Theorem ezyVetLoginWithEnv_needs_credentials :
  forall (B : Browser) (env : Env) (w : World B),
    let R := ezyVetLoginWithEnv env w in
    ((missing (TEST_USER_EMAIL env) \/ missing (TEST_USER_PASSWORD env)) /\
     outcome R =
       Throws (Error "TEST_USER_EMAIL and TEST_USER_PASSWORD must be set in .env file") /\
     events R = [] /\ final R = w)
    \/
    (exists email password,
        TEST_USER_EMAIL env = Some email /\ email <> "" /\
        TEST_USER_PASSWORD env = Some password /\ password <> "" /\
        R = ezyVetLogin email password (TEST_DEPARTMENT env) w /\
        hd_error (commands R) = Some (Goto "/")).
Proof.
  intros B [[e|] [p|] d] w R; subst R; unfold ezyVetLoginWithEnv, missing;
    cbn [TEST_USER_EMAIL TEST_USER_PASSWORD TEST_DEPARTMENT].
  - destruct (e =? "") eqn:Ee; [| destruct (p =? "") eqn:Ep]; cbn [orb].
    + apply String.eqb_eq in Ee. subst e. left. cbn. tauto.
    + apply String.eqb_eq in Ep. subst p. left. cbn. tauto.
    + right. exists e, p.
      apply String.eqb_neq in Ee. apply String.eqb_neq in Ep.
      repeat split; try assumption.
      apply starts_with_hd, ezyVetLogin_starts.
  - left. cbn. tauto.
  - left. cbn. tauto.
  - left. cbn. tauto.
Qed.

(* ================================================================== *)
(** ** Login retry: attempts and pauses *)







(** X6: with a bound of zero or less that is a safe integer,
    [ezyVetLoginWithRetry] never tries to log in: it issues no command and
    throws the terminal error, whose message holds the bound digit by
    digit and ends in the rendering of a last error that was never
    set. *)
Theorem login_retry_without_attempts :
  forall (B : Browser) (email password : string) (department : option string)
         (maxRetries : Z) (w : World B),
    isSafeInteger maxRetries = true ->
    (maxRetries <= 0)%Z ->
    let R := ezyVetLoginWithRetry email password department maxRetries w in
    events R = [] /\ final R = w /\
    outcome R =
      Throws (Error ("Login failed after " ++ string_of_number maxRetries ++
                     " attempts: undefined")).
Proof.
  intros B email password department maxRetries w _ H R. subst R.
  unfold ezyVetLoginWithRetry.
  assert (E : Z.to_nat maxRetries = 0%nat) by lia. rewrite E.
  cbn. repeat split.
Qed.

Lemma login_retry_without_attempts_witness :
  let R := @ezyVetLoginWithRetry Sim.browser "vet@clinic.test" "secret" None
             (-3) Sim.seeded in
  isSafeInteger (-3) = true /\
  (-3 <= 0)%Z /\
  events R = [] /\ final R = Sim.seeded /\
  outcome R = Throws (Error "Login failed after -3 attempts: undefined").
Proof.
  split; [reflexivity|]. split; [lia|].
  exact (login_retry_without_attempts Sim.browser "vet@clinic.test" "secret"
           None (-3) Sim.seeded eq_refl ltac:(lia)).
Defined.

(* ================================================================== *)
(** ** Contact types: clicks and parity *)

Lemma toggles_parity ts : forall ch u,
  toggles ts ch u = xorb (ch u) (Nat.odd (count_occ ContactType_eq_dec ts u)).
Proof.
  induction ts as [|t r IH]; intros ch u.
  - cbn. destruct (ch u); reflexivity.
  - change (toggles (t :: r) ch u) with (toggles r (toggle t ch) u).
    rewrite IH. unfold toggle, ContactType_eqb. cbn [count_occ].
    destruct (ContactType_eq_dec t u) as [E|N].
    + rewrite Nat.odd_succ, <- Nat.negb_odd.
      destruct (ch u), (Nat.odd (count_occ ContactType_eq_dec r u)); reflexivity.
    + reflexivity.
Qed.

(** X7: whatever the form shows when it opens and whatever types are
    asked for, once or several times, the form fill of [createContact]
    leaves each box flipped as many times as it was clicked: a box clicked
    an even number of times ends as it began, one clicked an odd number of
    times ends inverted.  This holds when a click toggles its box and
    typing into a field leaves the boxes alone. *)
Theorem contact_boxes_follow_click_parity :
  forall (B : Browser) (checked : World B -> ContactType -> bool)
         (n : ContactName) (ty : ContactType + list ContactType) (w : World B),
    (forall t w a w',
        perform B (Click (checkbox t) false) w = (Returns a, w') ->
        forall u, checked w' u = toggle t (checked w) u) ->
    (forall c w, is_field_input c = true ->
        forall u, checked (snd (perform B c w)) u = checked w u) ->
    let R := contactFormFill n ty w in
    outcome R = Returns tt ->
    forall u, checked (final R) u = xorb (checked w u) (Nat.odd (box_clicks ty u)).
Proof.
  intros B checked n ty w Htog Hkeep R HR u.
  destruct (contactFormFill_boxes checked Htog Hkeep n ty w HR) as [_ Hf].
  rewrite Hf. apply toggles_parity.
Qed.

Lemma contact_boxes_follow_click_parity_witness :
  let n := mkContactName "John" "Smith" in
  let ty : ContactType + list ContactType := inr [Vet; Supplier; Vet] in
  let w := Sim_contact_form_open in
  let R := @contactFormFill Sim.browser n ty w in
  outcome R = Returns tt /\
  forall u, Sim_checked (final R) u =
            xorb (Sim_checked w u) (Nat.odd (box_clicks ty u)).
Proof.
  intros n ty w R.
  assert (HR : outcome R = Returns tt) by reflexivity.
  split; [exact HR|].
  exact (contact_boxes_follow_click_parity Sim.browser Sim_checked n ty w
           Sim_click_toggles Sim_input_keeps HR).
Defined.

(* ================================================================== *)
(** ** Tags of the patient form *)

Lemma forEach_tags {B : Browser} ts : forall w : World B,
  let r := forEach ts (fun tag => call (KeyboardType tag) ;;
                                  call (KeyboardPress "Enter")) w in
  let all := flat_map (fun tag => [KeyboardType tag; KeyboardPress "Enter"]) ts in
  (exists rest, all = (commands r ++ rest)%list) /\
  (outcome r = Returns tt -> commands r = all).
Proof.
  induction ts as [|t rest IH]; intros w; cbv zeta.
  - cbn. split; [exists []; reflexivity | reflexivity].
  - cbn [forEach flat_map]. cbn [bind call app].
    destruct (perform B (KeyboardType t) w) as [[[]|e] w1]; cbn [bind call app].
    + destruct (perform B (KeyboardPress "Enter") w1) as [[[]|e] w2];
        cbn [bind call app].
      * specialize (IH w2). cbv zeta in IH. unfold commands in *.
        destruct (forEach rest _ w2) as [o3 w3 ev3 lg3].
        cbn [events outcome map ev_cmd] in *.
        destruct IH as [(tl & Htl) Hall]. split.
        -- exists tl. rewrite Htl at 1. reflexivity.
        -- intros Ho. rewrite (Hall Ho). reflexivity.
      * unfold commands. cbn [events outcome map ev_cmd app].
        split; [eexists; reflexivity | discriminate].
    + unfold commands. cbn [events outcome map ev_cmd app].
      split; [eexists; reflexivity | discriminate].
Qed.

(** X8: [fillTags] with no tag list issues no command.  With a list,
    empty or not, its first command is the click on the tag list, and its
    commands are always a front part of: that click, then each tag typed
    and entered in the order given, repeated tags included; a run that
    returns issued all of them. *)
Theorem fillTags_enters_each_tag :
  forall (B : Browser) (tags : option (list string)) (w : World B),
    let R := fillTags tags w in
    match tags with
    | None => events R = [] /\ outcome R = Returns tt /\ final R = w
    | Some ts =>
        hd_error (commands R) = Some (Click tagField false) /\
        (exists rest, tagCommands ts = (commands R ++ rest)%list) /\
        (outcome R = Returns tt -> commands R = tagCommands ts)
    end.
Proof.
  intros B [ts|] w R; subst R; unfold fillTags; [| cbn; tauto].
  fold tagField. cbn [bind call app].
  destruct (perform B (Click tagField false) w) as [[[]|e] w1].
  - pose proof (forEach_tags ts w1) as H. cbv zeta in H. unfold commands in *.
    destruct (forEach ts _ w1) as [o2 w2 ev2 lg2].
    cbn [events outcome map ev_cmd app hd_error] in *.
    destruct H as [(tl & Htl) Hall]. split; [reflexivity|]. split.
    + exists tl. unfold tagCommands. rewrite Htl. reflexivity.
    + intros Ho. unfold tagCommands. rewrite (Hall Ho). reflexivity.
  - unfold commands. cbn [events outcome map ev_cmd app hd_error].
    split; [reflexivity|]. split; [eexists; reflexivity | discriminate].
Qed.

(* ================================================================== *)
(** ** Owner selection: the match *)

(** X9: when the visibility probe of the item that carries the owner name
    answers true, [selectOwner] clicks that item and never the first item
    of the list; a run that returns then issued the commands of an owner
    selection with that item. *)
Theorem owner_match_is_clicked :
  forall (B : Browser) (ownerName : string) (w : World B),
    let R := selectOwner ownerName w in
    In (Ev (IsVisible (matchingOwnerItem ownerName) 2000) (Returns true))
       (events R) ->
    (exists rc,
        In (Ev (Click (matchingOwnerItem ownerName) true) rc) (events R)) /\
    ~ In (Click (First allFilterItems) true) (commands R) /\
    (outcome R = Returns tt ->
     commands R = ownerCommands ownerName (matchingOwnerItem ownerName)).
Proof.
  intros B ownerName w R Hin.
  split; [| split].
  all: subst R; revert Hin; unfold selectOwner, matchingOwnerItem.
  all: repeat (cbn [bind try_catch call ret throw console_log app];
               match goal with
               | |- context [perform ?B0 ?c ?w0] =>
                   destruct (perform B0 c w0) as [[?|?] ?]
               | |- context [if ?v then _ else _] => destruct v
               end).
  all: cbn [bind try_catch call ret throw console_log app events outcome];
    unfold commands; cbn [events map ev_cmd]; intros Hin.
  all: try (exfalso; cbn [In] in Hin;
            repeat match type of Hin with
                   | _ \/ _ => destruct Hin as [Hin|Hin]
                   | False => destruct Hin
                   | _ = _ =>
                       first
                         [ discriminate Hin
                         | apply (f_equal ev_visible) in Hin; cbn in Hin;
                           discriminate Hin ]
                   end; fail).
  all: try (eexists; cbn [In]; do 7 right; left; reflexivity).
  all: try (intros Hc; cbn [In] in Hc;
            repeat match type of Hc with
                   | _ \/ _ => destruct Hc as [Hc|Hc]
                   | False => destruct Hc
                   | _ = _ => discriminate Hc
                   end; fail).
  all: intros Ho; first [discriminate Ho | reflexivity].
Qed.

Lemma owner_match_is_clicked_witness :
  let w := Sim.fill animalNameInput "Rex" Sim_patient_form_open in
  let R := @selectOwner Sim.browser "Doe, Jane" w in
  In (Ev (IsVisible (matchingOwnerItem "Doe, Jane") 2000) (Returns true))
     (events R) /\
  (exists rc,
      In (Ev (Click (matchingOwnerItem "Doe, Jane") true) rc) (events R)) /\
  ~ In (Click (First allFilterItems) true) (commands R) /\
  (outcome R = Returns tt ->
   commands R = ownerCommands "Doe, Jane" (matchingOwnerItem "Doe, Jane")).
Proof.
  intros w R.
  assert (H : In (Ev (IsVisible (matchingOwnerItem "Doe, Jane") 2000)
                    (Returns true)) (events R)).
  { vm_compute. do 6 right. left. reflexivity. }
  split; [exact H|].
  exact (owner_match_is_clicked Sim.browser "Doe, Jane" w H).
Defined.

(* ================================================================== *)
(** ** Main tabs *)

(** X10: [navigateToTab] clicks the tab icon named after the tab in lower
    case, with animals for the Patients tab, so no two tabs share an icon.
    It checks the heading only after the click went through, against the
    name of the tab as written, and a run that returns issued just these
    two commands. *)
Theorem navigateToTab_icon_names :
  forall (B : Browser) (t : Tab) (w : World B),
    let R := navigateToTab t w in
    (exists icon,
        hd_error (commands R) = Some (tabClick icon) /\
        toLowerCase icon = icon /\
        (t = Patients -> icon = "animals") /\
        (t <> Patients -> icon = toLowerCase (tab_text t)) /\
        (outcome R = Returns tt ->
         commands R = [tabClick icon; tabHeading (tab_text t)]) /\
        (In (tabHeading (tab_text t)) (commands R) ->
         succeeded (tabClick icon) (events R))) /\
    (forall (t' : Tab) (w' : World B),
        hd_error (commands (navigateToTab t' w')) = hd_error (commands R) ->
        t' = t).
Proof.
  intros B t w R. split.
  - exists (match t with Patients => "animals" | _ => toLowerCase (tab_text t) end).
    subst R. unfold navigateToTab, tabClick, tabHeading, commands.
    cbn [bind call app].
    destruct (perform B _ w) as [[[]|e] w1]; cbn [bind call app].
    + destruct (perform B _ w1) as [[[]|e] w2];
        cbn [events outcome map ev_cmd hd_error].
      all: split; [reflexivity|].
      all: split; [destruct t; reflexivity|].
      all: split; [intros ->; reflexivity|].
      all: split; [intros N; destruct t; try reflexivity; congruence|].
      all: split; [first [reflexivity | discriminate]|].
      all: intros _; eexists; split; [left; reflexivity | split; reflexivity].
    + cbn [events outcome map ev_cmd hd_error].
      split; [reflexivity|].
      split; [destruct t; reflexivity|].
      split; [intros ->; reflexivity|].
      split; [intros N; destruct t; try reflexivity; congruence|].
      split; [discriminate|].
      intros [H|[]]. destruct t; discriminate H.
  - intros t' w'. subst R. unfold navigateToTab, commands. cbn [bind call app].
    destruct (perform B _ w) as [[[]|e] w1];
      destruct (perform B _ w') as [[[]|e'] w1'];
      cbn [bind call app];
      repeat match goal with
             | |- context [perform B ?c ?w0] =>
                 destruct (perform B c w0) as [[[]|?] ?]
             end;
      cbn [events map ev_cmd hd_error];
      intros H; destruct t, t'; first [reflexivity | discriminate H].
Qed.

(** X11: a named tab helper that returns has seen three calls resolve, in
    this order and with nothing else issued: the click on the icon of its
    tab, the check of the heading against the name of the tab, and the
    check of the button text of that tab in the tab slider.  The first
    call that fails ends the run. *)
Theorem tab_helper_postcondition :
  forall (B : Browser) (h : TabHelper) (w : World B),
    let R := tabHelper h w in
    let expected :=
      match h with
      | ToAnimals => [tabClick "animals"; tabHeading "Patients";
                      sliderShows "New Patient"]
      | ToDashboard => [tabClick "dashboard"; tabHeading "Dashboard";
                        sliderShows "Dashboard"]
      | ToContacts => [tabClick "contacts"; tabHeading "Contacts";
                       sliderShows "New Contact"]
      | ToFinancial => [tabClick "financial"; tabHeading "Financial";
                        sliderShows "New Invoice"]
      | ToAdmin => [tabClick "admin"; tabHeading "Admin";
                    sliderShows "New Product"]
      end in
    (exists rest, expected = (commands R ++ rest)%list) /\
    match outcome R with
    | Returns _ => commands R = expected /\ all_ok (events R) = true
    | Throws e =>
        exists before c,
          events R = (before ++ [Ev c (Throws e)])%list /\
          all_ok before = true
    end.
Proof.
  intros B h w R expected. subst R expected.
  destruct h; cbn [tabHelper];
    unfold navigateToAnimalsTab, navigateToDashboardTab, navigateToContactsTab,
      navigateToFinancialTab, navigateToAdminTab, navigateToTab, commands;
    repeat (cbn [bind call app];
            match goal with
            | |- context [perform B ?c ?w0] =>
                destruct (perform B c w0) as [[[]|?] ?]
            end);
    cbn [bind call app events outcome map ev_cmd].
  all: split; [eexists; reflexivity|].
  all: first
         [ split; reflexivity
         | refine (ex_intro _ [] (ex_intro _ _ (conj eq_refl eq_refl)))
         | refine (ex_intro _ [_] (ex_intro _ _ (conj eq_refl eq_refl)))
         | refine (ex_intro _ [_; _] (ex_intro _ _ (conj eq_refl eq_refl))) ].
Qed.

(* ================================================================== *)
(** ** Login without the location screen *)

(** X12: when the wait for the location heading fails, with a timeout or
    any other error, [login] drops the error and makes no attempt to
    pick a location: after the two fills and the click on Login, its one
    further command is the wait for the address to leave the login page,
    and the run ends as that wait does. *)
Theorem login_skips_absent_location_screen :
  forall (B : Browser) (email password : string) (location : option string)
         (w : World B) (e : JsError),
    let R := login email password location w in
    In (Ev (WaitForVisible locationHeading 10000) (Throws e)) (events R) ->
    exists r,
      events R =
        [ Ev (Fill emailInput email) (Returns tt);
          Ev (Fill passwordInput password) (Returns tt);
          Ev (Click loginButton false) (Returns tt);
          Ev (WaitForVisible locationHeading 10000) (Throws e);
          Ev (WaitForURLWithout "/login.php" 30000) r ] /\
      outcome R = r.
Proof.
  intros B email password location w e R Hin. subst R. revert Hin.
  unfold login, selectLocation.
  repeat (cbn [bind try_catch call ret app];
          match goal with
          | |- context [perform B ?c ?w0] =>
              destruct (perform B c w0) as [[[]|?] ?]
          end).
  all: cbn [bind try_catch call ret app events outcome]; intros Hin.
  all: try (exfalso; cbn [In] in Hin;
            repeat match type of Hin with
                   | _ \/ _ => destruct Hin as [Hin|Hin]
                   | False => destruct Hin
                   | _ = _ =>
                       first [ discriminate Hin
                             | apply (f_equal ev_ok) in Hin; discriminate Hin
                             | apply (f_equal ev_cmd) in Hin; discriminate Hin ]
                   end; fail).
  all: cbn [In] in Hin;
    repeat match type of Hin with
           | _ \/ _ => destruct Hin as [Hin|Hin]
           | False => destruct Hin
           end;
    try discriminate Hin;
    try (apply (f_equal ev_cmd) in Hin; discriminate Hin);
    inversion Hin; subst; eexists; split; reflexivity.
Qed.

Lemma login_skips_absent_location_screen_witness :
  let w := Sim.set_login false 0 Sim.seeded in
  let R := @login Sim.browser "vet@clinic.test" "secret" None w in
  exists e r,
    In (Ev (WaitForVisible locationHeading 10000) (Throws e)) (events R) /\
    events R =
      [ Ev (Fill emailInput "vet@clinic.test") (Returns tt);
        Ev (Fill passwordInput "secret") (Returns tt);
        Ev (Click loginButton false) (Returns tt);
        Ev (WaitForVisible locationHeading 10000) (Throws e);
        Ev (WaitForURLWithout "/login.php" 30000) r ] /\
    outcome R = r.
Proof.
  intros w R.
  assert (H : { e | In (Ev (WaitForVisible locationHeading 10000) (Throws e))
                      (events R) }).
  { vm_compute. eexists. do 3 right. left. reflexivity. }
  destruct H as [e H]. exists e.
  destruct (login_skips_absent_location_screen Sim.browser "vet@clinic.test"
              "secret" None w e H) as (r & Hev & Ho).
  exists r. split; [exact H|]. split; [exact Hev | exact Ho].
Defined.

(* ================================================================== *)
(** ** The tests *)

Section ReturnedWith.

Context {B : Browser}.
Variable G : list Event -> Prop.
Hypothesis G_after : forall ev1 ev2, G ev2 -> G (ev1 ++ ev2)%list.
Hypothesis G_before : forall ev1 ev2, G ev1 -> G (ev1 ++ ev2)%list.

(** What the rest of a sequence has seen when it returned, the sequence
    has seen. *)
Lemma returned_with_then {A C} (m : @Script B A) (k : A -> @Script B C) :
  (forall a, holds (returned_with G) (k a)) ->
  holds (returned_with G) (bind m k).
Proof.
  intros Hk w. unfold bind.
  destruct (m w) as [[a|e] w1 ev1 lg1]; cbn [events outcome].
  - specialize (Hk a w1). unfold holds in Hk.
    destruct (k a w1) as [o w2 ev2 lg2]; cbn [events outcome] in *.
    intros Ho. apply G_after. exact (Hk Ho).
  - intros (a & Ha). discriminate Ha.
Qed.

(** What the first script of a sequence has seen when it returned, the
    sequence has seen when it returned. *)
Lemma returned_with_first {A C} (m : @Script B A) (k : A -> @Script B C) :
  holds (returned_with G) m -> holds (returned_with G) (bind m k).
Proof.
  intros Hm w. unfold bind. specialize (Hm w).
  destruct (m w) as [[a|e] w1 ev1 lg1]; cbn [events outcome] in *.
  - destruct (k a w1) as [o w2 ev2 lg2]; cbn [events outcome].
    intros _. apply G_before. apply Hm. exists a. reflexivity.
  - intros (a & Ha). discriminate Ha.
Qed.

End ReturnedWith.

Lemma succeeded_before c ev1 ev2 :
  succeeded c ev1 -> succeeded c (ev1 ++ ev2)%list.
Proof.
  intros (e & Hin & H). exists e. split; [apply in_or_app; left; exact Hin | exact H].
Qed.

(** A call that returned has resolved. *)
Lemma returned_with_call {B : Browser} c :
  holds (returned_with (succeeded c)) (@call B c).
Proof.
  intros w. cbn [call]. destruct (perform B c w) as [[a|e] w1];
    cbn [events outcome]; intros (x & Hx); [| discriminate Hx].
  exists (Ev c (Returns a)). split; [left; reflexivity | split; reflexivity].
Qed.

(** Peels the statements in front of the one a property of returning runs
    is about. *)
Ltac skip_to_cause :=
  apply (returned_with_then _ (succeeded_grows _)); intros ?.

Ltac caused_by_call :=
  try apply (returned_with_first _ (fun ev1 ev2 => succeeded_before _ ev1 ev2));
  match goal with
  | |- holds _ (call ?c) => apply (returned_with_call c)
  end.

Lemma createAnimalWithOwner_saved {B : Browser} a f l g t :
  holds (returned_with (succeeded (Click (Nth saveButton 1) false)))
    (@createAnimalWithOwner B a f l g t).
Proof.
  unfold createAnimalWithOwner.
  do 8 skip_to_cause. caused_by_call.
Qed.

Lemma owner_seen_after x ev1 ev2 : owner_seen x ev2 -> owner_seen x (ev1 ++ ev2)%list.
Proof. intros [H|H]; [left|right]; apply succeeded_grows; exact H. Qed.

Lemma owner_seen_before x ev1 ev2 : owner_seen x ev1 -> owner_seen x (ev1 ++ ev2)%list.
Proof. intros [H|H]; [left|right]; apply succeeded_before; exact H. Qed.

Lemma createCustomer_seen {B : Browser} n :
  holds (returned_with (owner_seen (AContact n (inl Customer))))
    (@createCustomer B n).
Proof.
  intros w (a & Ha). destruct a.
  assert (Hn : only no_text (@createCustomer B n)) by solve_only.
  destruct (provision_confirmed (AContact n (inl Customer)) w Ha)
    as [H|[H|(s & _ & Hin)]].
  - left. exact H.
  - right. exact H.
  - exfalso. specialize (Hn w). cbv beta in Hn.
    change (provision (AContact n (inl Customer)) w) with (createCustomer n w) in Hin.
    not_quiet Hn Hin.
Qed.

Lemma testBody_owner_seen {B : Browser} t ts :
  holds (returned_with (owner_seen (testOwner ts))) (@testBody B t ts).
Proof.
  destruct t; cbn [testBody];
    unfold patientCreationTest, appointmentCreationTest; cbv zeta.
  - do 2 (apply (returned_with_then _ (owner_seen_after _)); intros ?).
    apply (returned_with_first _ (owner_seen_before _)), createCustomer_seen.
  - do 2 (apply (returned_with_then _ (owner_seen_after _)); intros ?).
    apply (returned_with_first _ (owner_seen_before _)), createCustomer_seen.
Qed.

Lemma testBody_new_patient {B : Browser} t ts :
  holds (returned_with (succeeded (Click (ByTestId OnPage "NewPatient") false)))
    (@testBody B t ts).
Proof.
  destruct t; cbn [testBody];
    unfold patientCreationTest, appointmentCreationTest; cbv zeta.
  - do 5 skip_to_cause. caused_by_call.
  - do 5 skip_to_cause. caused_by_call.
Qed.

Lemma testBody_patient_saved {B : Browser} t ts :
  holds (returned_with (succeeded (Click (Nth saveButton 1) false)))
    (@testBody B t ts).
Proof.
  destruct t; cbn [testBody];
    unfold patientCreationTest, appointmentCreationTest; cbv zeta.
  - do 8 skip_to_cause.
    apply (returned_with_first _ (fun ev1 ev2 => succeeded_before _ ev1 ev2)),
      createAnimalWithOwner_saved.
  - do 8 skip_to_cause.
    apply (returned_with_first _ (fun ev1 ev2 => succeeded_before _ ev1 ev2)),
      createAnimalWithOwner_saved.
Qed.

(** X13: a test that creates a patient under a new owner passes only
    after the owner was seen, by the existence check of the resolve phase
    or by the sidebar check after Save, the New Patient button was clicked
    and the Save of the patient form was clicked. *)
Theorem passing_test_has_seen_the_owner :
  forall (B : Browser) (t : TestBody) (timestamp : Z) (w : World B),
    let R := testBody t timestamp w in
    outcome R = Returns tt ->
    owner_seen (testOwner timestamp) (events R) /\
    succeeded (Click (ByTestId OnPage "NewPatient") false) (events R) /\
    succeeded (Click (Nth saveButton 1) false) (events R).
Proof.
  intros B t ts w R H.
  assert (Hx : exists a, outcome R = Returns a) by (exists tt; exact H).
  split; [| split].
  - exact (testBody_owner_seen t ts w Hx).
  - exact (testBody_new_patient t ts w Hx).
  - exact (testBody_patient_saved t ts w Hx).
Qed.

Lemma passing_test_has_seen_the_owner_witness :
  let R := @testBody Sim.browser PatientCreation 1700000000000 Sim.seeded in
  outcome R = Returns tt /\
  owner_seen (testOwner 1700000000000) (events R) /\
  succeeded (Click (ByTestId OnPage "NewPatient") false) (events R) /\
  succeeded (Click (Nth saveButton 1) false) (events R).
Proof.
  intros R.
  assert (H : outcome R = Returns tt) by (vm_compute; reflexivity).
  split; [exact H|].
  exact (passing_test_has_seen_the_owner Sim.browser PatientCreation
           1700000000000 Sim.seeded H).
Defined.

(* ================================================================== *)
(** ** The appointment test: the verdict *)

(** Closes a goal in which an event with a toast check of the appointment
    test is among events that make none. *)
Ltac no_probe Hq Hin :=
  let X := fresh in
  exfalso;
  first [ pose proof (quiet_in _ _ _ Hq Hin) as X
        | pose proof (quiet_in_commands _ _ _ Hq Hin) as X ];
  vm_compute in X; discriminate X.

Lemma appointment_verdict_after ev1 ev2 o :
  Forall (fun e => no_appointment_probe (ev_cmd e) = true) ev1 ->
  appointment_verdict ev2 o -> appointment_verdict (ev1 ++ ev2)%list o.
Proof.
  intros Hq (H1 & H2 & H3). split; [| split].
  - intros s Hs Hin. apply in_app_or in Hin. destruct Hin as [Hin|Hin].
    + no_probe Hq Hin.
    + destruct (H1 s Hs Hin) as [Ho Hn]. split; [exact Ho|].
      rewrite map_app. intros Hc. apply in_app_or in Hc. destruct Hc as [Hc|Hc].
      * no_probe Hq Hc.
      * exact (Hn Hc).
  - intros r Hin. apply in_app_or in Hin. destruct Hin as [Hin|Hin].
    + no_probe Hq Hin.
    + specialize (H2 r Hin). destruct (answer_truthy r); [| exact H2].
      destruct H2 as [Ho (before & Hb)]. split; [exact Ho|].
      exists (ev1 ++ before)%list. rewrite Hb. apply app_assoc.
  - intros Ho. destruct (H3 Ho) as (s & Hs & Hin). exists s.
    split; [exact Hs | apply in_or_app; right; exact Hin].
Qed.

Lemma appointment_verdict_throws ev e :
  Forall (fun e => no_appointment_probe (ev_cmd e) = true) ev ->
  appointment_verdict ev (Throws e).
Proof.
  intros Hq. split; [| split].
  - intros s _ Hin. no_probe Hq Hin.
  - intros r Hin. no_probe Hq Hin.
  - discriminate.
Qed.

(** Sorts out which of the listed events the event of [Hin] is. *)
Ltac which_event Hin :=
  cbn [In] in Hin;
  repeat match type of Hin with
         | _ \/ _ => destruct Hin as [Hin|Hin]
         | False => destruct Hin
         | _ = _ =>
             first
               [ solve [ exfalso;
                         let X := fresh in
                         pose proof (f_equal ev_cmd Hin) as X;
                         vm_compute in X; discriminate X ]
               | apply (f_equal ev_answer) in Hin; cbn [ev_answer] in Hin;
                 inversion Hin; subst ]
         end.

Lemma appointmentCreationTest_verdict {B : Browser} ts :
  holds appointment_verdict (@appointmentCreationTest B ts).
Proof.
  unfold appointmentCreationTest. cbv zeta.
  repeat (apply (holds_after no_appointment_probe appointment_verdict
                   appointment_verdict_after appointment_verdict_throws);
          [solve [solve_only] | intros ?]).
  intros w. fold appointmentErrorProbe appointmentSuccessProbe.
  repeat (cbn [bind try_catch call ret throw console_log app truthy];
          match goal with
          | |- context [perform ?B0 ?c ?w0] =>
              destruct (perform B0 c w0) as [[?|?] ?]
          | |- context [if truthy ?v then _ else _] =>
              destruct (truthy v) eqn:?
          end).
  all: cbn [bind try_catch call ret throw console_log app truthy events outcome].
  all: split; [| split].
  (* the error toast *)
  all: try (intros s Hs Hin; which_event Hin;
            first
              [ split; [reflexivity|];
                cbn [map ev_cmd In]; intros [Hc|[]]; vm_compute in Hc;
                discriminate Hc
              | exfalso;
                match goal with
                | T : truthy (Some ?z) = false |- _ => exact (Hs (falsy_text z T))
                end ]; fail).
  (* the success check *)
  all: try (intros r Hin; which_event Hin; cbn [answer_truthy];
            repeat match goal with
                   | T : truthy ?v = _ |- context [truthy ?v] => rewrite T
                   end;
            first
              [ reflexivity
              | split; [reflexivity|];
                match goal with
                | |- context [[?e1; _]] => exists [e1]; reflexivity
                end ]; fail).
  (* a run that returned *)
  all: try (intros Ho; try discriminate Ho;
            match goal with
            | T : truthy ?v = true |- _ =>
                destruct (truthy_text v T) as (s & Hv & Hs); subst;
                exists s; split; [exact Hs | cbn [In]; tauto]
            end; fail).
Qed.

(** X14: the verdict of the appointment test rests on the two toasts
    alone.  An error toast with a text makes the test throw the creation
    error with that text, and the success toast is not looked for.
    Otherwise the answer of the success check decides: a text makes the
    test return at once; no text, an empty text or a failed read make it
    throw the error that the outcome is unknown.  So the test passes only
    after a success toast with a text was read.  On a page where every
    call resolves, the three verdicts are met with a success toast alone,
    with both toasts, and with two empty toasts. *)
Theorem appointment_test_passes_only_on_success_toast :
  forall (B : Browser) (timestamp : Z) (w : World B),
    let R := appointmentCreationTest timestamp w in
    (forall s, s <> "" ->
       In (Ev appointmentErrorProbe (Returns (Some s))) (events R) ->
       outcome R = Throws (Error ("Appointment creation failed: " ++ s)) /\
       ~ In appointmentSuccessProbe (commands R)) /\
    (forall r, In (Ev appointmentSuccessProbe r) (events R) ->
       if answer_truthy r then
         outcome R = Returns tt /\
         exists before,
           events R = (before ++ [Ev appointmentSuccessProbe r])%list
       else
         outcome R =
           Throws
             (Error
                "Unable to verify appointment creation - no success or error message displayed")) /\
    (outcome R = Returns tt ->
     exists s,
       s <> "" /\
       In (Ev appointmentSuccessProbe (Returns (Some s))) (events R)) /\
    (let run := fun error success =>
       outcome (@appointmentCreationTest Toasts.browser timestamp
                  (Toasts.page error success)) in
     run None (Some "Saved") = Returns tt /\
     run (Some "Clash") (Some "Saved") =
       Throws (Error "Appointment creation failed: Clash") /\
     run (Some "") (Some "") =
       Throws
         (Error
            "Unable to verify appointment creation - no success or error message displayed")).
Proof.
  intros B ts w.
  destruct (appointmentCreationTest_verdict ts w) as (H1 & H2 & H3).
  split; [exact H1|]. split; [exact H2|]. split; [exact H3|].
  cbv zeta. split; [| split]; vm_compute; reflexivity.
Qed.

(* ================================================================== *)
(** ** Failed calls *)

Section Strict.

Context {B : Browser}.
Variable p : Cmd -> bool.

Lemma fails_fast_survived ev : forall t,
  fails_fast p None ev ->
  forall ev2, fails_fast p t ev2 -> fails_fast p t (ev ++ ev2)%list.
Proof.
  induction ev as [|e r IH]; intros t H ev2 H2; [exact H2|].
  cbn [app fails_fast] in *. destruct H as [He Hr]. split.
  - destruct He as [He|[He|[_ He]]]; [left; exact He | right; left; exact He |].
    left. symmetry. exact He.
  - apply IH; assumption.
Qed.

Lemma fails_fast_tolerated ev t :
  Forall (fun e => p (ev_cmd e) = true) ev -> fails_fast p t ev.
Proof.
  induction 1 as [|e r He Hr IH]; cbn [fails_fast]; [exact I|].
  split; [right; left; exact He | exact IH].
Qed.

Lemma strict_ret {A} (a : A) : strict p (@ret B A a).
Proof. intros w. exact I. Qed.

Lemma strict_throw {A} e : strict p (@throw B A e).
Proof. intros w. exact I. Qed.

Lemma strict_log msg : strict p (@console_log B msg).
Proof. intros w. exact I. Qed.

Lemma strict_call c : strict p (@call B c).
Proof.
  intros w. cbn [call]. destruct (perform B c w) as [[a|e] w1];
    cbn [events outcome fails_fast thrown ev_error]; split; auto.
Qed.

Lemma strict_bind {A C} (m : @Script B A) (k : A -> @Script B C) :
  strict p m -> (forall a, strict p (k a)) -> strict p (bind m k).
Proof.
  intros Hm Hk w. specialize (Hm w). cbn [bind].
  destruct (m w) as [[a|e] w1 ev1 lg1]; cbn [events outcome thrown] in *.
  - specialize (Hk a w1).
    destruct (k a w1) as [o w2 ev2 lg2]; cbn [events outcome] in *.
    apply fails_fast_survived; assumption.
  - exact Hm.
Qed.

(** A [try] block of probes, with any handler. *)
Lemma strict_try_catch {A} (m : @Script B A) h :
  only p m -> (forall e, strict p (h e)) -> strict p (try_catch m h).
Proof.
  intros Hm Hh w. specialize (Hm w). cbv beta in Hm. cbn [try_catch].
  destruct (m w) as [[a|e] w1 ev1 lg1]; cbn [events outcome thrown] in *.
  - apply fails_fast_tolerated. exact Hm.
  - specialize (Hh e w1).
    destruct (h e w1) as [o w2 ev2 lg2]; cbn [events outcome] in *.
    apply fails_fast_survived; [| exact Hh].
    apply fails_fast_tolerated. exact Hm.
Qed.

Lemma strict_forEach {T} (l : list T) (body : T -> @Script B unit) :
  (forall x, strict p (body x)) -> strict p (forEach l body).
Proof.
  intros Hb. induction l as [|x r IH]; cbn [forEach].
  - apply strict_ret.
  - apply strict_bind; [apply Hb | intros _; exact IH].
Qed.

End Strict.

(** Proves [strict p m] for a script built from calls, sequences,
    branches, loops and [try] blocks of probes. *)
Ltac solve_strict :=
  repeat first
    [ apply strict_ret | apply strict_throw | apply strict_log
    | match goal with
      | |- strict ?p (call ?c) => apply (strict_call p c)
      end
    | apply strict_bind
    | apply strict_try_catch; [solve [solve_only] |]
    | apply strict_forEach
    | match goal with
      | |- strict _ (match ?x with _ => _ end) => destruct x
      | |- strict _ (if ?x then _ else _) => destruct x
      end
    | lazymatch goal with
      | |- strict _ _ => fail
      | |- _ => intro
      end
    | progress cbv beta
    | progress autounfold with scripts ].

Lemma provision_strict {B : Browser} x : strict tolerated (@provision B x).
Proof. destruct x; cbn [provision]; solve_strict. Qed.

Lemma createPatient_strict {B : Browser} x : strict tolerated (@createPatient B x).
Proof. destruct x; cbn [createPatient]; solve_strict. Qed.

Lemma ezyVetLogin_strict {B : Browser} e p d :
  strict tolerated (@ezyVetLogin B e p d).
Proof. solve_strict. Qed.

Lemma beforeEach_strict {B : Browser} env : strict tolerated (@beforeEach B env).
Proof.
  unfold beforeEach, ezyVetLoginWithEnv.
  destruct (TEST_USER_EMAIL env), (TEST_USER_PASSWORD env); solve_strict.
Qed.

Lemma testBody_strict {B : Browser} t ts : strict tolerated (@testBody B t ts).
Proof.
  destruct t; cbn [testBody];
    unfold patientCreationTest, appointmentCreationTest; cbv zeta; solve_strict.
Qed.

Lemma tabHelper_strict {B : Browser} h : strict tolerated (@tabHelper B h).
Proof.
  destruct h; cbn [tabHelper];
    unfold navigateToDashboardTab, navigateToFinancialTab, navigateToAdminTab;
    solve_strict.
Qed.

Lemma routine_strict {B : Browser} r : strict tolerated (@routine B r).
Proof.
  destruct r; cbn [routine].
  - apply provision_strict.
  - apply createPatient_strict.
  - solve_strict.
  - solve_strict.
  - apply tabHelper_strict.
  - apply ezyVetLogin_strict.
  - apply beforeEach_strict.
  - apply testBody_strict.
Qed.

Lemma fails_fast_at p t ev : forall before e after,
  fails_fast p t ev ->
  ev = (before ++ e :: after)%list ->
  ev_ok e = false -> p (ev_cmd e) = false ->
  after = [] /\ t = ev_error e.
Proof.
  intros before. revert ev.
  induction before as [|b r IH]; intros ev e after H E Hok Hp; subst ev;
    cbn [app fails_fast] in H; destruct H as [He Hr].
  - destruct He as [He|[He|He]].
    + destruct e as [c [a|x]]; cbn in *; discriminate.
    + rewrite Hp in He. discriminate He.
    + exact He.
  - exact (IH _ e after Hr eq_refl Hok Hp).
Qed.

(** X15: outside the retry wrapper, a failed call is survived only when
    it is one of the probes the code wraps in a catch: the existence check
    of a resolve phase, a visibility probe, the read of a toast, the wait
    for the location heading, the wait for the network to settle.  In
    every run of the helpers and of the tests, any other call that fails
    is the last call of the run, and the run throws the error of that
    call. *)
Theorem failed_call_ends_the_run :
  forall (B : Browser) (r : Routine) (w : World B)
         (before after : list Event) (c : Cmd) (e : JsError),
    let R := routine r w in
    events R = (before ++ Ev c (Throws e) :: after)%list ->
    tolerated c = false ->
    after = [] /\ outcome R = Throws e.
Proof.
  intros B r w before after c e R E Hc.
  destruct (fails_fast_at tolerated _ _ before (Ev c (Throws e)) after
              (routine_strict r w) E eq_refl Hc) as [Ha Ht].
  split; [exact Ha|]. cbn [ev_error] in Ht. subst R.
  destruct (outcome (routine r w)); cbn [thrown] in Ht;
    [discriminate Ht | inversion Ht; reflexivity].
Qed.

Lemma failed_call_ends_the_run_witness :
  let r := Provide (AContact (mkContactName "John" "Smith") (inr [Vet])) in
  let w := Sim.set_save_mode Sim.Ignore true Sim.seeded in
  let R := @routine Sim.browser r w in
  exists before c e,
    events R = (before ++ [Ev c (Throws e)])%list /\
    tolerated c = false /\
    outcome R = Throws e.
Proof.
  intros r w R.
  assert (H : { x : list Event * Cmd * JsError |
                events R = (fst (fst x) ++ [Ev (snd (fst x)) (Throws (snd x))])%list /\
                tolerated (snd (fst x)) = false }).
  { vm_compute.
    match goal with
    | |- { x | ?l = _ /\ _ } =>
        match l with
        | context [Ev (ExpectVisible ?a ?b) (Throws ?e)] =>
            exists (removelast l, ExpectVisible a b, e)
        end
    end.
    split; reflexivity. }
  destruct H as [[[before c] e] [E Hc]]. cbn [fst snd] in E, Hc.
  exists before, c, e. split; [exact E|]. split; [exact Hc|].
  exact (proj2 (failed_call_ends_the_run Sim.browser r w before [] c e E Hc)).
Defined.

(* ================================================================== *)
(** ** Names of the test records *)

Section Every.

Context {B : Browser}.
Variable Q : Cmd -> Prop.

#[local] Abbreviation all_Q :=
  (fun (_ : World B) (evs : list Event) (_ : World B) =>
     Forall (fun e => Q (ev_cmd e)) evs).

Lemma all_Q_refl : forall w, all_Q w [] w.
Proof. intros w. constructor. Qed.

Lemma all_Q_trans : forall w1 e1 w2 e2 w3,
  all_Q w1 e1 w2 -> all_Q w2 e2 w3 -> all_Q w1 (e1 ++ e2)%list w3.
Proof. intros. apply Forall_app. split; assumption. Qed.

Lemma every_ret {A} (a : A) : every Q (@ret B A a).
Proof. apply (respects_ret all_Q all_Q_refl). Qed.

Lemma every_throw {A} e : every Q (@throw B A e).
Proof. apply (respects_throw all_Q all_Q_refl). Qed.

Lemma every_log msg : every Q (@console_log B msg).
Proof. apply (respects_log all_Q all_Q_refl). Qed.

Lemma every_call c : Q c -> every Q (@call B c).
Proof.
  intros H. apply (respects_call all_Q). intros w.
  constructor; [exact H | constructor].
Qed.

Lemma every_bind {A C} (m : @Script B A) (k : A -> @Script B C) :
  every Q m -> (forall a, every Q (k a)) -> every Q (bind m k).
Proof. apply (respects_bind all_Q all_Q_trans). Qed.

Lemma every_try_catch {A} (m : @Script B A) h :
  every Q m -> (forall e, every Q (h e)) -> every Q (try_catch m h).
Proof. apply (respects_try_catch all_Q all_Q_trans). Qed.

Lemma every_forEach {T} (l : list T) (body : T -> @Script B unit) :
  (forall x, every Q (body x)) -> every Q (forEach l body).
Proof. apply (respects_forEach all_Q all_Q_refl all_Q_trans). Qed.

Lemma every_in {A} (m : @Script B A) w c :
  every Q m -> In c (commands (m w)) -> Q c.
Proof.
  intros Hm Hin. specialize (Hm w). cbv beta in Hm.
  unfold commands in Hin. apply in_map_iff in Hin.
  destruct Hin as (e & He & Hin). subst c.
  rewrite Forall_forall in Hm. exact (Hm e Hin).
Qed.

End Every.

Lemma string_of_number_inj z1 z2 :
  string_of_number z1 = string_of_number z2 -> z1 = z2.
Proof.
  unfold string_of_number. intros H.
  assert (N : forall z, Z.to_int z <> Decimal.Pos Decimal.Nil /\
                        Z.to_int z <> Decimal.Neg Decimal.Nil).
  { intros z. split; intros E; pose proof (f_equal Z.of_int E) as E';
      rewrite DecimalZ.of_to in E'; cbn in E'; subst z; discriminate E. }
  apply (f_equal NilZero.int_of_string) in H.
  rewrite !NilZero.isi in H by apply N.
  inversion H as [E]. apply DecimalZ.to_int_inj. exact E.
Qed.

Lemma append_inj_r (s a b : string) : s ++ a = s ++ b -> a = b.
Proof.
  induction s as [|ch s IH]; cbn; intros H; [exact H|].
  inversion H. apply IH. assumption.
Qed.

Lemma testBody_named {B : Browser} t ts :
  every (named_after ts) (@testBody B t ts).
Proof.
  destruct t; cbn [testBody];
    unfold patientCreationTest, appointmentCreationTest; cbv zeta.
  all: repeat first
         [ apply every_ret | apply every_throw | apply every_log
         | match goal with
           | |- every ?Q (call ?c) =>
               apply (every_call Q c); cbn [named_after];
               first [ exact I
                     | split; intros E;
                       first [discriminate E | reflexivity] ]
           end
         | apply every_bind | apply every_try_catch | apply every_forEach
         | match goal with
           | |- every _ (match ?x with _ => _ end) => destruct x
           | |- every _ (if ?x then _ else _) => destruct x
           end
         | lazymatch goal with
           | |- every _ _ => fail
           | |- _ => intro
           end
         | progress cbv beta
         | progress autounfold with scripts ].
Qed.

(** X16: the names the tests give their records determine the
    timestamp: two runs of a test that search the sidebar for the same
    owner, or fill the same patient name into the form, ran with the same
    value of the clock.  So runs at different times create records of
    different names. *)
Theorem test_names_determine_the_timestamp :
  forall (B : Browser) (t1 t2 : TestBody) (ts1 ts2 : Z) (w1 w2 : World B)
         (l : Locator) (v : string),
    l = sidebarSearchInput \/ l = animalNameInput ->
    In (Fill l v) (commands (testBody t1 ts1 w1)) ->
    In (Fill l v) (commands (testBody t2 ts2 w2)) ->
    ts1 = ts2.
Proof.
  intros B t1 t2 ts1 ts2 w1 w2 l v Hl H1 H2.
  pose proof (every_in _ _ w1 _ (testBody_named t1 ts1) H1) as [A1 B1].
  pose proof (every_in _ _ w2 _ (testBody_named t2 ts2) H2) as [A2 B2].
  apply string_of_number_inj.
  destruct Hl as [Hl|Hl].
  - apply (append_inj_r "Test Owner"). rewrite <- (A1 Hl). exact (A2 Hl).
  - apply (append_inj_r "TestPet"). rewrite <- (B1 Hl). exact (B2 Hl).
Qed.

Lemma test_names_determine_the_timestamp_witness :
  let w := Sim.seeded in
  let v := "TestPet1700000000000" in
  (animalNameInput = sidebarSearchInput \/ animalNameInput = animalNameInput) /\
  In (Fill animalNameInput v)
     (commands (@testBody Sim.browser PatientCreation 1700000000000 w)) /\
  In (Fill animalNameInput v)
     (commands (@testBody Sim.browser AppointmentCreation 1700000000000 w)) /\
  1700000000000%Z = 1700000000000%Z.
Proof.
  intros w v.
  assert (Hl : animalNameInput = sidebarSearchInput \/
               animalNameInput = animalNameInput) by (right; reflexivity).
  assert (H1 : In (Fill animalNameInput v)
                 (commands (@testBody Sim.browser PatientCreation 1700000000000 w))).
  { vm_compute. repeat (first [left; reflexivity | right]). }
  assert (H2 : In (Fill animalNameInput v)
                 (commands (@testBody Sim.browser AppointmentCreation 1700000000000 w))).
  { vm_compute. repeat (first [left; reflexivity | right]). }
  split; [exact Hl|]. split; [exact H1|]. split; [exact H2|].
  exact (test_names_determine_the_timestamp Sim.browser PatientCreation
           AppointmentCreation 1700000000000 1700000000000 w w
           animalNameInput v Hl H1 H2).
Defined.

(* ================================================================== *)
(** ** Patient creation from a contact: what the console says *)

Section QuietTold.

Context {B : Browser} {C : Type}.
Variable quiet : Cmd -> bool.
Variable P : list Event -> list string -> Outcome C -> Prop.
Hypothesis P_after : forall ev1 lg1 ev2 lg2 o,
  Forall (fun e => quiet (ev_cmd e) = true) ev1 ->
  P ev2 lg2 o -> P (ev1 ++ ev2)%list (lg1 ++ lg2)%list o.
Hypothesis P_throws : forall ev lg e,
  Forall (fun e => quiet (ev_cmd e) = true) ev -> P ev lg (Throws e).

Lemma told_after {A} (m : @Script B A) (k : A -> @Script B C) :
  only quiet m -> (forall a, told P (k a)) -> told P (bind m k).
Proof.
  intros Hm Hk w. unfold bind. specialize (Hm w). cbv beta in Hm.
  destruct (m w) as [[a|e] w1 ev1 lg1]; cbn [events logs outcome] in *.
  - specialize (Hk a w1). unfold told in Hk.
    destruct (k a w1) as [o w2 ev2 lg2]; cbn [events logs outcome] in *.
    apply P_after; assumption.
  - apply P_throws. assumption.
Qed.

End QuietTold.

Lemma last_app_line (lg1 lg2 : list string) line :
  line <> "" -> last lg2 "" = line -> last (lg1 ++ lg2) "" = line.
Proof.
  intros Hl H. destruct lg2 as [|x r]; [cbn in H; congruence|].
  rewrite <- H. clear H Hl.
  induction lg1 as [|y s IH]; [reflexivity|].
  cbn [app]. destruct (s ++ x :: r)%list as [|z l] eqn:E.
  - destruct s; discriminate E.
  - exact IH.
Qed.

Lemma createdLine_not_empty a : createdLine a <> "".
Proof. unfold createdLine. cbn. discriminate. Qed.

Lemma reported_created_after a ev1 lg1 ev2 lg2 o :
  Forall (fun e => not_cmd is_success_probe (ev_cmd e) = true) ev1 ->
  reported_created a ev2 lg2 o ->
  reported_created a (ev1 ++ ev2)%list (lg1 ++ lg2)%list o.
Proof.
  intros Hq H r Hin. apply in_app_or in Hin. destruct Hin as [Hin|Hin].
  - exfalso. not_quiet Hq Hin.
  - destruct (H r Hin) as [Ho Hl]. split; [exact Ho|].
    apply last_app_line; [apply createdLine_not_empty | exact Hl].
Qed.

Lemma reported_created_throws a ev lg e :
  Forall (fun e => not_cmd is_success_probe (ev_cmd e) = true) ev ->
  reported_created a ev lg (Throws e).
Proof. intros Hq r Hin. exfalso. not_quiet Hq Hin. Qed.

Lemma createAnimalWithOwner_reports {B : Browser} a f l g t :
  told (reported_created a) (@createAnimalWithOwner B a f l g t).
Proof.
  unfold createAnimalWithOwner.
  repeat (apply (told_after (not_cmd is_success_probe) (reported_created a)
                   (reported_created_after a) (reported_created_throws a));
          [solve [solve_only] | intros ?]).
  intros w r. unfold checkToasts.
  repeat (cbn [bind try_catch call ret throw console_log app truthy];
          match goal with
          | |- context [perform ?B0 ?c ?w0] =>
              destruct (perform B0 c w0) as [[?|?] ?]
          | |- context [if truthy ?v then _ else _] =>
              destruct (truthy v) eqn:?
          end).
  all: cbn [bind try_catch call ret throw console_log app truthy events logs
              outcome].
  all: intros Hin.
  all: first
         [ split; reflexivity
         | exfalso; cbn [In] in Hin;
           repeat match type of Hin with
                  | _ \/ _ => destruct Hin as [Hin|Hin]
                  | False => destruct Hin
                  | _ = _ =>
                      apply (f_equal ev_cmd) in Hin; vm_compute in Hin;
                      discriminate Hin
                  end ].
Qed.

(** X17: [createAnimalWithOwner] takes any answer of the success check
    for a success.  Once the check was made, whether it read a toast, read
    nothing or failed, the run returns normally, and the last line it
    wrote to the console reports the patient as created. *)
Theorem contextual_creation_reports_success_on_any_answer :
  forall (B : Browser) (animalName ownerFirstName ownerLastName : string)
         (age : option Z) (tags : option (list string)) (w : World B)
         (r : Outcome (option string)),
    let R := createAnimalWithOwner animalName ownerFirstName ownerLastName
               age tags w in
    In (Ev successProbe r) (events R) ->
    outcome R = Returns tt /\ last (logs R) "" = createdLine animalName.
Proof.
  intros B a f l g t w r R Hin.
  exact (createAnimalWithOwner_reports a f l g t w r Hin).
Qed.

Lemma contextual_creation_reports_success_on_any_answer_witness :
  let w := Sim_saves_dropped in
  let R := @createAnimalWithOwner Sim.browser "Rex" "Jane" "Doe" None None w in
  let r := Throws (Sim.TimeoutError "the success toast") in
  In (Ev successProbe r) (events R) /\
  outcome R = Returns tt /\ last (logs R) "" = createdLine "Rex".
Proof.
  intros w R r.
  assert (H : In (Ev successProbe r) (events R)).
  { vm_compute. repeat (first [left; reflexivity | right]). }
  split; [exact H|].
  exact (contextual_creation_reports_success_on_any_answer Sim.browser
           "Rex" "Jane" "Doe" None None w r H).
Defined.

Lemma reported_verified_after ev1 lg1 ev2 lg2 o :
  Forall (fun e => not_cmd is_success_probe (ev_cmd e) = true) ev1 ->
  reported_verified ev2 lg2 o ->
  reported_verified (ev1 ++ ev2)%list (lg1 ++ lg2)%list o.
Proof.
  intros Hq H r Hin. apply in_app_or in Hin. destruct Hin as [Hin|Hin].
  - exfalso. not_quiet Hq Hin.
  - apply in_or_app. right. exact (H r Hin).
Qed.

Lemma reported_verified_throws ev lg e :
  Forall (fun e => not_cmd is_success_probe (ev_cmd e) = true) ev ->
  reported_verified ev lg (Throws e).
Proof. intros Hq r Hin. exfalso. not_quiet Hq Hin. Qed.

(** A script that returns once the success check was made, followed by
    the line and by commands that make no success check. *)
Lemma reported_verified_next {B : Browser} (m : @Script B unit)
    (rest : @Script B unit) :
  (forall w r, In (Ev successProbe r) (events (m w)) -> outcome (m w) = Returns tt) ->
  only (not_cmd is_success_probe) rest ->
  told reported_verified
    (bind m (fun _ => bind (console_log verifiedLine) (fun _ => rest))).
Proof.
  intros Hm Hrest w r. specialize (Hm w). cbn [bind console_log].
  destruct (m w) as [[[]|e] w1 ev1 lg1]; cbn [events logs outcome app] in *.
  - specialize (Hrest w1). cbv beta in Hrest.
    destruct (rest w1) as [o2 w2 ev2 lg2]; cbn [events logs outcome app] in *.
    intros _. apply in_or_app. right. left. reflexivity.
  - intros Hin. specialize (Hm r Hin). discriminate Hm.
Qed.

(** X18: the appointment test reports the patient as verified by a
    success toast on the strength of the call alone.  Once the success
    check of the patient form was made, whatever it answered, the console
    has the line that says so. *)
Theorem appointment_test_reports_toast_unseen :
  forall (B : Browser) (timestamp : Z) (w : World B)
         (r : Outcome (option string)),
    let R := appointmentCreationTest timestamp w in
    In (Ev successProbe r) (events R) ->
    In verifiedLine (logs R).
Proof.
  intros B ts w r R. subst R. revert w r.
  change (told reported_verified (@appointmentCreationTest B ts)).
  unfold appointmentCreationTest. cbv zeta.
  repeat (apply (told_after (not_cmd is_success_probe) reported_verified
                   reported_verified_after reported_verified_throws);
          [solve [solve_only] | intros ?]).
  apply reported_verified_next.
  - intros w r Hin.
    exact (proj1 (createAnimalWithOwner_reports _ _ _ _ _ w r Hin)).
  - solve_only.
Qed.

Lemma appointment_test_reports_toast_unseen_witness :
  let w := Toasts.page None (Some "Saved") in
  let R := @appointmentCreationTest Toasts.browser 1700000000000 w in
  In (Ev successProbe (Returns None)) (events R) /\
  In verifiedLine (logs R).
Proof.
  intros w R.
  assert (H : In (Ev successProbe (Returns None)) (events R)).
  { vm_compute. repeat (first [left; reflexivity | right]). }
  split; [exact H|].
  exact (appointment_test_reports_toast_unseen Toasts.browser 1700000000000 w
           (Returns None) H).
Defined.

(* ================================================================== *)
(** ** Login retry: the attempt that returned *)

Lemma loginAttempts_returned {B : Browser} e p d maxRetries n :
  forall attempt last (w : World B) l,
    let R := loginAttempts n attempt maxRetries last e p d w in
    outcome R = Returns (Return, l) ->
    exists before w',
      events R = (before ++ events (ezyVetLogin e p d w'))%list /\
      outcome (ezyVetLogin e p d w') = Returns tt /\
      final R = final (ezyVetLogin e p d w').
Proof.
  induction n as [|n IH]; intros attempt last w l; cbn [loginAttempts].
  - cbn. discriminate.
  - destruct (attempt <=? maxRetries)%Z; [| cbn; discriminate].
    cbn [bind try_catch ret console_log app].
    destruct (ezyVetLogin e p d w) as [[[]|e1] w1 ev1 lg1] eqn:L;
      cbn [bind try_catch ret console_log app fst snd outcome events final].
    + intros _. exists [], w. rewrite L. cbn [events outcome final app].
      rewrite !app_nil_r. repeat split.
    + destruct (attempt <? maxRetries)%Z;
        cbn [bind try_catch ret console_log call app fst snd outcome events final].
      * destruct (perform B (WaitForTimeout 2000) w1) as [[[]|e2] w2];
          cbn [fst snd outcome events final app]; [| discriminate].
        specialize (IH (attempt + 1)%Z (Some e1) w2 l). cbv zeta in IH.
        destruct (loginAttempts n (attempt + 1) maxRetries (Some e1) e p d w2)
          as [o3 w3 ev3 lg3]; cbn [outcome events final] in *.
        intros H. destruct (IH H) as (before & w' & Hev & Ho & Hf).
        exists ((ev1 ++ [Ev (WaitForTimeout 2000) (Returns tt)]) ++ before)%list, w'.
        rewrite Hev. rewrite <- !app_assoc. repeat split; assumption.
      * specialize (IH (attempt + 1)%Z (Some e1) w1 l). cbv zeta in IH.
        destruct (loginAttempts n (attempt + 1) maxRetries (Some e1) e p d w1)
          as [o3 w3 ev3 lg3]; cbn [outcome events final] in *.
        intros H. destruct (IH H) as (before & w' & Hev & Ho & Hf).
        exists (ev1 ++ before)%list, w'.
        rewrite Hev. rewrite <- ?app_assoc. repeat split; assumption.
Qed.

(** X19: when [ezyVetLoginWithRetry] returns, for any bound, the run
    ends with a complete login that returned: its last events are those
    of one call of [ezyVetLogin], which returned normally and left the
    world the wrapper leaves.  So after the wrapper the page has passed
    the checks of a successful login, however many attempts failed
    before. *)
Theorem login_retry_returns_after_a_login :
  forall (B : Browser) (email password : string) (department : option string)
         (maxRetries : Z) (w : World B),
    let R := ezyVetLoginWithRetry email password department maxRetries w in
    outcome R = Returns tt ->
    exists before w',
      let L := ezyVetLogin email password department w' in
      events R = (before ++ events L)%list /\
      outcome L = Returns tt /\
      final R = final L /\
      succeeded (ExpectURL "/") (events R) /\
      succeeded (ExpectVisible (First (Css OnPage "text=/^[A-Z]{2}$/")) None)
        (events R).
Proof.
  intros B e p d maxRetries w R. subst R. unfold ezyVetLoginWithRetry.
  cbn [bind].
  pose proof (loginAttempts_returned e p d maxRetries (Z.to_nat maxRetries)
                1%Z None w) as H. cbv zeta in H.
  destruct (loginAttempts (Z.to_nat maxRetries) 1 maxRetries None e p d w)
    as [[[[] l]|x] w1 ev1 lg1]; cbn [outcome events final fst snd ret throw] in *;
    try discriminate.
  intros _. destruct (H l eq_refl) as (before & w' & Hev & Ho & Hf).
  exists before, w'. cbv zeta. rewrite app_nil_r.
  split; [exact Hev|]. split; [exact Ho|]. split; [exact Hf|].
  assert (Hx : exists a, outcome (ezyVetLogin e p d w') = Returns a)
    by (exists tt; exact Ho).
  rewrite Hev. split; apply succeeded_grows.
  - refine (_ w' Hx).
    change (holds (returned_with (succeeded (ExpectURL "/")))
              (@ezyVetLogin B e p d)).
    unfold ezyVetLogin, expectLoginSuccess.
    do 2 skip_to_cause. caused_by_call.
  - refine (_ w' Hx).
    change (holds (returned_with
                     (succeeded
                        (ExpectVisible (First (Css OnPage "text=/^[A-Z]{2}$/"))
                           None)))
              (@ezyVetLogin B e p d)).
    unfold ezyVetLogin, expectLoginSuccess.
    do 3 skip_to_cause. caused_by_call.
Qed.

Lemma login_retry_returns_after_a_login_witness :
  let w := Sim.set_login true 1 Sim.seeded in
  let R := @ezyVetLoginWithRetry Sim.browser "vet@clinic.test" "secret" None 2 w in
  outcome R = Returns tt /\
  exists before w',
    let L := @ezyVetLogin Sim.browser "vet@clinic.test" "secret" None w' in
    events R = (before ++ events L)%list /\
    outcome L = Returns tt /\
    final R = final L /\
    succeeded (ExpectURL "/") (events R) /\
    succeeded (ExpectVisible (First (Css OnPage "text=/^[A-Z]{2}$/")) None)
      (events R).
Proof.
  intros w R.
  assert (H : outcome R = Returns tt) by (vm_compute; reflexivity).
  split; [exact H|].
  exact (login_retry_returns_after_a_login Sim.browser "vet@clinic.test"
           "secret" None 2 w H).
Defined.

(* ================================================================== *)
(** ** Save clicks *)

Lemma at_most_sum {B : Browser} p {A C} (m : @Script B A)
    (k : A -> @Script B C) n n' :
  at_most p n m -> (forall a, at_most p n' (k a)) ->
  at_most p (n + n') (bind m k).
Proof.
  intros Hm Hk w. specialize (Hm w). unfold bind, commands in *.
  destruct (m w) as [[a|e] w1 ev1 lg1]; cbn [events] in *; [| lia].
  specialize (Hk a w1). unfold commands in Hk.
  destruct (k a w1) as [o w2 ev2 lg2]; cbn [events] in *.
  rewrite map_app, filter_app, length_app. lia.
Qed.

Lemma createAnimalWithOwner_saves_once {B : Browser} a f l g t :
  at_most is_save_click 1 (@createAnimalWithOwner B a f l g t).
Proof.
  unfold createAnimalWithOwner.
  repeat (apply at_most_after; [solve [solve_only] | intros ?]).
  apply at_most_before; [apply at_most_call | intros ?; solve_only].
Qed.

Lemma routine_saves {B : Browser} r :
  at_most is_save_click (formsSaved r) (@routine B r).
Proof.
  destruct r as [x | x | o | | h | e p d | env | t ts];
    cbn [routine formsSaved].
  - apply provision_saves_once.
  - destruct x; cbn [createPatient].
    + apply (provision_saves_once (AnAnimal _ _ _ _)).
    + apply createAnimalWithOwner_saves_once.
  - apply at_most_only. solve_only.
  - apply at_most_only. solve_only.
  - apply at_most_only.
    destruct h; cbn [tabHelper];
      unfold navigateToDashboardTab, navigateToFinancialTab, navigateToAdminTab;
      solve_only.
  - apply at_most_only. solve_only.
  - apply at_most_only. unfold beforeEach, ezyVetLoginWithEnv.
    destruct (TEST_USER_EMAIL env), (TEST_USER_PASSWORD env); solve_only.
  - destruct t; cbn [testBody];
      unfold patientCreationTest, appointmentCreationTest; cbv zeta.
    + do 2 (apply at_most_after; [solve [solve_only] | intros ?]).
      apply (at_most_sum _ _ _ 1 1);
        [apply (provision_saves_once (AContact _ _)) | intros ?].
      do 5 (apply at_most_after; [solve [solve_only] | intros ?]).
      apply at_most_before;
        [apply createAnimalWithOwner_saves_once | intros ?; solve_only].
    + do 2 (apply at_most_after; [solve [solve_only] | intros ?]).
      apply (at_most_sum _ _ _ 1 2);
        [apply (provision_saves_once (AContact _ _)) | intros ?].
      do 5 (apply at_most_after; [solve [solve_only] | intros ?]).
      apply (at_most_sum _ _ _ 1 1);
        [apply createAnimalWithOwner_saves_once | intros ?].
      repeat (apply at_most_after; [solve [solve_only] | intros ?]).
      apply at_most_before; [apply at_most_call | intros ?; solve_only].
Qed.

(** X20: no run clicks Save more often than the routine has forms to
    save: a creator of a contact or of a patient clicks it at most once,
    the patient test at most twice, the appointment test at most three
    times, and the selections, the tab helpers, the login and the hook
    never. *)
Theorem save_clicks_are_bounded :
  forall (B : Browser) (r : Routine) (w : World B),
    (count_saves (commands (routine r w)) <= formsSaved r)%nat.
Proof. intros B r w. exact (routine_saves r w). Qed.
